(** * Yakima basin dashboard: the data-reconciliation layer of [app.js]

    A shallow embedding of the time-series utilities, the provider parsers,
    the per-station fallback chain and the refresh cycle, followed by the
    properties the specification states about them.

    Conventions of the embedding.
    - A JavaScript number that holds a measurement is an IEEE 754 binary64
      value: [JS.number] is [spec_float] at precision 53, and the arithmetic
      is the correctly rounded one of [SpecFloat] (round to nearest, ties to
      even), so the file evaluates what the browser evaluates.
    - A time value (milliseconds since the epoch, what [Date.getTime] and
      [Date.now] return) and an array index are integers, exact in binary64:
      they are [Z] and [nat].
    - A string is a sequence of 8-bit code units ([string]).
    - What the browser supplies ([new Date(text)], [Date.now()],
      [toLocaleDateString], [Math.pow], the network, the document) is a
      parameter of the definitions that use it. *)

From Stdlib Require Import String Ascii.
From Stdlib Require Import ZArith List Bool Lia SpecFloat.
From Stdlib Require Import Sorted Permutation OrdersEx RelationClasses.
Import ListNotations.

Local Open Scope Z_scope.

(* ===================================================================== *)
(** * The JavaScript runtime, as far as the program uses it               *)
(* ===================================================================== *)

Module JS.

(** ** Numbers *)

Definition number : Set := spec_float.

Definition NaN : number := S754_nan.
Definition Infinity : number := S754_infinity false.
Definition zero : number := S754_zero false.

Definition add : number -> number -> number := SFadd 53 1024.
Definition sub : number -> number -> number := SFsub 53 1024.
Definition mul : number -> number -> number := SFmul 53 1024.
Definition div : number -> number -> number := SFdiv 53 1024.
Definition neg : number -> number := SFopp.
Definition Math_sqrt : number -> number := SFsqrt 53 1024.

(** [a < b], [a <= b], [a > b], [a >= b], [a === b]: all false on NaN. *)
Definition lt (a b : number) : bool := SFltb a b.
Definition le (a b : number) : bool := SFleb a b.
Definition gt (a b : number) : bool := SFltb b a.
Definition ge (a b : number) : bool := SFleb b a.
Definition strict_eq (a b : number) : bool := SFeqb a b.

Definition isNaN (x : number) : bool :=
  match x with S754_nan => true | _ => false end.

(** The number an integer literal or an integer-valued expression denotes. *)
Definition of_Z (z : Z) : number := binary_normalize 53 1024 z 0 false.

(** The number nearest to [m * 10^e] ([m >= 0]), negated when [sign]: the
    value of a decimal literal and of the text [parseFloat] accepts. One
    rounding: integers are rounded by [binary_normalize], fractions by the
    division of the two integers. *)
Definition of_decimal (sign : bool) (m : Z) (e : Z) : number :=
  match m with
  | Zpos p =>
      if 0 <=? e
      then binary_round 53 1024 sign (Z.to_pos (Zpos p * 10 ^ e)) 0
      else SFdiv 53 1024 (S754_finite sign p 0)
                         (S754_finite false (Z.to_pos (10 ^ (- e))) 0)
  | _ => S754_zero sign
  end.

(** ** Arrays *)

Section Arrays.
Context {A : Type}.

(** [arr.findIndex(p)]: the first index whose element satisfies [p], or -1. *)
Fixpoint findIndex_from (p : A -> bool) (l : list A) (i : Z) : Z :=
  match l with
  | [] => -1
  | x :: l' => if p x then i else findIndex_from p l' (i + 1)
  end.

Definition findIndex (p : A -> bool) (l : list A) : Z := findIndex_from p l 0.

(** [arr[i]] for a number [i]: [None] is [undefined]. *)
Definition index (l : list A) (i : Z) : option A :=
  if i <? 0 then None else nth_error l (Z.to_nat i).

(** [arr.filter((x, i) => p x i)]. *)
Fixpoint filteri_from (p : A -> nat -> bool) (l : list A) (i : nat) : list A :=
  match l with
  | [] => []
  | x :: l' =>
      if p x i then x :: filteri_from p l' (S i) else filteri_from p l' (S i)
  end.

Definition filteri (p : A -> nat -> bool) (l : list A) : list A :=
  filteri_from p l 0.

(** [arr.sort(cmp)]: the sort is stable, and [cmp x y < 0] puts [x] first.
    An element is inserted in front of the first one it does not follow. *)
Fixpoint sort_insert (cmp : A -> A -> Z) (x : A) (l : list A) : list A :=
  match l with
  | [] => [x]
  | y :: l' => if cmp x y <=? 0 then x :: y :: l' else y :: sort_insert cmp x l'
  end.

Fixpoint sort (cmp : A -> A -> Z) (l : list A) : list A :=
  match l with
  | [] => []
  | x :: l' => sort_insert cmp x (sort cmp l')
  end.

(** [arr.reduce(f)] without an initial value, on a non-empty array. *)
Definition reduce1 (f : A -> A -> A) (l : list A) : option A :=
  match l with
  | [] => None
  | x :: l' => Some (fold_left f l' x)
  end.
End Arrays.

(** The number a decimal literal [m e-k] of the source denotes. *)
Definition lit (m : Z) (e : Z) : number := of_decimal false m e.

Definition is_neg_zero (x : number) : bool :=
  match x with S754_zero true => true | _ => false end.

Definition is_pos_zero (x : number) : bool :=
  match x with S754_zero false => true | _ => false end.

(** [Math.max(...l)]: -Infinity on no argument, NaN as soon as one argument
    is NaN, and +0 is larger than -0. *)
Definition max2 (highest x : number) : number :=
  if isNaN highest || isNaN x then NaN
  else if lt highest x then x
  else if is_neg_zero highest && is_pos_zero x then x
  else highest.

Definition Math_max (l : list number) : number :=
  fold_left max2 l (S754_infinity true).

(** [Math.min(...l)]: +Infinity on no argument, and -0 is smaller than +0. *)
Definition min2 (lowest x : number) : number :=
  if isNaN lowest || isNaN x then NaN
  else if lt x lowest then x
  else if is_pos_zero lowest && is_neg_zero x then x
  else lowest.

Definition Math_min (l : list number) : number :=
  fold_left min2 l (S754_infinity false).

(** ** Strings *)

Local Open Scope char_scope.

(** White space and line terminators among the 8-bit code units: what
    [trim] removes and [parseFloat] skips. *)
Definition is_space (c : ascii) : bool :=
  let n := nat_of_ascii c in
  ((n =? 9) || (n =? 10) || (n =? 11) || (n =? 12) || (n =? 13)
   || (n =? 32) || (n =? 160))%nat.

Definition is_digit (c : ascii) : bool :=
  let n := nat_of_ascii c in ((48 <=? n) && (n <=? 57))%nat.

Definition digit_value (c : ascii) : Z := Z.of_nat (nat_of_ascii c) - 48.

Definition lower_char (c : ascii) : ascii :=
  let n := nat_of_ascii c in
  if ((65 <=? n) && (n <=? 90))%nat then ascii_of_nat (n + 32)
  else if ((192 <=? n) && (n <=? 222) && negb (n =? 215))%nat then ascii_of_nat (n + 32)
  else c.

Fixpoint toLowerCase (s : string) : string :=
  match s with
  | EmptyString => EmptyString
  | String c s' => String (lower_char c) (toLowerCase s')
  end.

Fixpoint trimStart (s : string) : string :=
  match s with
  | EmptyString => EmptyString
  | String c s' => if is_space c then trimStart s' else s
  end.

Fixpoint trimEnd (s : string) : string :=
  match s with
  | EmptyString => EmptyString
  | String c s' =>
      match trimEnd s' with
      | EmptyString => if is_space c then EmptyString else String c EmptyString
      | r => String c r
      end
  end.

Definition trim (s : string) : string := trimEnd (trimStart s).

(** [s.split(sep)] for a one-character separator. *)
Fixpoint split (sep : ascii) (s : string) : list string :=
  match s with
  | EmptyString => [EmptyString]
  | String c s' =>
      if Ascii.eqb c sep then EmptyString :: split sep s'
      else match split sep s' with
           | h :: t => String c h :: t
           | [] => [String c EmptyString]
           end
  end.

Definition startsWith (s p : string) : bool := String.prefix p s.

Definition endsWith (s p : string) : bool :=
  let n := String.length s in
  let m := String.length p in
  if (m <=? n)%nat then String.eqb (String.substring (n - m) m s) p else false.

(** [Boolean(s)] for a string: the empty string is falsy. *)
Definition truthy (s : string) : bool :=
  match s with EmptyString => false | _ => true end.

(** [a.localeCompare(b)] on the date keys [YYYY-MM-DD] the program compares:
    ASCII digits at the same places, so the collation order is the order of
    the code units. *)
Definition localeCompare (a b : string) : Z :=
  match String_as_OT.compare a b with
  | Lt => -1
  | Eq => 0
  | Gt => 1
  end.

(** *** [parseFloat] *)

(** The longest run of decimal digits at the head of [s]: its value, its
    length, and the rest of [s]. *)
Fixpoint span_digits (s : string) (acc : Z) (n : nat) : Z * nat * string :=
  match s with
  | EmptyString => (acc, n, s)
  | String c s' =>
      if is_digit c then span_digits s' (10 * acc + digit_value c) (S n)
      else (acc, n, s)
  end.

(** An exponent part [e], [e+], [e-] followed by at least one digit; 0 when
    there is none. *)
Definition exponent_part (s : string) : Z :=
  match s with
  | String c s' =>
      if Ascii.eqb c "e" || Ascii.eqb c "E" then
        match s' with
        | String "-" s'' =>
            let '(v, n, _) := span_digits s'' 0 0 in
            if (n =? 0)%nat then 0 else - v
        | String "+" s'' =>
            let '(v, n, _) := span_digits s'' 0 0 in
            if (n =? 0)%nat then 0 else v
        | _ =>
            let '(v, n, _) := span_digits s' 0 0 in
            if (n =? 0)%nat then 0 else v
        end
      else 0
  | EmptyString => 0
  end.

(** The value of the longest prefix of [s] that is an unsigned decimal
    literal ([Infinity], [12], [12.], [12.5], [.5], each with an optional
    exponent part), NaN when no prefix is one. *)
Definition unsigned_literal (sign : bool) (s : string) : number :=
  if String.prefix "Infinity" s then S754_infinity sign else
  let '(int_v, int_n, rest) := span_digits s 0 0 in
  match rest with
  | String "." rest' =>
      let '(v, frac_n, rest'') := span_digits rest' int_v 0 in
      if ((int_n =? 0) && (frac_n =? 0))%nat then NaN
      else of_decimal sign v (exponent_part rest'' - Z.of_nat frac_n)
  | _ =>
      if (int_n =? 0)%nat then NaN
      else of_decimal sign int_v (exponent_part rest)
  end.

Definition parseFloat (s : string) : number :=
  match trimStart s with
  | String "-" s' => unsigned_literal true s'
  | String "+" s' => unsigned_literal false s'
  | s' => unsigned_literal false s'
  end.

(** The double-quote character. *)
Definition dquote : ascii := ascii_of_nat 34.

Local Close Scope char_scope.

End JS.

(* ===================================================================== *)
(** * [src/app.js]                                                        *)
(* ===================================================================== *)

Module App.

(** A sample [{ time, value }]; [time] is the time value of a valid [Date]. *)
Record Sample : Set := mkSample { time : Z; value : JS.number }.

Inductive Trend : Set := rising | falling | stable.

(** ** Time-series utilities *)

(** [getLatestValue] (app.js, lines 128-131). An array argument is [None]
    when the caller passes [null]/[undefined]. *)
Definition getLatestValue (values : option (list Sample)) : option Sample :=
  match values with
  | None => None
  | Some vs =>
      if (length vs =? 0)%nat then None
      else JS.reduce1 (fun best v => if time best <? time v then v else best) vs
  end.

(** [getTrend] (lines 133-146); [hoursBack] defaults to 24. *)
Definition getTrend (values : option (list Sample)) (hoursBack : Z) : Trend :=
  match values with
  | None => stable
  | Some vs =>
      if (length vs <? 2)%nat then stable else
      match getLatestValue values with
      | None => stable
      | Some latest =>
          let cutoff := time latest - hoursBack * 3600000 in
          let past :=
            nth_error
              (JS.sort (fun a b => time b - time a)
                 (filter (fun v => time v <=? cutoff) vs)) 0 in
          match past with
          | None => stable
          | Some past =>
              if JS.strict_eq (value past) JS.zero then stable else
              let pct := JS.div (JS.sub (value latest) (value past)) (value past) in
              if JS.gt pct (JS.of_decimal false 10 (-2)) then rising
              else if JS.lt pct (JS.neg (JS.of_decimal false 10 (-2))) then falling
              else stable
          end
      end
  end.

(** [Math.ceil(arr.length / maxCount)] for an array length and a count:
    a quotient of two non-negative integers, infinite or undefined when
    the count is 0. An array length is below 2^32, so for a positive count
    the binary64 quotient is an integer only when the exact one is, and its
    ceiling is the exact ceiling. *)
Inductive Quotient : Set := QNaN | QInfinity | QFinite (n : nat).

Definition ceil_div (len maxCount : nat) : Quotient :=
  match maxCount with
  | O => if (len =? 0)%nat then QNaN else QInfinity
  | S _ => QFinite ((len + maxCount - 1) / maxCount)%nat
  end.

(** [i % step === 0]: [i % Infinity] is [i], [i % 0] and [i % NaN] are NaN. *)
Definition rem_is_zero (i : nat) (step : Quotient) : bool :=
  match step with
  | QNaN => false
  | QInfinity => (i =? 0)%nat
  | QFinite O => false
  | QFinite (S _ as k) => (i mod k =? 0)%nat
  end.

(** [downsample] (lines 149-153): thin an array to at most [maxCount]
    evenly-spaced points. *)
Definition downsample {A : Type} (arr : option (list A)) (maxCount : nat)
  : option (list A) :=
  match arr with
  | None => arr
  | Some a =>
      if (length a <=? maxCount)%nat then arr
      else
        let step := ceil_div (length a) maxCount in
        Some (JS.filteri (fun _ i => rem_is_zero i step) a)
  end.

(** ** Provider parsers *)

(** What a provider parser returns: [{ discharge, waterTemp, gageHeight }]. *)
Record Series : Set := mkSeries {
  discharge : list Sample;
  waterTemp : list Sample;
  gageHeight : list Sample
}.

(** [new Date(t)] for a number: the time value, [None] (an invalid date)
    beyond the range of a [Date]. *)
Definition Date_of_time (t : Z) : option Z :=
  if Z.abs t <=? 8640000000000000 then Some t else None.

(** The pattern of [parseNWRFCTempHTML]:
    a timestamp cell, the cell boundary, an unsigned decimal. *)
Definition cell_boundary : string :=
  ("</td><td align=" ++ String JS.dquote ("right" ++ String JS.dquote ">"))%string.

(** [n] decimal digits at the head of [s]: the digits and the rest. *)
Fixpoint take_digits (n : nat) (s : string) : option (string * string) :=
  match n with
  | O => Some (EmptyString, s)
  | S n' =>
      match s with
      | String c s' =>
          if JS.is_digit c then
            match take_digits n' s' with
            | Some (d, rest) => Some (String c d, rest)
            | None => None
            end
          else None
      | EmptyString => None
      end
  end.

(** The character [c] at the head of [s]: the rest. *)
Definition take_char (c : ascii) (s : string) : option string :=
  match s with
  | String c' s' => if Ascii.eqb c' c then Some s' else None
  | EmptyString => None
  end.

(** The string [p] at the head of [s]: the rest. *)
Fixpoint take_string (p s : string) : option string :=
  match p with
  | EmptyString => Some s
  | String c p' =>
      match take_char c s with
      | Some s' => take_string p' s'
      | None => None
      end
  end.

(** The longest run of digits at the head of [s]: the digits and the rest. *)
Fixpoint take_digit_run (s : string) : string * string :=
  match s with
  | String c s' =>
      if JS.is_digit c then
        let '(d, rest) := take_digit_run s' in (String c d, rest)
      else (EmptyString, s)
  | EmptyString => (EmptyString, s)
  end.

(** [\d{4}-\d{2}-\d{2} \d{2}:\d{2}] at the head of [s]. *)
Definition match_timestamp (s : string) : option (string * string) :=
  match take_digits 4 s with
  | Some (y, s) =>
  match take_char "-" s with
  | Some s =>
  match take_digits 2 s with
  | Some (mo, s) =>
  match take_char "-" s with
  | Some s =>
  match take_digits 2 s with
  | Some (d, s) =>
  match take_char " " s with
  | Some s =>
  match take_digits 2 s with
  | Some (h, s) =>
  match take_char ":" s with
  | Some s =>
  match take_digits 2 s with
  | Some (mi, s) =>
      Some ((y ++ "-" ++ mo ++ "-" ++ d ++ " " ++ h ++ ":" ++ mi)%string, s)
  | None => None end
  | None => None end
  | None => None end
  | None => None end
  | None => None end
  | None => None end
  | None => None end
  | None => None end
  | None => None end.

(** [\d+\.?\d*] at the head of [s]; each part is greedy and nothing
    follows in the pattern, so no part gives back what it took. *)
Definition match_decimal (s : string) : option string :=
  let '(int_part, rest) := take_digit_run s in
  match int_part with
  | EmptyString => None
  | _ =>
      match rest with
      | String "." rest' =>
          let '(frac, _) := take_digit_run rest' in
          Some (int_part ++ "." ++ frac)%string
      | _ => Some int_part
      end
  end.

(** The whole pattern at the head of [s]: the two groups and the length of
    the match. *)
Definition match_at (s : string) : option (string * string * nat) :=
  match match_timestamp s with
  | Some (m1, s1) =>
      match take_string cell_boundary s1 with
      | Some s2 =>
          match match_decimal s2 with
          | Some m2 =>
              Some (m1, m2,
                    (String.length m1 + String.length cell_boundary
                     + String.length m2)%nat)
          | None => None
          end
      | None => None
      end
  | None => None
  end.

(** The successive matches of [re.exec(html)] with the [g] flag: the
    leftmost match from [lastIndex] on, then on from its end. [skip] counts
    the characters of the last match still to pass. *)
Fixpoint exec_all (skip : nat) (s : string) : list (string * string) :=
  match s with
  | EmptyString => []
  | String _ s' =>
      match skip with
      | S k => exec_all k s'
      | O =>
          match match_at s with
          | Some (m1, m2, len) => (m1, m2) :: exec_all (len - 1) s'
          | None => exec_all 0 s'
          end
      end
  end.

Section Parsers.
(** [new Date(text).getTime()] of the browser: [None] is an invalid date. *)
Variable Date_parse : string -> option Z.

(** One row of the CSV text, after the header: the body of the [for] loop
    (lines 298-313). *)
Definition parseUSBRRow (qIdx twIdx : Z) (out : Series) (line : string) : Series :=
  let cols := JS.split "," line in
  if (length cols <? 2)%nat then out else
  match Date_parse (JS.trim (nth 0 cols EmptyString)) with
  | None => out
  | Some dt =>
      let out :=
        if 0 <=? qIdx then
          let val := match JS.index cols qIdx with
                     | Some c => JS.parseFloat c
                     | None => JS.NaN
                     end in
          if negb (JS.isNaN val) && JS.ge val (JS.of_Z 0)
          then mkSeries (discharge out ++ [mkSample dt val]) (waterTemp out)
                        (gageHeight out)
          else out
        else out in
      if 0 <=? twIdx then
        let valC := match JS.index cols twIdx with
                    | Some c => JS.parseFloat c
                    | None => JS.NaN
                    end in
        if negb (JS.isNaN valC)
        then mkSeries (discharge out)
                      (waterTemp out
                       ++ [mkSample dt
                             (JS.add (JS.div (JS.mul valC (JS.of_Z 9)) (JS.of_Z 5))
                                     (JS.of_Z 32))])
                      (gageHeight out)
        else out
      else out
  end.

(** [parseUSBRCSV] (lines 284-316): parse USBR Hydromet CSV response. *)
Definition parseUSBRCSV (text stationLower : string) : Series :=
  let out := mkSeries [] [] [] in
  let lines := filter JS.truthy (map JS.trim (JS.split (ascii_of_nat 10) text)) in
  if (length lines <? 2)%nat then out else
  let headerIdx :=
    JS.findIndex (fun l => JS.startsWith (JS.toLowerCase l) "datetime") lines in
  if headerIdx <? 0 then out else
  match JS.index lines headerIdx with
  | None => out
  | Some header =>
      let headers := map (fun h => JS.toLowerCase (JS.trim h)) (JS.split "," header) in
      let qIdx :=
        JS.findIndex
          (fun h => String.eqb h (stationLower ++ "_q") || JS.endsWith h "_q")
          headers in
      let twIdx :=
        JS.findIndex
          (fun h => String.eqb h (stationLower ++ "_tw") || JS.endsWith h "_tw")
          headers in
      fold_left (parseUSBRRow qIdx twIdx)
                (skipn (Z.to_nat (headerIdx + 1)) lines) out
  end.

(** [parseNWRFCTempHTML] (lines 350-363): parse NWRFC textPlot HTML response
    for temperature. [now] is what [Date.now()] returns during the call. *)
Definition parseNWRFCTempHTML (now : Z) (html : string) (days : Z) : list Sample :=
  let cutoff := Date_of_time (now - days * 86400000) in
  fold_left
    (fun out m =>
       let dt := Date_parse (fst m) in
       let val := JS.parseFloat (snd m) in
       match dt, cutoff with
       | Some dt, Some cutoff =>
           if (cutoff <=? dt) && negb (JS.isNaN val)
           then out ++ [mkSample dt val]
           else out
       | _, _ => out
       end)
    (exec_all 0 html) [].

End Parsers.

(** ** Hydrograph series (the data part of [createHydrograph], lines 618-683) *)

(** The sample of the time-sorted temperatures nearest in time to the
    discharge point [dp]: the [reduce] starts from the first sample and moves
    to a later one only when it is strictly nearer. *)
Definition nearestTemp (first : Sample) (others : list Sample) (dp : Sample) : Sample :=
  fold_left
    (fun best tv =>
       if Z.abs (time tv - time dp) <? Z.abs (time best - time dp) then tv else best)
    others first.

(** One point of [aligned]: the nearest temperature, or [None] ([null]) when
    it is 4 hours or more away. *)
Definition alignedTemp (first : Sample) (others : list Sample) (dp : Sample)
  : option JS.number :=
  let nearest := nearestTemp first others dp in
  if Z.abs (time nearest - time dp) <? 4 * 3600000 then Some (value nearest) else None.

(** [aligned], for the downsampled discharge [ds]. The [reduce] has no
    initial value; it is reached only under [waterTemp.length > 0]. *)
Definition alignTemps (waterTemp ds : list Sample) : option (list (option JS.number)) :=
  if (0 <? length waterTemp)%nat then
    match JS.sort (fun a b => time a - time b) waterTemp with
    | first :: others => Some (map (alignedTemp first others) ds)
    | [] => None
    end
  else None.

Record HydrographData : Set := mkHydrographData {
  ds : list Sample;
  futureFcast : list Sample;
  qObsData : list (option JS.number);
  qFcastData : list (option JS.number);
  tData : option (list (option JS.number))
}.

(** [None] is the early [return null] of a station without discharge. *)
Definition hydrographData (discharge waterTemp forecast : list Sample)
  : option HydrographData :=
  let discharge := JS.sort (fun a b => time a - time b) discharge in
  let rawFcast := JS.sort (fun a b => time a - time b) forecast in
  if (length discharge =? 0)%nat then None else
  match downsample (Some discharge) 80 with
  | None => None
  | Some ds =>
      let lastObsTs := match last (map Some ds) None with
                       | Some v => time v
                       | None => 0
                       end in
      let futureFcast := filter (fun d => lastObsTs <? time d) rawFcast in
      let obsCount := length ds in
      let fcastCount := length futureFcast in
      let qObsData := map (fun v => Some (value v)) ds ++ repeat None fcastCount in
      let qFcastData :=
        repeat None (obsCount - 1)
        ++ [match last (map Some ds) None with
            | Some v => Some (value v)
            | None => None
            end]
        ++ map (fun v => Some (value v)) futureFcast in
      let tData :=
        match alignTemps waterTemp ds with
        | Some aligned => Some (aligned ++ repeat None fcastCount)
        | None => None
        end in
      Some (mkHydrographData ds futureFcast qObsData qFcastData tData)
  end.

(** ** Weather: the point-forecast parser *)

(** The response: parallel arrays, one entry per forecast timestep. An absent
    array is [None]; an entry of a value array is [None] when it is [null]. *)
Record WindyRaw : Set := mkWindyRaw {
  raw_ts : option (list Z);
  raw_temp_surface : option (list (option JS.number));
  raw_past3hprecip_surface : option (list (option JS.number));
  raw_wind_u_surface : option (list (option JS.number));
  raw_wind_v_surface : option (list (option JS.number));
  raw_gust_surface : option (list (option JS.number));
  raw_rh_surface : option (list (option JS.number))
}.

Record Current : Set := mkCurrent {
  temp : JS.number;
  feelsLike : JS.number;
  windSpeed : JS.number;
  gust : JS.number;
  humidity : JS.number;
  precip3h : JS.number
}.

Record Day : Set := mkDay {
  label : string;
  high : JS.number;
  low : JS.number;
  precip : JS.number
}.

Record Weather : Set := mkWeather { current : Current; daily : list Day }.

(** [raw.x ?? []] *)
Definition orEmpty {A : Type} (a : option (list A)) : list A :=
  match a with Some l => l | None => [] end.

(** [arr[i] ?? dflt] *)
Definition at_or (arr : list (option JS.number)) (i : nat) (dflt : JS.number)
  : JS.number :=
  match nth_error arr i with
  | Some (Some x) => x
  | _ => dflt
  end.

Definition kToF (k : JS.number) : JS.number :=
  JS.add (JS.div (JS.mul (JS.sub k (JS.lit 27315 (-2))) (JS.of_Z 9)) (JS.of_Z 5))
         (JS.of_Z 32).

Definition mToIn (m : JS.number) : JS.number := JS.mul m (JS.lit 393701 (-4)).

Definition msToMph (ms : JS.number) : JS.number := JS.mul ms (JS.lit 223694 (-5)).

Definition speed (u v : option JS.number) : JS.number :=
  let u := match u with Some x => x | None => JS.of_Z 0 end in
  let v := match v with Some x => x | None => JS.of_Z 0 end in
  JS.Math_sqrt (JS.add (JS.mul u u) (JS.mul v v)).

(** [for (let i = 0; i < ts.length; i++) { if (ts[i] <= now) curIdx = i; }] *)
Fixpoint curIdx_loop (now : Z) (ts : list Z) (i curIdx : nat) : nat :=
  match ts with
  | [] => curIdx
  | t :: ts' => curIdx_loop now ts' (S i) (if t <=? now then i else curIdx)
  end.

(** The three-letter month names, [undefined] out of range. *)
Definition months : list string :=
  ["Jan"; "Feb"; "Mar"; "Apr"; "May"; "Jun";
   "Jul"; "Aug"; "Sep"; "Oct"; "Nov"; "Dec"]%string.

Fixpoint digits_of (fuel n : nat) (acc : string) : string :=
  match fuel with
  | O => acc
  | S fuel' =>
      let acc' := String (ascii_of_nat (48 + n mod 10)) acc in
      if (n / 10 =? 0)%nat then acc' else digits_of fuel' (n / 10) acc'
  end.

(** [Number(s)] for a field of a date key and its rendering in a template:
    a run of digits is its value, anything else is NaN. *)
Definition Number_field (s : option string) : option nat :=
  match s with
  | None => None
  | Some EmptyString => Some O
  | Some s =>
      let '(v, _, rest) := JS.span_digits s 0 0 in
      match rest with EmptyString => Some (Z.to_nat v) | _ => None end
  end.

(** [`${months[mo - 1]} ${dy}`] where [[, mo, dy] = key.split('-').map(Number)]. *)
Definition dayLabel (key : string) : string :=
  let parts := JS.split "-"%char key in
  let mo := Number_field (nth_error parts 1) in
  let dy := Number_field (nth_error parts 2) in
  let month :=
    match mo with
    | Some (S m) => match nth_error months m with
                    | Some name => name
                    | None => "undefined"%string
                    end
    | _ => "undefined"%string
    end in
  let day :=
    match dy, nth_error parts 2 with
    | Some d, _ => digits_of (S d) d EmptyString
    | None, Some _ => "NaN"%string
    | None, None => "undefined"%string
    end in
  (month ++ " " ++ day)%string.

(** The value of a [dayMap] entry. *)
Record DayAcc : Set := mkDayAcc {
  acc_label : string;
  temps : list JS.number;
  precips : list JS.number
}.

(** [dayMap]: a [Map], its entries in insertion order. *)
Definition DayMap : Set := list (string * DayAcc).

Fixpoint Map_has (m : DayMap) (key : string) : bool :=
  match m with
  | [] => false
  | (k, _) :: m' => if String.eqb k key then true else Map_has m' key
  end.

(** [m.set(key, v)] for a key the map does not hold: a new last entry. *)
Definition Map_set_new (m : DayMap) (key : string) (v : DayAcc) : DayMap :=
  m ++ [(key, v)].

(** [f] applied to the object [m.get(key)] refers to, in place. *)
Fixpoint Map_update (m : DayMap) (key : string) (f : DayAcc -> DayAcc) : DayMap :=
  match m with
  | [] => []
  | (k, v) :: m' =>
      if String.eqb k key then (k, f v) :: m' else (k, v) :: Map_update m' key f
  end.

Definition summarize (entry : string * DayAcc) : Day :=
  let v := snd entry in
  mkDay (acc_label v) (JS.Math_max (temps v)) (JS.Math_min (temps v))
        (fold_left (fun s p => JS.add s p) (precips v) (JS.of_Z 0)).

Section Windy.
(** [Math.pow] of the browser. *)
Variable Math_pow : JS.number -> JS.number -> JS.number.
(** [new Date(t).toLocaleDateString(locale, { timeZone })] of the browser. *)
Variable toLocaleDateString : Z -> string -> string -> string.

Definition windChill (t v : JS.number) : JS.number :=
  if JS.le t (JS.of_Z 50) && JS.ge v (JS.of_Z 3) then
    JS.add
      (JS.sub
         (JS.add (JS.lit 3574 (-2)) (JS.mul (JS.lit 6215 (-4)) t))
         (JS.mul (JS.lit 3575 (-2)) (Math_pow v (JS.lit 16 (-2)))))
      (JS.mul (JS.mul (JS.lit 4275 (-4)) t) (Math_pow v (JS.lit 16 (-2))))
  else t.

(** The [current] object, read at the timestep [curIdx]. *)
Definition currentAt (raw : WindyRaw) (curIdx : nat) : Current :=
  let tempK := orEmpty (raw_temp_surface raw) in
  let precM := orEmpty (raw_past3hprecip_surface raw) in
  let windU := orEmpty (raw_wind_u_surface raw) in
  let windV := orEmpty (raw_wind_v_surface raw) in
  let gustMs := orEmpty (raw_gust_surface raw) in
  let rh := orEmpty (raw_rh_surface raw) in
  let curTempF := kToF (at_or tempK curIdx (JS.lit 27315 (-2))) in
  let curWindMph :=
    msToMph (speed (match nth_error windU curIdx with Some x => x | None => None end)
                   (match nth_error windV curIdx with Some x => x | None => None end)) in
  let curGustMph := msToMph (at_or gustMs curIdx (JS.of_Z 0)) in
  let curRh := at_or rh curIdx (JS.of_Z 0) in
  let curPrec3h := mToIn (at_or precM curIdx (JS.of_Z 0)) in
  mkCurrent curTempF (windChill curTempF curWindMph) curWindMph curGustMph
            curRh curPrec3h.

(** The key of a timestep: its calendar date in Pacific time. *)
Definition dateKey (t : Z) : string :=
  toLocaleDateString t "en-CA"%string "America/Los_Angeles"%string.

(** The grouping loop, from timestep [i] on. *)
Fixpoint dayMap_loop (tempK precM : list (option JS.number))
         (ts : list Z) (i : nat) (dayMap : DayMap) : DayMap :=
  match ts with
  | [] => dayMap
  | t :: ts' =>
      let key := dateKey t in
      let dayMap :=
        if negb (Map_has dayMap key)
        then Map_set_new dayMap key (mkDayAcc (dayLabel key) [] [])
        else dayMap in
      let dayMap :=
        Map_update dayMap key
          (fun v => mkDayAcc (acc_label v)
                             (temps v ++ [kToF (at_or tempK i (JS.lit 27315 (-2)))])
                             (precips v)) in
      let dayMap :=
        Map_update dayMap key
          (fun v => mkDayAcc (acc_label v) (temps v)
                             (precips v ++ [mToIn (at_or precM i (JS.of_Z 0))])) in
      dayMap_loop tempK precM ts' (S i) dayMap
  end.

(** [parseWindyResponse] (lines 402-463). [now] is what [Date.now()] returns
    during the call. *)
Definition parseWindyResponse (now : Z) (raw : WindyRaw) : Weather :=
  let ts := orEmpty (raw_ts raw) in
  let tempK := orEmpty (raw_temp_surface raw) in
  let precM := orEmpty (raw_past3hprecip_surface raw) in
  let curIdx := curIdx_loop now ts 0 0 in
  let current := currentAt raw curIdx in
  let dayMap := dayMap_loop tempK precM ts 0 [] in
  let daily :=
    map summarize
        (firstn 7 (JS.sort (fun a b => JS.localeCompare (fst a) (fst b)) dayMap)) in
  mkWeather current daily.

End Windy.

(** ** Configuration and state *)

Record Station : Set := mkStation {
  id : string;
  name : string;
  shortName : string;
  usgsId : option string;
  usbrId : option string;
  nwrfcId : option string;
  nwsLid : option string;
  lat : JS.number;
  lng : JS.number;
  color : string
}.

Definition STATIONS : list Station :=
  [ mkStation "easton" "Yakima River at Easton" "Easton"
      None (Some "EASW") None (Some "EASW1")
      (JS.lit 472457 (-4)) (JS.neg (JS.lit 1211859 (-4))) "#7aa2f7";
    mkStation "cle_res" "Cle Elum Reservoir Outflow" "CLE Reservoir"
      None (Some "CLE") None (Some "CLEW1")
      (JS.lit 472318 (-4)) (JS.neg (JS.lit 1210604 (-4))) "#9d7cd8";
    mkStation "cle_elum" "Yakima River at Cle Elum" "Yakima @ Cle Elum"
      None (Some "YUMW") None (Some "YUMW1")
      (JS.lit 471954 (-4)) (JS.neg (JS.lit 1209363 (-4))) "#7dcfff";
    mkStation "teanaway" "Teanaway River at Forks" "Teanaway"
      None (Some "TNAW") None (Some "TNAW1")
      (JS.lit 472582 (-4)) (JS.neg (JS.lit 1208617 (-4))) "#9ece6a";
    mkStation "horlick" "Yakima River near Horlick" "Horlick"
      None (Some "YRWW") (Some "HLKW1") (Some "HLKW1")
      (JS.lit 470382 (-4)) (JS.neg (JS.lit 1207221 (-4))) "#e0af68";
    mkStation "umtanum" "Yakima River at Umtanum" "Umtanum"
      (Some "12484500") (Some "UMTW") None (Some "UMTW1")
      (JS.lit 468615 (-4)) (JS.neg (JS.lit 1204715 (-4))) "#f7768e" ]%string.

Record Location : Set := mkLocation {
  loc_name : string;
  loc_lat : JS.number;
  loc_lng : JS.number
}.

Definition WEATHER_LOCATIONS : list Location :=
  [ mkLocation "Cle Elum" (JS.lit 471954 (-4)) (JS.neg (JS.lit 1209363 (-4)));
    mkLocation "Thorp" (JS.lit 470615 (-4)) (JS.neg (JS.lit 1206793 (-4)));
    mkLocation "Ellensburg" (JS.lit 469965 (-4)) (JS.neg (JS.lit 1205478 (-4))) ]%string.

(** A station's entry of [state.stationData]: the series of the accepted
    provider (with the site name when the provider gives one), the forecast
    and the source tag. *)
Record StationReading : Set := mkStationReading {
  series : Series;
  siteName : option string;
  forecast : list Sample;
  source : option string
}.

(** [state], without the chart, map and marker handles. An object used as a
    map is the list of its entries in insertion order. *)
Record State : Set := mkState {
  currentDays : Z;
  isRefreshing : bool;
  lastRefresh : option Z;
  stationData : list (string * StationReading);
  weatherData : list (string * Weather)
}.

(** [obj[key] = v] *)
Fixpoint obj_set {V : Type} (obj : list (string * V)) (key : string) (v : V)
  : list (string * V) :=
  match obj with
  | [] => [(key, v)]
  | (k, x) :: obj' =>
      if String.eqb k key then (k, v) :: obj' else (k, x) :: obj_set obj' key v
  end.

(** [obj[key]] *)
Fixpoint obj_get {V : Type} (obj : list (string * V)) (key : string) : option V :=
  match obj with
  | [] => None
  | (k, x) :: obj' => if String.eqb k key then Some x else obj_get obj' key
  end.

(** ** The world outside the script *)

(** How an awaited call ends. *)
Inductive Outcome (A : Type) : Type :=
| Returned (a : A)
| Threw.
Arguments Returned {A} a.
Arguments Threw {A}.

(** What the browser and the network answer during one refresh cycle. A
    request that is aborted, fails or gets a non-success status throws. The
    USGS, forecast and weather answers are the parsed JSON; the USBR and
    NWRFC answers are the response text. *)
Record World : Type := mkWorld {
  now : Z;
  Date_parse : string -> option Z;
  toLocaleDateString : Z -> string -> string -> string;
  Math_pow : JS.number -> JS.number -> JS.number;
  fetchUSGS : string -> Z -> Outcome (Series * option string);
  usbr_text : string -> Z -> Outcome string;
  nwrfc_text : string -> Outcome string;
  fetchNWSForecast : string -> Outcome (list Sample);
  windy_json : JS.number -> JS.number -> Outcome WindyRaw;
  getElementById : string -> bool;
  updateMapMarkers_ok : bool
}.

Definition fetchUSBR (w : World) (stationId : string) (days : Z) : Outcome Series :=
  let hours := days * 24 in
  let stationLower := JS.toLowerCase stationId in
  match usbr_text w stationLower hours with
  | Returned text => Returned (parseUSBRCSV (Date_parse w) text stationLower)
  | Threw => Threw
  end.

Definition fetchNWRFCTemp (w : World) (lid : string) (days : Z) : Outcome (list Sample) :=
  match nwrfc_text w lid with
  | Returned text => Returned (parseNWRFCTempHTML (Date_parse w) (now w) text days)
  | Threw => Threw
  end.

Definition fetchWindy (w : World) (lat lng : JS.number) : Outcome Weather :=
  match windy_json w lat lng with
  | Returned raw =>
      Returned (parseWindyResponse (Math_pow w) (toLocaleDateString w) (now w) raw)
  | Threw => Threw
  end.

(** ** Station reconciliation (one of the [stationJobs] of [refresh],
    lines 1136-1184) *)

(** The job's two variables [result] and [source]: the accepted provider
    data (with the site name when the provider gives one) and its tag. *)
Definition Accepted : Set := option (Series * option string) * option string.

(** [if (station.usgsId) { try { ... } catch { } }] *)
Definition tryUSGS (w : World) (days : Z) (station : Station) (acc : Accepted)
  : Accepted :=
  match usgsId station with
  | Some usgs =>
      if JS.truthy usgs then
        match fetchUSGS w usgs days with
        | Returned d =>
            if (0 <? length (discharge (fst d)))%nat
            then (Some d, Some "USGS"%string)
            else acc
        | Threw => acc
        end
      else acc
  | None => acc
  end.

(** [if (!result && station.usbrId) { try { ... } catch { } }] *)
Definition tryUSBR (w : World) (days : Z) (station : Station) (acc : Accepted)
  : Accepted :=
  match fst acc, usbrId station with
  | None, Some usbr =>
      if JS.truthy usbr then
        match fetchUSBR w usbr days with
        | Returned d =>
            if (0 <? length (discharge d))%nat
            then (Some (d, None), Some "USBR"%string)
            else acc
        | Threw => acc
        end
      else acc
  | _, _ => acc
  end.

(** Supplement with NWRFC water temperature if available and not already
    present. *)
Definition supplementTemp (w : World) (days : Z) (station : Station) (acc : Accepted)
  : Accepted :=
  match fst acc, nwrfcId station with
  | Some (r, site), Some nwrfc =>
      if JS.truthy nwrfc && (length (waterTemp r) =? 0)%nat then
        match fetchNWRFCTemp w nwrfc days with
        | Returned twData =>
            if (0 <? length twData)%nat
            then (Some (mkSeries (discharge r) twData (gageHeight r), site), snd acc)
            else acc
        | Threw => acc
        end
      else acc
  | _, _ => acc
  end.

(** [forecast], fetched whatever the observed data are. *)
Definition stationForecast (w : World) (station : Station) : list Sample :=
  match nwsLid station with
  | Some lid =>
      if JS.truthy lid then
        match fetchNWSForecast w lid with
        | Returned f => f
        | Threw => []
        end
      else []
  | None => []
  end.

(** The reading the job stores in [state.stationData[station.id]]. *)
Definition stationJob (w : World) (days : Z) (station : Station) : StationReading :=
  let acc : Accepted := (None, None) in
  let acc := tryUSGS w days station acc in
  let acc := tryUSBR w days station acc in
  let acc := supplementTemp w days station acc in
  let forecast := stationForecast w station in
  match fst acc with
  | Some (r, site) => mkStationReading r site forecast (snd acc)
  | None => mkStationReading (mkSeries [] [] []) None forecast (snd acc)
  end.

(** ** The status indicator *)

(** [Object.values(state.stationData).filter(d => d.discharge.length > 0).length] *)
Definition loaded (st : State) : nat :=
  length (filter (fun e => (0 <? length (discharge (series (snd e))))%nat)
                 (stationData st)).

(** The level [refresh] reports once the jobs are settled (lines 1206-1213). *)
Definition refreshLevel (st : State) : string :=
  let loaded := loaded st in
  let total := length STATIONS in
  if (loaded =? 0)%nat then "error"%string
  else if (loaded <? total)%nat then "warn"%string
  else "ok"%string.

(** How a block of statements ends. *)
Inductive Completion : Set := Normal | Throw.

(** [setStatus(level, label)] (lines 1113-1118): how the call ends, and the
    level it gave the status dot. The class of the dot is written first, so
    the level is given whenever the dot exists; the call throws when the dot
    or the label is missing. *)
Definition setStatus (w : World) (level : string) : Completion * list string :=
  if getElementById w "status-dot" then
    if getElementById w "status-label" then (Normal, [level]) else (Throw, [level])
  else (Throw, []).

(** ** The order of events in a cycle *)

(** When things happen in one refresh cycle: the instant at which the job of
    a station (by its identifier) or of a weather location (by its name)
    settles, and whether the animation frame that a station's card requested
    has run when the cycle ends. *)
Record Schedule : Type := mkSchedule {
  settleTime : string -> Z;
  frameRan : string -> bool
}.

(** The jobs in the order in which they settle; jobs of one instant in the
    order of the configuration. *)
Definition settleOrder {A : Type} (sch : Schedule) (key : A -> string)
    (jobs : list A) : list A :=
  JS.sort (fun a b => settleTime sch (key a) - settleTime sch (key b)) jobs.

(** A reading after [createHydrograph] has been given it: the arrays
    [discharge] and [forecast] of the reading are sorted in place (lines 622
    and 624); the temperature is sorted in a copy. *)
Definition chartedReading (r : StationReading) : StationReading :=
  mkStationReading
    (mkSeries (JS.sort (fun a b => time a - time b) (discharge (series r)))
              (waterTemp (series r)) (gageHeight (series r)))
    (siteName r)
    (JS.sort (fun a b => time a - time b) (forecast r))
    (source r).

(** Whether the chart of a stored reading has been drawn when the cycle
    ends: [renderStationCard] (called at line 1183) found the card, the
    reading has a latest discharge, so that the card requested an animation
    frame (lines 1005-1008), the frame has run, and it found the canvas. *)
Definition chartDrawn (w : World) (sch : Schedule) (station : Station)
    (r : StationReading) : bool :=
  getElementById w ("card-" ++ id station)
  && match getLatestValue (Some (discharge (series r))) with
     | Some _ => true
     | None => false
     end
  && frameRan sch (id station)
  && getElementById w ("chart-" ++ id station).

(** The reading of a station as the cycle leaves it in
    [state.stationData]: the object the job stored, which the chart of its
    card has sorted or not. *)
Definition settledReading (w : World) (sch : Schedule) (days : Z)
    (station : Station) : StationReading :=
  let r := stationJob w days station in
  if chartDrawn w sch station r then chartedReading r else r.

(** ** The refresh cycle *)

(** The station and weather jobs, once all are settled. The jobs write to
    different keys of [state], so the order in which they settle shows only
    in the order of new entries. A job that rejects (its card cannot be
    rendered) has stored its reading before, and [Promise.allSettled] absorbs
    the rejection, as it does the alert job, which touches no state. *)
Definition runStationJobs (w : World) (sch : Schedule) (days : Z) (st : State)
  : State :=
  fold_left
    (fun st station =>
       mkState (currentDays st) (isRefreshing st) (lastRefresh st)
               (obj_set (stationData st) (id station)
                        (settledReading w sch days station))
               (weatherData st))
    (settleOrder sch id STATIONS) st.

Definition runWeatherJobs (w : World) (sch : Schedule) (st : State) : State :=
  fold_left
    (fun st loc =>
       match fetchWindy w (loc_lat loc) (loc_lng loc) with
       | Returned d =>
           mkState (currentDays st) (isRefreshing st) (lastRefresh st)
                   (stationData st) (obj_set (weatherData st) (loc_name loc) d)
       | Threw => st
       end)
    (settleOrder sch loc_name WEATHER_LOCATIONS) st.

(** How a call of [refresh], or a part of it, ends: its completion, the
    state it leaves, and the levels it gave the status indicator, in
    order. *)
Record Run : Set := mkRun {
  completion : Completion;
  state : State;
  levels : list string
}.

(** The [try] block. *)
Definition tryBlock (w : World) (sch : Schedule) (days : Z) (st : State) : Run :=
  let st := runStationJobs w sch days st in
  let st := runWeatherJobs w sch st in
  if updateMapMarkers_ok w then
    let st := mkState (currentDays st) (isRefreshing st) (Some (now w))
                      (stationData st) (weatherData st) in
    let '(c, given) := setStatus w (refreshLevel st) in
    mkRun c st given
  else mkRun Throw st [].

(** [try { ... } catch (err) { ... } finally { ... }] of [refresh], entered
    with the button found ([refreshBtn] is not [null]). *)
Definition guardedCycle (w : World) (sch : Schedule) (days : Z) (st : State)
  : Run :=
  let tried := tryBlock w sch days st in
  let '(c, given) :=
    match completion tried with
    | Normal => (Normal, levels tried)
    | Throw =>
        let '(c, given) := setStatus w "error" in
        (c, levels tried ++ given)
    end in
  let st := state tried in
  mkRun c
        (mkState (currentDays st) false (lastRefresh st)
                 (stationData st) (weatherData st))
        given.

(** [refresh] up to its [try] block (lines 1125-1132), whose jobs suspend
    it: either the call ends at once, or the cycle is in flight, and other
    code sees the state given here until the jobs are settled. *)
Definition refreshStart (w : World) (st : State) : Run + State * list string :=
  if isRefreshing st then inl (mkRun Normal st []) else
  let st := mkState (currentDays st) true (lastRefresh st)
                    (stationData st) (weatherData st) in
  let refreshBtn := getElementById w "refresh-btn" in
  if negb refreshBtn then inl (mkRun Throw st []) else
  match setStatus w "loading" with
  | (Throw, given) => inl (mkRun Throw st given)
  | (Normal, given) => inr (st, given)
  end.

(** [refresh()] (lines 1124-1222). *)
Definition refresh (w : World) (sch : Schedule) (st : State) : Run :=
  match refreshStart w st with
  | inl ended => ended
  | inr (st, given) =>
      let days := currentDays st in
      let cycle := guardedCycle w sch days st in
      mkRun (completion cycle) (state cycle) (given ++ levels cycle)
  end.

(** ** Weather: the condition shown for a point forecast *)

(** The symbol of a condition, as the UTF-16 code units of the source's
    string literal, and its description. *)
Record Condition : Set := mkCondition {
  emoji : list Z;
  desc : string
}.

(** [windyCondition] (lines 466-475): derive a simple condition from temp +
    precip + RH. *)
Definition windyCondition (tempF precip3hIn rhPct : JS.number) : Condition :=
  if JS.gt precip3hIn (JS.lit 1 (-2)) then
    if JS.le tempF (JS.of_Z 32) then mkCondition [0x2744] "Snow"
    else if JS.le tempF (JS.of_Z 36) then mkCondition [0xd83c; 0xdf28] "Wintry mix"
    else mkCondition [0xd83c; 0xdf27] "Rain"
  else if JS.gt rhPct (JS.of_Z 88) then mkCondition [0x2601] "Overcast"
  else if JS.gt rhPct (JS.of_Z 68) then mkCondition [0x26c5] "Partly cloudy"
  else mkCondition [0x2600] "Clear".

(** ** The minute tick *)

(** The level the minute tick reports (lines 1294-1302); [None] when it
    leaves the indicator alone. *)
Definition tickLevel (st : State) : option string :=
  match lastRefresh st with
  | Some _ =>
      if negb (isRefreshing st) then
        let loaded := loaded st in
        Some (if (loaded <? length STATIONS)%nat then "warn"%string else "ok"%string)
      else None
  | None => None
  end.

(** ** Station cards *)

(** What [renderStationCard] (lines 926-1009) puts on a card that exists:
    the no-data card, or the badge, the latest discharge with its trend, the
    latest temperature and stage, and the provider the footer names. *)
Inductive StationCard : Set :=
| NoDataCard
| DataCard (badgeCls badgeTxt : string) (latestQ : Sample) (trend : Trend)
           (latestT latestH : option Sample) (footer : string).

Definition renderStationCard (station : Station) (data : StationReading)
  : StationCard :=
  let discharge := discharge (series data) in
  let waterTemp := waterTemp (series data) in
  let gageHeight := gageHeight (series data) in
  let source := source data in
  let latestQ := getLatestValue (Some discharge) in
  let latestT := getLatestValue (Some waterTemp) in
  let latestH := getLatestValue (Some gageHeight) in
  let trend := getTrend (Some discharge) 24 in
  let badgeCls :=
    match source with
    | Some s => if String.eqb s "USGS" then "usgs"%string
                else if String.eqb s "USBR" then "usbr"%string
                else "no-data"%string
    | None => "no-data"%string
    end in
  let badgeTxt := match source with Some s => s | None => "No Data"%string end in
  match latestQ with
  | None => NoDataCard
  | Some q =>
      let nbsp := String (ascii_of_nat 160) EmptyString in
      let usbr := ("USBR" ++ nbsp
                   ++ match usbrId station with Some u => u | None => "null" end)%string in
      DataCard badgeCls badgeTxt q trend latestT latestH
               (match usgsId station with
                | Some u => if JS.truthy u then ("USGS" ++ nbsp ++ u)%string else usbr
                | None => usbr
                end)
  end.

(** ** The time-range buttons *)

(** The click handler of a range button (lines 1267-1278), for a button whose
    [data-days] is the integer [days]: the period is set at once; when no
    refresh is in flight the charts are destroyed, the skeletons are rendered
    (which throws on a page without the station grid) and the refresh is
    started. The completion is that of the handler, or of the refresh it
    started. *)
Definition rangeClick (w : World) (sch : Schedule) (days : Z) (st : State) : Run :=
  let st := mkState days (isRefreshing st) (lastRefresh st)
                    (stationData st) (weatherData st) in
  if negb (isRefreshing st) then
    if getElementById w "stations-grid" then refresh w sch st else mkRun Throw st []
  else mkRun Normal st [].

(** ** Map popups *)

(** What [makePopupHTML] (lines 576-589) shows under the station's name: the
    latest discharge and the latest water temperature, or [Loading...] when
    there is neither. *)
Inductive Popup : Set :=
| PopupLoading
| PopupMetrics (q t : option Sample).

Definition makePopupHTML (data : StationReading) : Popup :=
  let q := getLatestValue (Some (discharge (series data))) in
  let t := getLatestValue (Some (waterTemp (series data))) in
  match q, t with
  | None, None => PopupLoading
  | _, _ => PopupMetrics q t
  end.

End App.

(* ===================================================================== *)
(** * [src/unnamed/part_000]                                              *)
(* ===================================================================== *)

(** The earlier revision of the dashboard script: its USBR parser. The
    samples and series have the shape of [App.Sample] and [App.Series]. *)
Module Part000.

Section Parsers.
Variable Date_parse : string -> option Z.

(** The body of the [for] loop (part_000, lines 291-306). *)
Definition parseUSBRRow (qIdx twIdx : Z) (out : App.Series) (line : string)
  : App.Series :=
  let cols := JS.split "," line in
  if (length cols <? 2)%nat then out else
  match Date_parse (JS.trim (nth 0 cols EmptyString)) with
  | None => out
  | Some dt =>
      let out :=
        if 0 <=? qIdx then
          let val := match JS.index cols qIdx with
                     | Some c => JS.parseFloat c
                     | None => JS.NaN
                     end in
          if negb (JS.isNaN val) && JS.ge val (JS.of_Z 0)
          then App.mkSeries (App.discharge out ++ [App.mkSample dt val])
                            (App.waterTemp out) (App.gageHeight out)
          else out
        else out in
      if 0 <=? twIdx then
        let valC := match JS.index cols twIdx with
                    | Some c => JS.parseFloat c
                    | None => JS.NaN
                    end in
        if negb (JS.isNaN valC)
        then App.mkSeries
               (App.discharge out)
               (App.waterTemp out
                ++ [App.mkSample dt
                      (JS.add (JS.div (JS.mul valC (JS.of_Z 9)) (JS.of_Z 5))
                              (JS.of_Z 32))])
               (App.gageHeight out)
        else out
      else out
  end.

(** [parseUSBRCSV] (part_000, lines 277-309). *)
Definition parseUSBRCSV (text stationLower : string) : App.Series :=
  let out := App.mkSeries [] [] [] in
  let lines := filter JS.truthy (map JS.trim (JS.split (ascii_of_nat 10) text)) in
  if (length lines <? 2)%nat then out else
  let headerIdx :=
    JS.findIndex (fun l => JS.startsWith (JS.toLowerCase l) "datetime") lines in
  if headerIdx <? 0 then out else
  match JS.index lines headerIdx with
  | None => out
  | Some header =>
      let headers := map (fun h => JS.toLowerCase (JS.trim h)) (JS.split "," header) in
      let qIdx :=
        JS.findIndex
          (fun h => String.eqb h (stationLower ++ "_q") || JS.endsWith h "_q")
          headers in
      let twIdx :=
        JS.findIndex
          (fun h => String.eqb h (stationLower ++ "_tw") || JS.endsWith h "_tw")
          headers in
      fold_left (parseUSBRRow qIdx twIdx)
                (skipn (Z.to_nat (headerIdx + 1)) lines) out
  end.

End Parsers.

End Part000.

(* ===================================================================== *)
(** * The survey's response ([parseUSGSJSON], src/app.js lines 215-229)   *)
(* ===================================================================== *)

Module USGS.

(** An entry of a [values[0].value] array, an object: its members [value]
    and [dateTime], strings, [None] when absent. *)
Record Reading : Set := mkReading {
  raw_value : option string;
  raw_dateTime : option string
}.

(** An entry of [json.value.timeSeries], as the parser reads it through
    optional chaining: [ts?.variable?.variableCode?.[0]?.value],
    [ts?.sourceInfo?.siteName] and [ts?.values?.[0]?.value], each [None] when
    the chain meets a missing member (all three for an entry that is
    [null]). *)
Record TimeSeries : Set := mkTimeSeries {
  variableCode : option string;
  sourceInfo_siteName : option string;
  values : option (list Reading)
}.

(** A sample: [time] is [None] for an invalid date. *)
Record Sample : Set := mkSample {
  time : option Z;
  value : JS.number
}.

Record Parsed : Set := mkParsed {
  discharge : list Sample;
  waterTemp : list Sample;
  gageHeight : list Sample;
  siteName : option string
}.

Section Parser.
(** [new Date(text).getTime()] of the browser: [None] is an invalid date. *)
Variable Date_parse : string -> option Z.

(** [v.value && v.value !== '-999999'] *)
Definition reported (v : Reading) : bool :=
  match raw_value v with
  | Some s => JS.truthy s && negb (String.eqb s "-999999")
  | None => false
  end.

(** [{ time: new Date(v.dateTime), value: parseFloat(v.value) }] *)
Definition sample_of (v : Reading) : Sample :=
  mkSample (match raw_dateTime v with
            | Some s => Date_parse s
            | None => None
            end)
           (match raw_value v with
            | Some s => JS.parseFloat s
            | None => JS.NaN
            end).

(** [vals] of one time series. *)
Definition vals (ts : TimeSeries) : list Sample :=
  filter (fun v => negb (JS.isNaN (value v)))
         (map sample_of (filter reported (App.orEmpty (values ts)))).

(** [{ ...v, value: v.value * 9 / 5 + 32 }] *)
Definition toFahrenheit (v : Sample) : Sample :=
  mkSample (time v)
           (JS.add (JS.div (JS.mul (value v) (JS.of_Z 9)) (JS.of_Z 5)) (JS.of_Z 32)).

(** The body of the [for] loop. *)
Definition parseTimeSeries (out : Parsed) (ts : TimeSeries) : Parsed :=
  let out :=
    if match siteName out with
       | Some s => negb (JS.truthy s)
       | None => true
       end
    then mkParsed (discharge out) (waterTemp out) (gageHeight out)
                  (sourceInfo_siteName ts)
    else out in
  match variableCode ts with
  | Some code =>
      if String.eqb code "00060" then
        mkParsed (vals ts) (waterTemp out) (gageHeight out) (siteName out)
      else if String.eqb code "00010" then
        mkParsed (discharge out) (map toFahrenheit (vals ts)) (gageHeight out)
                 (siteName out)
      else if String.eqb code "00065" then
        mkParsed (discharge out) (waterTemp out) (vals ts) (siteName out)
      else out
  | None => out
  end.

(** [parseUSGSJSON]: [timeSeries] is [json?.value?.timeSeries]. *)
Definition parseUSGSJSON (timeSeries : option (list TimeSeries)) : Parsed :=
  fold_left parseTimeSeries (App.orEmpty timeSeries) (mkParsed [] [] [] None).
End Parser.

End USGS.

(* ===================================================================== *)
(** * Weather-service alerts ([fetchNWSAlerts], src/app.js lines 481-500,  *)
(** * and [renderAlerts], lines 1101-1111)                                 *)
(* ===================================================================== *)

Module NWS.

(** [s.includes(p)] *)
Fixpoint includes (s p : string) : bool :=
  String.prefix p s
  || match s with
     | EmptyString => false
     | String _ s' => includes s' p
     end.

(** The [properties] of a feature of the response: strings, [None] when
    absent. *)
Record Properties : Set := mkProperties {
  event : option string;
  areaDesc : option string;
  headline : option string
}.

(** A feature, an object; its [properties] may be absent. *)
Record Feature : Set := mkFeature {
  properties : option Properties
}.

(** An alert as the page keeps it: the values of [f.properties.event] and of
    [f.properties.headline ?? f.properties.event], [None] for [undefined]. *)
Record Alert : Set := mkAlert {
  alert_event : option string;
  alert_headline : option string
}.

(** [(x ?? '').toLowerCase()] *)
Definition lowered (x : option string) : string :=
  JS.toLowerCase (match x with Some t => t | None => EmptyString end).

(** The filter: a flood or hydrologic event in one of three counties. *)
Definition relevant (f : Feature) : bool :=
  let event := lowered (match properties f with Some p => event p | None => None end) in
  let area := lowered (match properties f with Some p => areaDesc p | None => None end) in
  (includes event "flood" || includes event "hydrologic")
  && (includes area "yakima" || includes area "kittitas" || includes area "chelan").

(** The mapping of one feature; [None] is the [TypeError] of reading a member
    of [undefined]. *)
Definition toAlert (f : Feature) : option Alert :=
  match properties f with
  | Some p =>
      Some (mkAlert (event p)
                    (match headline p with
                     | Some h => Some h
                     | None => event p
                     end))
  | None => None
  end.

(** [xs.map(f)] for a function that can throw: the first throw ends it. *)
Fixpoint map_or_throw {A B : Type} (f : A -> option B) (xs : list A)
  : option (list B) :=
  match xs with
  | [] => Some []
  | x :: xs' =>
      match f x with
      | Some y =>
          match map_or_throw f xs' with
          | Some ys => Some (y :: ys)
          | None => None
          end
      | None => None
      end
  end.

(** What [fetchNWSAlerts] returns on a successful response whose
    [json?.features] is [features]: a throw inside the [try] is caught and
    gives no alert. *)
Definition alertsOf (features : option (list Feature)) : list Alert :=
  match map_or_throw toAlert (filter relevant (App.orEmpty features)) with
  | Some alerts => alerts
  | None => []
  end.

(** [renderAlerts] on a page that has the pill: [None] when the pill is
    hidden, else its text and the lines of its title. *)
Definition renderAlerts (alerts : list Alert)
  : option (option string * list (option string)) :=
  match alerts with
  | [] => None
  | first :: _ => Some (alert_event first, map alert_headline alerts)
  end.

End NWS.

(* ===================================================================== *)
(** * Vocabulary of the specification                                     *)
(* ===================================================================== *)

(** [subseq r s]: [r] is [s] with some elements removed, the others in order. *)
Inductive subseq {A : Type} : list A -> list A -> Prop :=
| subseq_nil : subseq [] []
| subseq_skip : forall x r s, subseq r s -> subseq r (x :: s)
| subseq_keep : forall x r s, subseq r s -> subseq (x :: r) (x :: s).

(** The reference sample of the trend as the specification words it: the
    most recent sample at or before [now - 24h], [now] being the wall clock. *)
Definition reference_before_now (now : Z) (vs : list App.Sample) (p : App.Sample) : Prop :=
  In p vs /\ App.time p <= now - 24 * 3600000 /\
  forall v, In v vs -> App.time v <= now - 24 * 3600000 -> App.time v <= App.time p.

(** The quantities of a forecast response, in the specification's terms. An
    array the response lacks holds nothing; the number an array holds for
    timestep [i] is its entry there, and [dflt] where it has none (the array
    is shorter, or the entry is [null]). *)
Definition entries {A : Type} (arr : option (list A)) : list A :=
  match arr with
  | Some l => l
  | None => []
  end.

Definition held_at (arr : list (option JS.number)) (i : nat) (dflt : JS.number)
  : JS.number :=
  match nth_error arr i with
  | Some (Some x) => x
  | Some None | None => dflt
  end.

(** Kelvins in degrees Fahrenheit, [(k - 273.15) * 9 / 5 + 32], and metres
    in inches, [m * 39.3701]; in binary64, operation by operation. *)
Definition fahrenheit_of_kelvin (k : JS.number) : JS.number :=
  JS.add (JS.div (JS.mul (JS.sub k (JS.lit 27315 (-2))) (JS.of_Z 9)) (JS.of_Z 5))
         (JS.of_Z 32).

Definition inches_of_metres (m : JS.number) : JS.number :=
  JS.mul m (JS.lit 393701 (-4)).

(** The wind-chill temperature of the US weather service for [t] degrees
    Fahrenheit and [v] miles per hour,
    [35.74 + 0.6215 t - 35.75 v^0.16 + 0.4275 t v^0.16], where it applies
    ([t <= 50] and [v >= 3]); [t] itself elsewhere. *)
Definition wind_chill (pow : JS.number -> JS.number -> JS.number)
           (t v : JS.number) : JS.number :=
  if JS.le t (JS.of_Z 50) && JS.ge v (JS.of_Z 3) then
    JS.add
      (JS.sub (JS.add (JS.lit 3574 (-2)) (JS.mul (JS.lit 6215 (-4)) t))
              (JS.mul (JS.lit 3575 (-2)) (pow v (JS.lit 16 (-2)))))
      (JS.mul (JS.mul (JS.lit 4275 (-4)) t) (pow v (JS.lit 16 (-2))))
  else t.

(** The forecast timesteps by calendar day, in the specification's terms. *)
Section DailyVocabulary.
Variable dateKey : Z -> string.
Variables tempK precM : list (option JS.number).

(** The timesteps [ts], each with its index, the first index being [i]. *)
Definition timesteps (ts : list Z) (i : nat) : list (nat * Z) :=
  combine (seq i (length ts)) ts.

(** The timesteps whose calendar date is [day]. *)
Definition on_day (day : string) (steps : list (nat * Z)) : list (nat * Z) :=
  filter (fun it => String.eqb (dateKey (snd it)) day) steps.

(** The temperatures, in degrees Fahrenheit, and the precipitations, in
    inches, of the timesteps of [day]: a timestep without a temperature
    counts as 273.15 K, one without a precipitation as 0 m. *)
Definition day_temps (day : string) (steps : list (nat * Z)) : list JS.number :=
  map (fun it => fahrenheit_of_kelvin (held_at tempK (fst it) (JS.lit 27315 (-2))))
      (on_day day steps).

Definition day_precips (day : string) (steps : list (nat * Z)) : list JS.number :=
  map (fun it => inches_of_metres (held_at precM (fst it) (JS.of_Z 0)))
      (on_day day steps).

Definition day_acc (steps : list (nat * Z)) (day : string) : App.DayAcc :=
  App.mkDayAcc (App.dayLabel day) (day_temps day steps) (day_precips day steps).

Definition day_entry (steps : list (nat * Z)) (day : string) : string * App.DayAcc :=
  (day, day_acc steps day).

(** The distinct elements of [keys], each at its first occurrence. *)
Fixpoint first_occurrences (keys : list string) : list string :=
  match keys with
  | [] => []
  | k :: l => k :: filter (fun d => negb (String.eqb d k)) (first_occurrences l)
  end.

Definition step_keys (steps : list (nat * Z)) : list string :=
  map (fun it => dateKey (snd it)) steps.

(** The days of [steps] in order of first appearance, each with its values. *)
Definition grouped (steps : list (nat * Z)) : list (string * App.DayAcc) :=
  map (day_entry steps) (first_occurrences (step_keys steps)).

(** The entry of the daily output for [day]. *)
Definition day_summary (steps : list (nat * Z)) (day : string) : App.Day :=
  App.mkDay (App.dayLabel day)
            (JS.Math_max (day_temps day steps))
            (JS.Math_min (day_temps day steps))
            (fold_left (fun s p => JS.add s p) (day_precips day steps) (JS.of_Z 0)).
End DailyVocabulary.

(** A browser to run the parsers in: its clock zone is 8 hours behind UTC
    all year, [new Date] reads [YYYY-MM-DD HH:MM] as local time and
    [toLocaleDateString] prints the local date as [YYYY-MM-DD], whatever
    locale and zone are asked for. *)
Module Browser.

Definition days_from_civil (y m d : Z) : Z :=
  let y := if m <=? 2 then y - 1 else y in
  let era := y / 400 in
  let yoe := y - era * 400 in
  let doy := (153 * (if 2 <? m then m - 3 else m + 9) + 2) / 5 + d - 1 in
  let doe := yoe * 365 + yoe / 4 - yoe / 100 + doy in
  era * 146097 + doe - 719468.

Definition civil_from_days (z : Z) : Z * Z * Z :=
  let z := z + 719468 in
  let era := z / 146097 in
  let doe := z - era * 146097 in
  let yoe := (doe - doe / 1460 + doe / 36524 - doe / 146096) / 365 in
  let doy := doe - (365 * yoe + yoe / 4 - yoe / 100) in
  let mp := (5 * doy + 2) / 153 in
  let d := doy - (153 * mp + 2) / 5 + 1 in
  let m := if mp <? 10 then mp + 3 else mp - 9 in
  ((yoe + era * 400 + (if m <=? 2 then 1 else 0)), m, d).

Definition zone_offset : Z := 8 * 3600000.

Definition number_of (s : string) : Z :=
  let '(v, _, _) := JS.span_digits s 0 0 in v.

Definition Date_parse (text : string) : option Z :=
  match App.match_timestamp text with
  | Some (_, EmptyString) =>
      let y := number_of (String.substring 0 4 text) in
      let mo := number_of (String.substring 5 2 text) in
      let d := number_of (String.substring 8 2 text) in
      let h := number_of (String.substring 11 2 text) in
      let mi := number_of (String.substring 14 2 text) in
      if (1 <=? mo) && (mo <=? 12) && (1 <=? d) && (d <=? 31)
         && (h <=? 23) && (mi <=? 59)
      then Some (days_from_civil y mo d * 86400000 + h * 3600000 + mi * 60000
                 + zone_offset)
      else None
  | _ => None
  end.

Definition two_digits (n : Z) : string :=
  let s := App.digits_of 2 (Z.to_nat n) EmptyString in
  if n <? 10 then String "0" s else s.

Definition toLocaleDateString (t : Z) (locale timeZone : string) : string :=
  let '(y, m, d) := civil_from_days ((t - zone_offset) / 86400000) in
  (App.digits_of 4 (Z.to_nat y) EmptyString ++ "-" ++ two_digits m ++ "-"
   ++ two_digits d)%string.

(** A cycle in which only the USBR answers, with the example response, and
    the page has all its elements. *)
Definition world : App.World :=
  App.mkWorld
    1771500000000 Date_parse toLocaleDateString (fun x _ => x)
    (fun _ _ => App.Threw)
    (fun station _ =>
       if String.eqb station "easw"
       then App.Returned
              ("DateTime,easw_q,easw_tw"
               ++ String (ascii_of_nat 10) "2026-02-18 17:30,326.57,41.0")%string
       else App.Threw)
    (fun _ => App.Threw)
    (fun _ => App.Threw)
    (fun _ _ => App.Threw)
    (fun _ => true)
    true.

(** The state of the page before its first refresh. *)
Definition idle : App.State := App.mkState 7 false None [] [].

(** A forecast of five timesteps around 2026-02-18 17:30 local time, three
    hours apart after the first; the third temperature is missing. *)
Definition forecast_start : Z := 1771464600000.

Definition forecast : App.WindyRaw :=
  App.mkWindyRaw
    (Some [forecast_start - 24 * 3600000; forecast_start;
           forecast_start + 3 * 3600000; forecast_start + 6 * 3600000;
           forecast_start + 9 * 3600000])
    (Some [Some (JS.lit 29315 (-2)); Some (JS.lit 27315 (-2));
           Some (JS.lit 28315 (-2)); None; Some (JS.lit 26315 (-2))])
    (Some [None; Some (JS.lit 1 (-3)); Some (JS.lit 2 (-3))])
    None None None None.

End Browser.

(** The response the specification gives as an example: the header line
    and one row. *)
Definition usbr_example_text : string :=
  ("DateTime,easw_q,easw_tw" ++ String (ascii_of_nat 10) "2026-02-18 17:30,326.57,41.0")%string.

(** A number with a clear sign bit that is not NaN: +0, a positive finite
    value or +Infinity. *)
Definition plus_signed (x : JS.number) : Prop :=
  match x with
  | S754_zero false | S754_infinity false | S754_finite false _ _ => True
  | _ => False
  end.

(** A table row as the forecast center prints it: a timestamp cell and a
    value cell. *)
Definition nwrfc_row (timestamp val : string) : string :=
  ("<tr><td align=" ++ String JS.dquote ("right" ++ String JS.dquote ">")
   ++ timestamp ++ App.cell_boundary ++ val ++ "</td></tr>")%string.

(** The primary provider gives the station no discharge: the station has no
    USGS identifier, or the fetch throws, or its discharge series is empty. *)
Definition primary_gives_nothing (w : App.World) (days : Z) (station : App.Station)
  : Prop :=
  match App.usgsId station with
  | Some usgs =>
      JS.truthy usgs = true ->
      match App.fetchUSGS w usgs days with
      | App.Returned d => App.discharge (fst d) = []
      | App.Threw => True
      end
  | None => True
  end.

(** The page has the elements [refresh] touches before its [try] block. *)
Definition page_has_controls (w : App.World) : Prop :=
  App.getElementById w "refresh-btn" = true /\
  App.getElementById w "status-dot" = true /\
  App.getElementById w "status-label" = true.

(** The classification [getTrend] makes of a latest and a reference value. *)
Definition trend_of (latest past : JS.number) : App.Trend :=
  if JS.strict_eq past JS.zero then App.stable
  else
    let pct := JS.div (JS.sub latest past) past in
    if JS.gt pct (JS.of_decimal false 10 (-2)) then App.rising
    else if JS.lt pct (JS.neg (JS.of_decimal false 10 (-2))) then App.falling
    else App.stable.

(** What one match of the pattern contributes to the result. *)
Definition nwrfc_sample (Date_parse : string -> option Z) (cutoff : option Z)
    (m : string * string) : list App.Sample :=
  match Date_parse (fst m), cutoff with
  | Some dt, Some cutoff =>
      if (cutoff <=? dt) && negb (JS.isNaN (JS.parseFloat (snd m)))
      then [App.mkSample dt (JS.parseFloat (snd m))]
      else []
  | _, _ => []
  end.

(** What every row keeps true of the series under construction, [n] rows
    into the loop. *)
Definition usbr_rows_invariant (n : nat) (out : App.Series) : Prop :=
  App.gageHeight out = [] /\
  Forall (fun s => JS.isNaN (App.value s) = false) (App.discharge out) /\
  Forall (fun s => JS.isNaN (App.value s) = false) (App.waterTemp out) /\
  (length (App.discharge out) <= n)%nat /\
  (length (App.waterTemp out) <= n)%nat.

(** [arr[i]] is [undefined] or [null]: the entry the [??] operator replaces
    by its default. *)
Definition missing (arr : list (option JS.number)) (i : nat) : Prop :=
  match nth_error arr i with
  | Some (Some _) => False
  | _ => True
  end.

(** The world [w] with another answer of the reservoir agency. *)
Definition with_usbr (w : App.World) (usbr : string -> Z -> App.Outcome string)
  : App.World :=
  App.mkWorld (App.now w) (App.Date_parse w) (App.toLocaleDateString w)
              (App.Math_pow w) (App.fetchUSGS w) usbr (App.nwrfc_text w)
              (App.fetchNWSForecast w) (App.windy_json w) (App.getElementById w)
              (App.updateMapMarkers_ok w).

(** The world of [Browser.world] in which the survey gives every gauge one
    discharge sample and the name of its site. *)
Definition gauged_world : App.World :=
  App.mkWorld
    (App.now Browser.world) (App.Date_parse Browser.world)
    (App.toLocaleDateString Browser.world) (App.Math_pow Browser.world)
    (fun _ _ =>
       App.Returned
         (App.mkSeries [App.mkSample 1771464600000 (JS.of_Z 1200)] [] [],
          Some "YAKIMA RIVER AT UMTANUM, WA"%string))
    (App.usbr_text Browser.world) (App.nwrfc_text Browser.world)
    (App.fetchNWSForecast Browser.world) (App.windy_json Browser.world)
    (App.getElementById Browser.world) (App.updateMapMarkers_ok Browser.world).

(** The gauge at Umtanum, the one station with a survey identifier. *)
Definition umtanum : App.Station := nth 5 App.STATIONS (nth 0 App.STATIONS
  (App.mkStation EmptyString EmptyString EmptyString None None None None
                 JS.zero JS.zero EmptyString)).

(** The temperature the forecast center has for a station: nothing without
    an identifier or when the request fails. *)
Definition nwrfc_temperature (w : App.World) (days : Z) (station : App.Station)
  : list App.Sample :=
  match App.nwrfcId station with
  | Some nwrfc =>
      if JS.truthy nwrfc then
        match App.fetchNWRFCTemp w nwrfc days with
        | App.Returned tw => tw
        | App.Threw => []
        end
      else []
  | None => []
  end.

(** Each job writes its result, when it has one, under its own key. *)
Definition store_all {K V : Type} (key_of : K -> string) (job : K -> option V)
    (keys : list K) (data : list (string * V)) : list (string * V) :=
  fold_left
    (fun data k =>
       match job k with
       | Some v => App.obj_set data (key_of k) v
       | None => data
       end)
    keys data.

(** The keys of [state.stationData] are identifiers of configured stations,
    each at most once: so it is at page load and after every cycle. *)
Definition station_keys_only (data : list (string * App.StationReading)) : Prop :=
  NoDup (map fst data) /\
  forall key, In key (map fst data) -> In key (map App.id App.STATIONS).




(** The world of [Browser.world] in which the reservoir agency answers for
    every station with the documented response. *)
Definition reservoir_world : App.World :=
  with_usbr Browser.world (fun _ _ => App.Returned usbr_example_text).

(** A text without a hyphen, as the year of a date key. *)
Fixpoint no_hyphen (s : string) : bool :=
  match s with
  | EmptyString => true
  | String c s' => negb (Ascii.eqb c "-") && no_hyphen s'
  end.

(** The date key [YYYY-MM-DD] of a month and a day, as the [en-CA] locale
    prints it. *)
Definition date_key (year : string) (month day : nat) : string :=
  (year ++ "-" ++ Browser.two_digits (Z.of_nat month) ++ "-"
   ++ Browser.two_digits (Z.of_nat day))%string.

(** [part] occurs in [text]. *)
Definition occurs_in (part text : string) : Prop :=
  exists before after, text = (before ++ part ++ after)%string.

(** Samples in ascending order of time, samples of one time in the order
    they had: what the in-place sort of [createHydrograph] leaves of an
    array. *)
Definition by_time (l : list App.Sample) : list App.Sample :=
  JS.sort (fun a b => App.time a - App.time b) l.

(** The chart of a station's reading [r] has been drawn when the cycle ends:
    the page has the station's card, the reading has discharge, the
    animation frame of the card has run and the page has the canvas of the
    card. *)
Definition chart_drawn (w : App.World) (sch : App.Schedule) (station : App.Station)
    (r : App.StationReading) : bool :=
  App.getElementById w ("card-" ++ App.id station)
  && negb (length (App.discharge (App.series r)) =? 0)%nat
  && App.frameRan sch (App.id station)
  && App.getElementById w ("chart-" ++ App.id station).

(** What the cycle leaves of the reading [r] that a station's job stored:
    the reading itself, its discharge and its forecast sorted by time when its
    chart has been drawn. *)
Definition reading_left (w : App.World) (sch : App.Schedule) (station : App.Station)
    (r : App.StationReading) : App.StationReading :=
  if chart_drawn w sch station r then
    App.mkStationReading
      (App.mkSeries (by_time (App.discharge (App.series r)))
                    (App.waterTemp (App.series r)) (App.gageHeight (App.series r)))
      (App.siteName r) (by_time (App.forecast r)) (App.source r)
  else r.

(** The parsed answer of a weather location, when its fetch succeeds. *)
Definition weather_answer (w : App.World) (loc : App.Location) : option App.Weather :=
  match App.fetchWindy w (App.loc_lat loc) (App.loc_lng loc) with
  | App.Returned d => Some d
  | App.Threw => None
  end.

(** [state.stationData] and [state.weatherData] once the jobs of a cycle are
    settled. *)
Definition stored_stations (w : App.World) (sch : App.Schedule) (days : Z)
    (data : list (string * App.StationReading)) : list (string * App.StationReading) :=
  store_all App.id (fun s => Some (App.settledReading w sch days s))
            (App.settleOrder sch App.id App.STATIONS) data.

Definition stored_weather (w : App.World) (sch : App.Schedule)
    (data : list (string * App.Weather)) : list (string * App.Weather) :=
  store_all App.loc_name (weather_answer w)
            (App.settleOrder sch App.loc_name App.WEATHER_LOCATIONS) data.

(** A cycle in which all jobs settle at one instant and every animation
    frame has run when it ends. *)
Definition all_at_once : App.Schedule :=
  App.mkSchedule (fun _ => 0) (fun _ => true).

(** A cycle in which the job of the first station settles after all the
    others and no animation frame has run when it ends. *)
Definition easton_last : App.Schedule :=
  App.mkSchedule (fun key => if String.eqb key "easton" then 1 else 0)
                 (fun _ => false).

(** The world of [Browser.world] in which the reservoir agency answers for
    every station with two rows, the later one first. *)
Definition unordered_world : App.World :=
  with_usbr Browser.world
    (fun _ _ =>
       App.Returned
         ("DateTime,easw_q" ++ String (ascii_of_nat 10) "2026-02-18 17:30,326.57"
          ++ String (ascii_of_nat 10) "2026-02-18 17:15,300")%string).

(** A reservoir agency response, in the specification's terms: its lines
    (trimmed, blank ones dropped); its header line, which starts with
    [datetime] in any case; the column of a series, the first header cell
    (trimmed, in lower case) that is the station's own or ends in the
    suffix, -1 when there is none. *)
Definition usbr_lines (text : string) : list string :=
  filter JS.truthy (map JS.trim (JS.split (ascii_of_nat 10) text)).

Definition header_line (l : string) : bool :=
  JS.startsWith (JS.toLowerCase l) "datetime".

Definition usbr_column (station suffix header : string) : Z :=
  JS.findIndex
    (fun h => String.eqb h (station ++ suffix) || JS.endsWith h suffix)
    (map (fun h => JS.toLowerCase (JS.trim h)) (JS.split "," header)).

(** A row: the time the browser reads in its first cell (none for a row of
    fewer than two cells or of an unreadable date), and the number
    [parseFloat] reads in the cell of a column (NaN without that cell). *)
Definition row_time (Date_parse : string -> option Z) (line : string) : option Z :=
  let cells := JS.split "," line in
  if (length cells <? 2)%nat then None
  else Date_parse (JS.trim (nth 0 cells EmptyString)).

Definition row_number (column : Z) (line : string) : JS.number :=
  match JS.index (JS.split "," line) column with
  | Some cell => JS.parseFloat cell
  | None => JS.NaN
  end.

(** What a row contributes to the discharge series: one sample at the row's
    time when the response has a discharge column and the row's number
    there is a number not below zero; nothing otherwise. What it contributes
    to the water-temperature series: one sample, the row's degrees Celsius
    in degrees Fahrenheit, when the response has a temperature column and
    the row holds a number there. *)
Definition row_discharge (Date_parse : string -> option Z) (column : Z)
           (line : string) : list App.Sample :=
  match row_time Date_parse line with
  | Some t =>
      let v := row_number column line in
      if (0 <=? column) && negb (JS.isNaN v) && JS.ge v (JS.of_Z 0)
      then [App.mkSample t v] else []
  | None => []
  end.

Definition row_temperature (Date_parse : string -> option Z) (column : Z)
           (line : string) : list App.Sample :=
  match row_time Date_parse line with
  | Some t =>
      let c := row_number column line in
      if (0 <=? column) && negb (JS.isNaN c)
      then [App.mkSample t (JS.add (JS.div (JS.mul c (JS.of_Z 9)) (JS.of_Z 5))
                                   (JS.of_Z 32))]
      else []
  | None => []
  end.

(** A response that is not well formed: the header's first cell ends in
    [_q], and the one row holds no number after its date. *)
Definition usbr_malformed_text : string :=
  ("DateTime_q,easw_tw" ++ String (ascii_of_nat 10) "2026-02-18 17:30,garbage")%string.

(*DEFS-END*)
(* ===================================================================== *)
(** * Properties                                                          *)
(* ===================================================================== *)

(** ** Arrays: filtering by index *)

Lemma subseq_refl {A : Type} (l : list A) : subseq l l.
Proof. induction l; constructor; assumption. Qed.

Lemma filteri_from_subseq {A : Type} (p : A -> nat -> bool) (l : list A) :
  forall i, subseq (JS.filteri_from p l i) l.
Proof.
  induction l as [|x l IH]; intro i; simpl.
  - constructor.
  - destruct (p x i); constructor; apply IH.
Qed.

Section EveryNth.
Context {A : Type}.
Variable k : nat.
Hypothesis k_pos : (1 <= k)%nat.

Let keep : A -> nat -> bool := fun _ i => (i mod k =? 0)%nat.

(** [d] is the distance from index [i] to the next multiple of [k]. *)
Lemma next_multiple_test (i d : nat) :
  (d < k)%nat -> ((i + d) mod k = 0)%nat ->
  (i mod k =? 0)%nat = (d =? 0)%nat.
Proof.
  intros Hd Hz.
  destruct d as [|d].
  - rewrite Nat.add_0_r in Hz. rewrite Hz. reflexivity.
  - simpl. apply Nat.eqb_neq. intro Hi.
    rewrite Nat.Div0.add_mod, Hi in Hz by lia. simpl in Hz.
    rewrite Nat.Div0.mod_mod in Hz by lia.
    rewrite Nat.mod_small in Hz by lia. discriminate.
Qed.

Lemma next_multiple_after (i : nat) :
  (i mod k = 0)%nat -> ((S i + (k - 1)) mod k = 0)%nat.
Proof.
  intro Hi. replace (S i + (k - 1))%nat with (i + 1 * k)%nat by lia.
  rewrite Nat.Div0.mod_add. exact Hi.
Qed.

Lemma every_nth_lookup (l : list A) :
  forall i d j,
    (d < k)%nat -> ((i + d) mod k = 0)%nat ->
    nth_error (JS.filteri_from (fun (_ : A) n => (n mod k =? 0)%nat) l i) j = nth_error l (d + j * k).
Proof.
  induction l as [|x l IH]; intros i d j Hd Hz.
  - simpl. destruct j; destruct (d + _)%nat; reflexivity.
  - simpl. rewrite (next_multiple_test i d Hd Hz).
    destruct d as [|d]; simpl.
    + rewrite Nat.add_0_r in Hz.
      destruct j as [|j]; simpl; [reflexivity|].
      rewrite (IH (S i) (k - 1)%nat j); [| lia | apply next_multiple_after, Hz].
      destruct k as [|k']; [lia|]. simpl.
      rewrite Nat.sub_0_r. reflexivity.
    + apply IH; [lia|].
      replace (S i + d)%nat with (i + S d)%nat by lia. exact Hz.
Qed.

Lemma every_nth_length (l : list A) :
  forall i d,
    (d < k)%nat -> ((i + d) mod k = 0)%nat ->
    length (JS.filteri_from (fun (_ : A) n => (n mod k =? 0)%nat) l i) = ((length l + k - 1 - d) / k)%nat.
Proof.
  induction l as [|x l IH]; intros i d Hd Hz.
  - simpl. symmetry. apply Nat.div_small. lia.
  - simpl. rewrite (next_multiple_test i d Hd Hz).
    destruct d as [|d]; simpl.
    + rewrite Nat.add_0_r in Hz.
      rewrite (IH (S i) (k - 1)%nat); [| lia | apply next_multiple_after, Hz].
      replace (length l + k - 1 - (k - 1))%nat with (length l) by lia.
      replace (length l + k - 0 - 0)%nat with (length l + 1 * k)%nat by lia.
      rewrite Nat.div_add by lia. lia.
    + rewrite (IH (S i) d); [| lia |].
      * f_equal. lia.
      * replace (S i + d)%nat with (i + S d)%nat by lia. exact Hz.
Qed.
End EveryNth.

(** The ceiling of [len / m] as [ceil_div] computes it: the least [step]
    with [len <= m * step]. *)
Lemma ceil_div_spec (len m : nat) :
  (1 <= m)%nat ->
  exists step,
    App.ceil_div len m = App.QFinite step /\
    (len <= m * step)%nat /\ (forall c, len <= m * c -> step <= c)%nat.
Proof.
  intro Hm. destruct m as [|m']; [lia|].
  exists ((len + S m' - 1) / S m')%nat. split; [reflexivity|].
  set (m := S m') in *. set (a := (len + m - 1)%nat).
  pose proof (Nat.div_mod_eq a m) as E.
  pose proof (Nat.mod_upper_bound a m ltac:(lia)) as B.
  split.
  - unfold a in *. lia.
  - intros c Hc. apply Nat.lt_succ_r.
    apply Nat.Div0.div_lt_upper_bound. unfold a. nia.
Qed.

(** ** C1: downsampling *)


(** X28. For every sample list [s] and every maximum count [m >= 1], as
    the chart's 80, [downsample s m] returns a list of
    length at most [m] that is a subsequence of [s]; it returns [s] itself
    when [length s <= m]; and when [length s > m] it keeps exactly the
    elements at the indices divisible by [step = ceil (length s / m)]: the
    [j]-th element of the result is the [j * step]-th of [s], for every [j]. *)
Theorem downsample_decimates :
  forall (A : Type) (s : list A) (m : nat),
    (1 <= m)%nat ->
    exists r,
      App.downsample (Some s) m = Some r /\
      (length r <= m)%nat /\
      subseq r s /\
      ((length s <= m)%nat -> r = s) /\
      ((m < length s)%nat ->
       exists step,
         App.ceil_div (length s) m = App.QFinite step /\
         (length s <= m * step)%nat /\
         (forall c, length s <= m * c -> step <= c)%nat /\
         forall j, nth_error r j = nth_error s (j * step)).
Proof.
  intros A s m Hm. unfold App.downsample.
  destruct (Nat.leb_spec (length s) m) as [Hle|Hgt].
  - exists s. repeat split; try assumption; try reflexivity.
    + apply subseq_refl.
    + intro; lia.
  - destruct (ceil_div_spec (length s) m Hm) as (step & Hstep & Hub & Hleast).
    rewrite Hstep. eexists. split; [reflexivity|].
    assert (Hk : (2 <= step)%nat) by (destruct step as [|[|?]]; lia).
    assert (Hfilter :
      JS.filteri (fun (_ : A) i => App.rem_is_zero i (App.QFinite step)) s =
      JS.filteri_from (fun (_ : A) i => (i mod step =? 0)%nat) s 0).
    { unfold JS.filteri. destruct step as [|k]; [lia|]. reflexivity. }
    rewrite Hfilter.
    repeat split.
    + rewrite (every_nth_length step ltac:(lia) s 0 0) by
        (try lia; apply Nat.Div0.mod_0_l).
      apply Nat.lt_succ_r, Nat.Div0.div_lt_upper_bound. nia.
    + apply filteri_from_subseq.
    + intro; lia.
    + intros _. exists step. repeat split; try assumption.
      intro j.
      rewrite (every_nth_lookup step ltac:(lia) s 0 0 j) by
        (try lia; apply Nat.Div0.mod_0_l).
      reflexivity.
Qed.

Lemma downsample_decimates_witness :
  exists r,
    App.downsample (Some [10; 11; 12; 13; 14; 15; 16]%nat) 3 = Some r /\
    (length r <= 3)%nat /\
    subseq r [10; 11; 12; 13; 14; 15; 16]%nat /\
    ((length [10; 11; 12; 13; 14; 15; 16]%nat <= 3)%nat ->
     r = [10; 11; 12; 13; 14; 15; 16]%nat) /\
    ((3 < length [10; 11; 12; 13; 14; 15; 16]%nat)%nat ->
     exists step,
       App.ceil_div (length [10; 11; 12; 13; 14; 15; 16]%nat) 3 = App.QFinite step /\
       (length [10; 11; 12; 13; 14; 15; 16]%nat <= 3 * step)%nat /\
       (forall c, length [10; 11; 12; 13; 14; 15; 16]%nat <= 3 * c -> step <= c)%nat /\
       forall j, nth_error r j = nth_error [10; 11; 12; 13; 14; 15; 16]%nat (j * step)).
Proof.
  apply (downsample_decimates nat [10; 11; 12; 13; 14; 15; 16]%nat 3%nat). lia.
Defined.

Example downsample_seven_to_three :
  App.downsample (Some [10; 11; 12; 13; 14; 15; 16]%nat) 3 = Some [10; 13; 16]%nat.
Proof. reflexivity. Qed.

(** ** Arrays: the head of a sorted array *)

Section SortHead.
Context {A : Type}.
Variable cmp : A -> A -> Z.
Hypothesis cmp_total : forall x y, cmp x y <= 0 \/ cmp y x <= 0.
Hypothesis cmp_trans : forall x y z, cmp x y <= 0 -> cmp y z <= 0 -> cmp x z <= 0.

(** The first element of [sort cmp l] is an element of [l] that [cmp] puts
    before every other one; the sorted array is empty only when [l] is. *)
Lemma sort_head_least (l : list A) :
  match JS.sort cmp l with
  | [] => l = []
  | h :: _ => In h l /\ forall y, In y l -> cmp h y <= 0
  end.
Proof.
  induction l as [|x l IH]; simpl; [reflexivity|].
  destruct (JS.sort cmp l) as [|h t]; simpl.
  - subst l. split; [left; reflexivity|].
    intros y [<-|[]]. destruct (cmp_total x x); assumption.
  - destruct IH as [Hin Hleast].
    destruct (Z.leb_spec (cmp x h) 0) as [Hxh|Hxh].
    + split; [left; reflexivity|].
      intros y [<-|Hy].
      * destruct (cmp_total x x); assumption.
      * apply cmp_trans with h; auto.
    + split; [right; assumption|].
      intros y [<-|Hy]; auto.
      destruct (cmp_total x h); [lia|assumption].
Qed.
End SortHead.

(** ** C2: trend classification *)

Lemma latest_fold (l : list App.Sample) :
  forall acc,
    let r := fold_left
               (fun best v => if App.time best <? App.time v then v else best) l acc in
    (r = acc \/ In r l) /\ App.time acc <= App.time r /\
    forall v, In v l -> App.time v <= App.time r.
Proof.
  induction l as [|x l IH]; intro acc; simpl.
  - split; [left; reflexivity|]. split; [lia|]. intros v [].
  - specialize (IH (if App.time acc <? App.time x then x else acc)).
    simpl in IH. destruct IH as (Hin & Hacc & Hall).
    destruct (Z.ltb_spec (App.time acc) (App.time x)) as [Hlt|Hge].
    + split; [destruct Hin as [->|Hin]; auto|].
      split; [lia|]. intros v [<-|Hv]; [lia | auto].
    + split; [destruct Hin as [->|Hin]; auto|].
      split; [lia|]. intros v [<-|Hv]; [lia | auto].
Qed.

(** The latest value of a non-empty series is one of its samples, and no
    sample has a later time. *)
Lemma getLatestValue_spec (vs : list App.Sample) :
  vs <> [] ->
  exists latest,
    App.getLatestValue (Some vs) = Some latest /\ In latest vs /\
    forall v, In v vs -> App.time v <= App.time latest.
Proof.
  intro Hne. destruct vs as [|x l]; [congruence|].
  unfold App.getLatestValue. simpl.
  pose proof (latest_fold l x) as (Hin & Hacc & Hall).
  eexists. split; [reflexivity|]. split.
  - destruct Hin as [->|Hin]; [left; reflexivity | right; assumption].
  - intros v [<-|Hv]; auto.
Qed.

(** C2, as the specification words it, when the series is stale: the clock
    reads [now], the samples are 30 and 10 hours old, the older one is the
    most recent sample at or before [now - 24h] and the latest value is twice
    its value; but the cutoff the code uses is 24 hours before the latest
    sample, no sample is that old, and the trend is [stable]. *)
Lemma getTrend_cutoff_is_not_wall_clock :
  let now := 1771500000000 in
  let older := App.mkSample (now - 30 * 3600000) (JS.of_Z 100) in
  let newer := App.mkSample (now - 10 * 3600000) (JS.of_Z 200) in
  let vs := [older; newer] in
  App.getLatestValue (Some vs) = Some newer /\
  reference_before_now now vs older /\
  JS.strict_eq (App.value older) JS.zero = false /\
  JS.gt (JS.div (JS.sub (App.value newer) (App.value older)) (App.value older))
        (JS.of_decimal false 10 (-2)) = true /\
  App.getTrend (Some vs) 24 <> App.rising.
Proof.
  cbv zeta. split; [reflexivity|]. split; [|split; [reflexivity|split; [reflexivity|]]].
  - unfold reference_before_now. split; [left; reflexivity|]. split.
    + simpl; lia.
    + intros v [<-|[<-|[]]] H; simpl in *; lia.
  - vm_compute. discriminate.
Qed.

(** C2 (amended: the cutoff is 24 hours before the latest sample's time, not
    before the wall clock). [getTrend] returns [stable] on fewer than 2
    samples; otherwise the latest sample is one of greatest time, the cutoff
    is its time minus 24h, the result is [stable] when no sample lies at or
    before the cutoff, and else the reference is a sample of greatest time
    among those at or before the cutoff and the result is [stable] when the
    reference value is zero, [rising] when the relative change of the latest
    value exceeds 0.10, [falling] when it is below -0.10, [stable] otherwise. *)
Theorem getTrend_classifies :
  forall vs : list App.Sample,
    ((length vs < 2)%nat /\ App.getTrend (Some vs) 24 = App.stable) \/
    ((2 <= length vs)%nat /\
     exists latest,
       App.getLatestValue (Some vs) = Some latest /\ In latest vs /\
       (forall v, In v vs -> App.time v <= App.time latest) /\
       let cutoff := App.time latest - 24 * 3600000 in
       (((forall v, In v vs -> cutoff < App.time v) /\
         App.getTrend (Some vs) 24 = App.stable) \/
        (exists past,
           In past vs /\ App.time past <= cutoff /\
           (forall v, In v vs -> App.time v <= cutoff -> App.time v <= App.time past) /\
           let pct := JS.div (JS.sub (App.value latest) (App.value past))
                             (App.value past) in
           App.getTrend (Some vs) 24 =
             if JS.strict_eq (App.value past) JS.zero then App.stable
             else if JS.gt pct (JS.of_decimal false 10 (-2)) then App.rising
             else if JS.lt pct (JS.neg (JS.of_decimal false 10 (-2))) then App.falling
             else App.stable))).
Proof.
  intro vs. unfold App.getTrend.
  destruct (Nat.ltb_spec (length vs) 2) as [Hlt|Hge]; [left; auto|].
  right. split; [assumption|].
  destruct (getLatestValue_spec vs) as (latest & Hlatest & Hin & Hmax).
  { destruct vs; simpl in Hge; [lia|discriminate]. }
  exists latest. rewrite Hlatest. repeat split; try assumption.
  cbv zeta.
  set (cutoff := App.time latest - 24 * 3600000).
  set (cmp := fun a b : App.Sample => App.time b - App.time a).
  set (old := filter (fun v => App.time v <=? cutoff) vs).
  pose proof (sort_head_least cmp) as Hhead.
  specialize (Hhead ltac:(intros x y; unfold cmp; lia)
                    ltac:(intros x y z; unfold cmp; lia) old).
  destruct (JS.sort cmp old) as [|past rest]; simpl.
  - left. split; [|reflexivity].
    intros v Hv. destruct (Z.leb_spec (App.time v) cutoff) as [Hle|Hgt]; [|lia].
    assert (Hold : In v old) by (apply filter_In; split; [assumption | apply Z.leb_le; lia]).
    rewrite Hhead in Hold. destruct Hold.
  - right. destruct Hhead as [Hpast Hleast].
    apply filter_In in Hpast. destruct Hpast as [Hpast Hcut].
    apply Z.leb_le in Hcut.
    exists past. repeat split; try assumption.
    intros v Hv Hvc.
    assert (Hold : In v old) by (apply filter_In; split; [assumption | apply Z.leb_le; lia]).
    specialize (Hleast v Hold). unfold cmp in Hleast. lia.
Qed.

Example getTrend_rising :
  App.getTrend (Some [App.mkSample 0 (JS.of_Z 100);
                      App.mkSample (12 * 3600000) (JS.of_Z 140);
                      App.mkSample (24 * 3600000) (JS.of_Z 111)]) 24 = App.rising.
Proof. vm_compute. reflexivity. Qed.

Example getTrend_zero_reference :
  App.getTrend (Some [App.mkSample 0 JS.zero;
                      App.mkSample (24 * 3600000) (JS.of_Z 111)]) 24 = App.stable.
Proof. vm_compute. reflexivity. Qed.

(** ** Arrays: sorting keeps the elements *)

Lemma sort_insert_In {A : Type} (cmp : A -> A -> Z) (x : A) (l : list A) :
  forall y, In y (JS.sort_insert cmp x l) <-> y = x \/ In y l.
Proof.
  induction l as [|z l IH]; intro y; simpl.
  - intuition congruence.
  - destruct (cmp x z <=? 0); simpl; [intuition congruence|].
    rewrite IH. intuition congruence.
Qed.

Lemma sort_In {A : Type} (cmp : A -> A -> Z) (l : list A) :
  forall y, In y (JS.sort cmp l) <-> In y l.
Proof.
  induction l as [|x l IH]; intro y; simpl; [tauto|].
  rewrite sort_insert_In, IH. intuition congruence.
Qed.

Lemma sort_insert_length {A : Type} (cmp : A -> A -> Z) (x : A) (l : list A) :
  length (JS.sort_insert cmp x l) = S (length l).
Proof.
  induction l as [|z l IH]; simpl; [reflexivity|].
  destruct (cmp x z <=? 0); simpl; congruence.
Qed.

Lemma sort_length {A : Type} (cmp : A -> A -> Z) (l : list A) :
  length (JS.sort cmp l) = length l.
Proof.
  induction l as [|x l IH]; simpl; [reflexivity|].
  rewrite sort_insert_length. congruence.
Qed.

(** ** C5: nearest-time alignment *)

Lemma nearestTemp_spec (dp : App.Sample) (others : list App.Sample) :
  forall first,
    let n := App.nearestTemp first others dp in
    In n (first :: others) /\
    forall tv, In tv (first :: others) ->
      Z.abs (App.time n - App.time dp) <= Z.abs (App.time tv - App.time dp).
Proof.
  unfold App.nearestTemp.
  induction others as [|x l IH]; intro first; simpl.
  - split; [left; reflexivity|]. intros tv [<-|[]]. lia.
  - specialize (IH (if Z.abs (App.time x - App.time dp)
                         <? Z.abs (App.time first - App.time dp) then x else first)).
    simpl in IH. destruct IH as [Hin Hmin].
    destruct (Z.ltb_spec (Z.abs (App.time x - App.time dp))
                         (Z.abs (App.time first - App.time dp))) as [Hlt|Hge].
    + split; [destruct Hin as [<-|Hin]; auto|].
      intros tv [<-|[<-|Htv]].
      * specialize (Hmin x (or_introl eq_refl)). lia.
      * apply Hmin. left; reflexivity.
      * apply Hmin. right; assumption.
    + split; [destruct Hin as [<-|Hin]; auto|].
      intros tv [<-|[<-|Htv]].
      * apply Hmin. left; reflexivity.
      * specialize (Hmin first (or_introl eq_refl)). lia.
      * apply Hmin. right; assumption.
Qed.

(** C5. For every non-empty temperature series and every list [ds] of
    discharge points, the alignment yields one entry per discharge point; the
    entry of a point [dp] comes from a temperature sample [nearest] whose
    absolute time difference to [dp] is minimal over the series, and it is
    that sample's value when the difference is strictly under 4 hours and
    missing ([None], the [null] of the chart) otherwise. *)
Theorem alignTemps_nearest_within_4h :
  forall (waterTemp ds : list App.Sample),
    waterTemp <> [] ->
    exists aligned,
      App.alignTemps waterTemp ds = Some aligned /\
      length aligned = length ds /\
      forall i dp,
        nth_error ds i = Some dp ->
        exists nearest,
          In nearest waterTemp /\
          (forall tv, In tv waterTemp ->
             Z.abs (App.time nearest - App.time dp)
             <= Z.abs (App.time tv - App.time dp)) /\
          nth_error aligned i =
            Some (if Z.abs (App.time nearest - App.time dp) <? 4 * 3600000
                  then Some (App.value nearest) else None).
Proof.
  intros waterTemp ds Hne. unfold App.alignTemps.
  destruct waterTemp as [|w0 ws]; [congruence|]. cbn [length Nat.ltb Nat.leb].
  set (cmp := fun a b : App.Sample => App.time a - App.time b).
  pose proof (sort_In cmp (w0 :: ws)) as Hperm.
  pose proof (sort_length cmp (w0 :: ws)) as Hlen.
  destruct (JS.sort cmp (w0 :: ws)) as [|first others]; [discriminate|].
  eexists. split; [reflexivity|]. split; [apply length_map|].
  intros i dp Hi.
  pose proof (nearestTemp_spec dp others first) as [Hin Hmin].
  exists (App.nearestTemp first others dp). split; [apply Hperm, Hin|].
  split.
  - intros tv Htv. apply Hmin, Hperm, Htv.
  - rewrite nth_error_map, Hi. reflexivity.
Qed.

Lemma alignTemps_nearest_within_4h_witness :
  let waterTemp := [App.mkSample (5 * 3600000) (JS.of_Z 41);
                    App.mkSample (13 * 3600000) (JS.of_Z 44)] in
  let ds := [App.mkSample 0 (JS.of_Z 300); App.mkSample (10 * 3600000) (JS.of_Z 320)] in
  exists aligned,
    App.alignTemps waterTemp ds = Some aligned /\
    length aligned = length ds /\
    forall i dp,
      nth_error ds i = Some dp ->
      exists nearest,
        In nearest waterTemp /\
        (forall tv, In tv waterTemp ->
           Z.abs (App.time nearest - App.time dp)
           <= Z.abs (App.time tv - App.time dp)) /\
        nth_error aligned i =
          Some (if Z.abs (App.time nearest - App.time dp) <? 4 * 3600000
                then Some (App.value nearest) else None).
Proof.
  apply (alignTemps_nearest_within_4h
           [App.mkSample (5 * 3600000) (JS.of_Z 41);
            App.mkSample (13 * 3600000) (JS.of_Z 44)]
           [App.mkSample 0 (JS.of_Z 300); App.mkSample (10 * 3600000) (JS.of_Z 320)]).
  discriminate.
Defined.

(** The two cases the specification names: the nearest temperature sample is
    5 hours from the first discharge point and 3 hours from the second. *)
Example alignTemps_5h_null_3h_value :
  App.alignTemps
    [App.mkSample (5 * 3600000) (JS.of_Z 41); App.mkSample (13 * 3600000) (JS.of_Z 44)]
    [App.mkSample 0 (JS.of_Z 300); App.mkSample (10 * 3600000) (JS.of_Z 320)]
  = Some [None; Some (JS.of_Z 44)].
Proof. vm_compute. reflexivity. Qed.

(** In the chart, [tData] is the alignment over the downsampled discharge,
    padded with one [null] per forecast point. *)
Lemma hydrographData_tData (discharge waterTemp forecast : list App.Sample) :
  forall h,
    App.hydrographData discharge waterTemp forecast = Some h ->
    App.tData h =
      match App.alignTemps waterTemp (App.ds h) with
      | Some aligned => Some (aligned ++ repeat None (length (App.futureFcast h)))
      | None => None
      end.
Proof.
  intros h. unfold App.hydrographData.
  destruct (length _ =? 0)%nat; [discriminate|].
  destruct (App.downsample _ 80) as [d|]; [|discriminate].
  intro H; injection H as <-. reflexivity.
Qed.

(** ** C4: the current timestep of the point forecast *)

(** The scan keeps in [curIdx] the last index seen whose timestamp is at most
    [now]: after it, either [curIdx] is the greatest such index of the
    scanned part, or no scanned timestamp is at most [now] and [curIdx] is
    the value the scan started from. *)
Lemma curIdx_loop_spec (now : Z) (ts : list Z) :
  forall i c,
    let r := App.curIdx_loop now ts i c in
    (exists t, nth_error ts (r - i) = Some t /\ t <= now /\ (i <= r)%nat /\
               forall j t', nth_error ts j = Some t' -> t' <= now -> (i + j <= r)%nat)
    \/ ((forall t, In t ts -> now < t) /\ r = c).
Proof.
  induction ts as [|t ts IH]; intros i c; simpl.
  - right. split; [intros t []|reflexivity].
  - specialize (IH (S i) (if t <=? now then i else c)). simpl in IH.
    set (r := App.curIdx_loop now ts (S i) (if t <=? now then i else c)) in *.
    destruct IH as [(t1 & Hnth & Hle & Hir & Hmax)|[Hnone Hr]].
    + left. exists t1.
      replace (r - i)%nat with (S (r - S i)) by lia.
      simpl. repeat split; try assumption; try lia.
      intros [|j] t' Hj Ht'; simpl in Hj; [lia|].
      specialize (Hmax j t' Hj Ht'). lia.
    + rewrite Hr. destruct (Z.leb_spec t now) as [Ht|Ht].
      * left. exists t. rewrite Nat.sub_diag. simpl.
        repeat split; try assumption; try lia.
        intros [|j] t' Hj Ht'; simpl in Hj; [lia|].
        apply nth_error_In in Hj. specialize (Hnone t' Hj). lia.
      * right. split; [|reflexivity].
        intros t' [<-|Ht']; auto.
Qed.

(** C4. The [current] snapshot of the point-forecast parser is read at one
    timestep [curIdx]: the greatest index whose timestamp is at most [now]
    when there is one, and index 0 when every timestamp is after [now]. On
    timestamps in chronological order, as the provider sends them, the first
    is the most recent past point: no timestamp at most [now] is later.
    Every field of the snapshot is what the response holds at that index:
    the temperature its kelvins (273.15 where it has none) in degrees
    Fahrenheit; the wind speed the length of its wind vector, and the gust
    its gust, in miles per hour; the humidity its relative humidity; the
    precipitation its metres of the last 3 hours in inches (each 0 where the
    response has none); and the felt temperature the wind chill of that
    temperature and that wind speed. *)
Theorem parseWindyResponse_current_is_latest_past :
  forall (Math_pow : JS.number -> JS.number -> JS.number)
         (toLocaleDateString : Z -> string -> string -> string)
         (now : Z) (raw : App.WindyRaw),
    let ts := entries (App.raw_ts raw) in
    let cur := App.current (App.parseWindyResponse Math_pow toLocaleDateString now raw) in
    exists curIdx,
      ((exists t,
          nth_error ts curIdx = Some t /\ t <= now /\
          (forall j t', nth_error ts j = Some t' -> t' <= now -> (j <= curIdx)%nat) /\
          (StronglySorted Z.le ts -> forall t', In t' ts -> t' <= now -> t' <= t))
       \/ ((forall t, In t ts -> now < t) /\ curIdx = 0%nat)) /\
      let held := fun arr dflt => held_at (entries arr) curIdx dflt in
      let kelvins := held (App.raw_temp_surface raw) (JS.lit 27315 (-2)) in
      let u := held (App.raw_wind_u_surface raw) (JS.of_Z 0) in
      let v := held (App.raw_wind_v_surface raw) (JS.of_Z 0) in
      let wind :=
        JS.mul (JS.Math_sqrt (JS.add (JS.mul u u) (JS.mul v v))) (JS.lit 223694 (-5)) in
      let fahrenheit :=
        JS.add (JS.div (JS.mul (JS.sub kelvins (JS.lit 27315 (-2))) (JS.of_Z 9))
                       (JS.of_Z 5))
               (JS.of_Z 32) in
      App.temp cur = fahrenheit /\
      App.windSpeed cur = wind /\
      App.gust cur
      = JS.mul (held (App.raw_gust_surface raw) (JS.of_Z 0)) (JS.lit 223694 (-5)) /\
      App.humidity cur = held (App.raw_rh_surface raw) (JS.of_Z 0) /\
      App.precip3h cur
      = JS.mul (held (App.raw_past3hprecip_surface raw) (JS.of_Z 0))
               (JS.lit 393701 (-4)) /\
      App.feelsLike cur = wind_chill Math_pow fahrenheit wind /\
      cur = App.currentAt Math_pow raw curIdx.
Proof.
  intros Math_pow toLocaleDateString now raw ts cur.
  exists (App.curIdx_loop now ts 0 0). split.
  - destruct (curIdx_loop_spec now ts 0 0) as [(t & Hnth & Hle & _ & Hmax)|H];
      [left|right; exact H].
    rewrite Nat.sub_0_r in Hnth. exists t.
    split; [assumption|]. split; [assumption|]. split; [exact Hmax|].
    intros Hsorted t' Hin Ht'.
    apply In_nth_error in Hin. destruct Hin as [j Hj].
    specialize (Hmax j t' Hj Ht'). simpl in Hmax.
    clear - Hsorted Hj Hnth Hmax.
    revert j Hj Hmax Hnth. generalize (App.curIdx_loop now ts 0 0).
    induction Hsorted as [|a l Hs IH Hall]; intros c j Hj Hjc Hc.
    + destruct j; discriminate.
    + destruct j as [|j], c as [|c]; simpl in *.
      * injection Hj as <-. injection Hc as <-. lia.
      * injection Hj as <-. apply nth_error_In in Hc.
        rewrite Forall_forall in Hall. apply Hall, Hc.
      * lia.
      * apply (IH c j); try assumption. lia.
  - intros held kelvins u v wind fahrenheit.
    assert (Hwind : App.windSpeed cur = wind).
    { unfold cur, App.parseWindyResponse. cbn [App.current].
      unfold App.currentAt. cbn [App.windSpeed].
      unfold wind, u, v, held, held_at, App.msToMph, App.speed.
      change (App.orEmpty (App.raw_ts raw)) with ts.
      change (App.orEmpty (App.raw_wind_u_surface raw))
        with (entries (App.raw_wind_u_surface raw)).
      change (App.orEmpty (App.raw_wind_v_surface raw))
        with (entries (App.raw_wind_v_surface raw)).
      destruct (nth_error (entries (App.raw_wind_u_surface raw)) _) as [[x|]|];
        destruct (nth_error (entries (App.raw_wind_v_surface raw)) _) as [[y|]|];
        reflexivity. }
    split; [reflexivity|]. split; [exact Hwind|].
    split; [reflexivity|]. split; [reflexivity|]. split; [reflexivity|].
    split; [|reflexivity].
    rewrite <- Hwind. reflexivity.
Qed.

(** ** Numbers: the order of binary64 values *)

Lemma pos_compare_cont_Eq (p q : positive) :
  Pos.compare_cont Eq p q = (p ?= q)%positive.
Proof. reflexivity. Qed.

Ltac order_cases :=
  repeat match goal with
  | |- context [Z.compare ?a ?b] => destruct (Z.compare_spec a b)
  | H : context [Z.compare ?a ?b] |- _ => destruct (Z.compare_spec a b)
  | |- context [Pos.compare_cont Eq ?a ?b] =>
      rewrite (pos_compare_cont_Eq a b); destruct (Pos.compare_spec a b)
  | H : context [Pos.compare_cont Eq ?a ?b] |- _ =>
      rewrite (pos_compare_cont_Eq a b) in H; destruct (Pos.compare_spec a b)
  end.

Lemma number_le_trans (x y z : JS.number) :
  JS.le x y = true -> JS.le y z = true -> JS.le x z = true.
Proof.
  unfold JS.le, SFleb.
  destruct x as [[]|[]| |[] mx ex], y as [[]|[]| |[] my ey], z as [[]|[]| |[] mz ez];
    simpl; intros H1 H2; try discriminate; try reflexivity;
    order_cases; simpl in *; try discriminate; try reflexivity; try lia.
Qed.

Lemma number_le_refl (x : JS.number) : JS.isNaN x = false -> JS.le x x = true.
Proof.
  unfold JS.le, SFleb.
  destruct x as [[]|[]| |[] mx ex]; simpl; intro H; try discriminate; auto;
    rewrite Z.compare_refl, pos_compare_cont_Eq, Pos.compare_refl; reflexivity.
Qed.

Lemma number_lt_le (x y : JS.number) :
  JS.isNaN x = false -> JS.isNaN y = false -> JS.lt x y = negb (JS.le y x).
Proof.
  unfold JS.le, JS.lt, SFleb, SFltb.
  destruct x as [[]|[]| |[] mx ex], y as [[]|[]| |[] my ey];
    simpl; intros H1 H2; try discriminate; auto;
    order_cases; simpl in *; auto; try lia.
Qed.

Lemma number_lt_implies_le (x y : JS.number) : JS.lt x y = true -> JS.le x y = true.
Proof.
  unfold JS.le, JS.lt, SFleb, SFltb.
  destruct (SFcompare x y) as [[]|]; intro; try discriminate; reflexivity.
Qed.

(** ** Numbers: [Math.max] and [Math.min] *)

Lemma max2_spec (h x : JS.number) :
  JS.isNaN h = false -> JS.isNaN x = false ->
  let r := JS.max2 h x in
  (r = h \/ r = x) /\ JS.le h r = true /\ JS.le x r = true.
Proof.
  intros Hh Hx. unfold JS.max2. rewrite Hh, Hx. simpl.
  destruct (JS.lt h x) eqn:Hlt.
  - split; [right; reflexivity|].
    split; [apply number_lt_implies_le, Hlt | apply number_le_refl, Hx].
  - rewrite number_lt_le in Hlt by assumption. apply negb_false_iff in Hlt.
    destruct (JS.is_neg_zero h && JS.is_pos_zero x) eqn:Hz.
    + split; [right; reflexivity|].
      apply andb_true_iff in Hz. destruct Hz as [Hz1 Hz2].
      destruct h as [[]| | |]; try discriminate.
      destruct x as [[]| | |]; try discriminate. split; reflexivity.
    + split; [left; reflexivity|].
      split; [apply number_le_refl, Hh | exact Hlt].
Qed.

Lemma min2_spec (l x : JS.number) :
  JS.isNaN l = false -> JS.isNaN x = false ->
  let r := JS.min2 l x in
  (r = l \/ r = x) /\ JS.le r l = true /\ JS.le r x = true.
Proof.
  intros Hl Hx. unfold JS.min2. rewrite Hl, Hx. simpl.
  destruct (JS.lt x l) eqn:Hlt.
  - split; [right; reflexivity|].
    split; [apply number_lt_implies_le, Hlt | apply number_le_refl, Hx].
  - rewrite number_lt_le in Hlt by assumption. apply negb_false_iff in Hlt.
    destruct (JS.is_pos_zero l && JS.is_neg_zero x) eqn:Hz.
    + split; [right; reflexivity|].
      apply andb_true_iff in Hz. destruct Hz as [Hz1 Hz2].
      destruct l as [[]| | |]; try discriminate.
      destruct x as [[]| | |]; try discriminate. split; reflexivity.
    + split; [left; reflexivity|].
      split; [apply number_le_refl, Hl | exact Hlt].
Qed.

Lemma isNaN_of_eq_or (r a b : JS.number) :
  r = a \/ r = b -> JS.isNaN a = false -> JS.isNaN b = false -> JS.isNaN r = false.
Proof. intros [->| ->]; auto. Qed.

Lemma fold_max2_spec (l : list JS.number) :
  Forall (fun x => JS.isNaN x = false) l ->
  forall acc, JS.isNaN acc = false ->
    let r := fold_left JS.max2 l acc in
    (r = acc \/ In r l) /\ JS.le acc r = true /\
    forall x, In x l -> JS.le x r = true.
Proof.
  induction 1 as [|x l Hx Hl IH]; intros acc Hacc; simpl.
  - split; [left; reflexivity|]. split; [apply number_le_refl, Hacc|]. intros x [].
  - destruct (max2_spec acc x Hacc Hx) as (Hor & Hle1 & Hle2).
    specialize (IH (JS.max2 acc x) (isNaN_of_eq_or _ _ _ Hor Hacc Hx)).
    simpl in IH. destruct IH as (Hin & Hle & Hall).
    split.
    + destruct Hin as [->|Hin]; [|right; right; assumption].
      destruct Hor as [->| ->]; [left; reflexivity | right; left; reflexivity].
    + split; [eapply number_le_trans; eassumption|].
      intros y [<-|Hy]; [eapply number_le_trans; eassumption | apply Hall, Hy].
Qed.

Lemma fold_min2_spec (l : list JS.number) :
  Forall (fun x => JS.isNaN x = false) l ->
  forall acc, JS.isNaN acc = false ->
    let r := fold_left JS.min2 l acc in
    (r = acc \/ In r l) /\ JS.le r acc = true /\
    forall x, In x l -> JS.le r x = true.
Proof.
  induction 1 as [|x l Hx Hl IH]; intros acc Hacc; simpl.
  - split; [left; reflexivity|]. split; [apply number_le_refl, Hacc|]. intros x [].
  - destruct (min2_spec acc x Hacc Hx) as (Hor & Hle1 & Hle2).
    specialize (IH (JS.min2 acc x) (isNaN_of_eq_or _ _ _ Hor Hacc Hx)).
    simpl in IH. destruct IH as (Hin & Hle & Hall).
    split.
    + destruct Hin as [->|Hin]; [|right; right; assumption].
      destruct Hor as [->| ->]; [left; reflexivity | right; left; reflexivity].
    + split; [eapply number_le_trans; eassumption|].
      intros y [<-|Hy]; [eapply number_le_trans; eassumption | apply Hall, Hy].
Qed.

(** [Math.max] of a non-empty list without NaN is one of its elements, and no
    element is greater. *)
Lemma Math_max_greatest (l : list JS.number) :
  l <> [] -> Forall (fun x => JS.isNaN x = false) l ->
  In (JS.Math_max l) l /\ forall x, In x l -> JS.le x (JS.Math_max l) = true.
Proof.
  intros Hne Hl. unfold JS.Math_max.
  destruct (fold_max2_spec l Hl (S754_infinity true) eq_refl) as (Hin & _ & Hall).
  split; [|exact Hall].
  destruct Hin as [Heq|Hin]; [|exact Hin].
  destruct l as [|x l]; [congruence|].
  specialize (Hall x (or_introl eq_refl)). rewrite Heq in *.
  inversion Hl as [|? ? Hx _]; subst.
  destruct x as [[]|[]| |[] ? ?]; try discriminate. left; reflexivity.
Qed.

Lemma Math_min_least (l : list JS.number) :
  l <> [] -> Forall (fun x => JS.isNaN x = false) l ->
  In (JS.Math_min l) l /\ forall x, In x l -> JS.le (JS.Math_min l) x = true.
Proof.
  intros Hne Hl. unfold JS.Math_min.
  destruct (fold_min2_spec l Hl (S754_infinity false) eq_refl) as (Hin & _ & Hall).
  split; [|exact Hall].
  destruct Hin as [Heq|Hin]; [|exact Hin].
  destruct l as [|x l]; [congruence|].
  specialize (Hall x (or_introl eq_refl)). rewrite Heq in *.
  inversion Hl as [|? ? Hx _]; subst.
  destruct x as [[]|[]| |[] ? ?]; try discriminate. left; reflexivity.
Qed.

(** ** The day map: distinct keys in order of first appearance *)

Lemma first_occurrences_In (l : list string) :
  forall d, In d (first_occurrences l) <-> In d l.
Proof.
  induction l as [|k l IH]; intro d; simpl; [tauto|].
  rewrite filter_In, IH, negb_true_iff, String.eqb_neq.
  destruct (string_dec k d); intuition congruence.
Qed.

Lemma first_occurrences_NoDup (l : list string) : NoDup (first_occurrences l).
Proof.
  induction l as [|k l IH]; simpl; constructor.
  - rewrite filter_In, negb_true_iff, String.eqb_neq. tauto.
  - apply NoDup_filter, IH.
Qed.

Lemma first_occurrences_snoc (l : list string) (k : string) :
  first_occurrences (l ++ [k]) =
  first_occurrences l ++ (if existsb (String.eqb k) l then [] else [k]).
Proof.
  induction l as [|a l IH]; simpl; [reflexivity|].
  rewrite IH, filter_app. f_equal. f_equal.
  destruct (existsb (String.eqb k) l); simpl.
  - rewrite orb_true_r. reflexivity.
  - rewrite orb_false_r. destruct (String.eqb k a); reflexivity.
Qed.

Lemma existsb_eqb_In (l : list string) (k : string) :
  existsb (String.eqb k) l = true <-> In k l.
Proof.
  rewrite existsb_exists. split.
  - intros (x & Hx & Heq). apply String.eqb_eq in Heq. subst. assumption.
  - intro H. exists k. split; [assumption | apply String.eqb_refl].
Qed.

(** ** The day map: lookups and in-place updates *)

Section DayMapEntries.
Variable g : string -> App.DayAcc.

Lemma Map_has_entries (D : list string) (k : string) :
  App.Map_has (map (fun d => (d, g d)) D) k = existsb (String.eqb k) D.
Proof.
  induction D as [|d D IH]; simpl; [reflexivity|].
  rewrite IH, (String.eqb_sym k d). destruct (String.eqb d k); reflexivity.
Qed.

Lemma Map_update_entries (f : App.DayAcc -> App.DayAcc) (D : list string) (k : string) :
  NoDup D ->
  App.Map_update (map (fun d => (d, g d)) D) k f =
  map (fun d => (d, if String.eqb d k then f (g d) else g d)) D.
Proof.
  induction 1 as [|d D Hd HD IH]; simpl; [reflexivity|].
  destruct (String.eqb_spec d k) as [->|Hne].
  - f_equal. apply map_ext_in. intros a Ha.
    destruct (String.eqb_spec a k) as [->|_]; [contradiction | reflexivity].
  - f_equal. exact IH.
Qed.

Lemma Map_update_last (f : App.DayAcc -> App.DayAcc) (D : list string)
      (k : string) (v : App.DayAcc) :
  ~ In k D ->
  App.Map_update (map (fun d => (d, g d)) D ++ [(k, v)]) k f =
  map (fun d => (d, g d)) D ++ [(k, f v)].
Proof.
  induction D as [|d D IH]; simpl; intro Hk.
  - rewrite String.eqb_refl. reflexivity.
  - destruct (String.eqb_spec d k) as [->|Hne]; [tauto|].
    f_equal. apply IH. tauto.
Qed.
End DayMapEntries.

(** ** The day map: what the grouping loop builds *)

Section DayGrouping.
Variable toLocaleDateString : Z -> string -> string -> string.
Variables tempK precM : list (option JS.number).

Local Abbreviation key := (App.dateKey toLocaleDateString).
Local Abbreviation tempF i := (App.kToF (App.at_or tempK i (JS.lit 27315 (-2)))).
Local Abbreviation precIn i := (App.mToIn (App.at_or precM i (JS.of_Z 0))).

Lemma day_acc_snoc (P : list (nat * Z)) (i : nat) (t : Z) (d : string) :
  day_acc key tempK precM (P ++ [(i, t)]) d =
  if String.eqb (key t) d
  then App.mkDayAcc (App.dayLabel d)
                    (day_temps key tempK d P ++ [tempF i])
                    (day_precips key precM d P ++ [precIn i])
  else day_acc key tempK precM P d.
Proof.
  unfold day_acc, day_temps, day_precips, on_day.
  rewrite filter_app. simpl.
  destruct (String.eqb (key t) d); rewrite !map_app; simpl.
  - reflexivity.
  - rewrite !app_nil_r. reflexivity.
Qed.

Lemma on_day_unseen (P : list (nat * Z)) (d : string) :
  ~ In d (step_keys key P) -> on_day key d P = [].
Proof.
  induction P as [|[i t] P IH]; simpl; intro H; [reflexivity|].
  destruct (String.eqb_spec (key t) d) as [Heq|_]; [tauto|].
  apply IH. tauto.
Qed.

Lemma dayMap_step (P : list (nat * Z)) (i : nat) (t : Z) :
  App.Map_update
    (App.Map_update
       (if negb (App.Map_has (grouped key tempK precM P) (key t))
        then App.Map_set_new (grouped key tempK precM P) (key t)
               (App.mkDayAcc (App.dayLabel (key t)) [] [])
        else grouped key tempK precM P)
       (key t)
       (fun v => App.mkDayAcc (App.acc_label v) (App.temps v ++ [tempF i])
                              (App.precips v)))
    (key t)
    (fun v => App.mkDayAcc (App.acc_label v) (App.temps v)
                           (App.precips v ++ [precIn i]))
  = grouped key tempK precM (P ++ [(i, t)]).
Proof.
  unfold grouped, day_entry, step_keys.
  rewrite map_app. simpl. rewrite first_occurrences_snoc.
  rewrite Map_has_entries.
  set (D := first_occurrences (map (fun it => key (snd it)) P)).
  assert (HD : NoDup D) by apply first_occurrences_NoDup.
  assert (Hex : existsb (String.eqb (key t)) D
                = existsb (String.eqb (key t)) (map (fun it => key (snd it)) P)).
  { apply eq_true_iff_eq. rewrite !existsb_eqb_In. apply first_occurrences_In. }
  rewrite <- Hex.
  destruct (existsb (String.eqb (key t)) D) eqn:Hseen; simpl.
  - rewrite app_nil_r.
    rewrite Map_update_entries by assumption.
    rewrite (Map_update_entries
               (fun d => if String.eqb d (key t) then _ else _)) by assumption.
    apply map_ext. intro d. rewrite day_acc_snoc, (String.eqb_sym (key t) d).
    destruct (String.eqb d (key t)); reflexivity.
  - assert (Hk : ~ In (key t) D).
    { rewrite <- existsb_eqb_In. congruence. }
    unfold App.Map_set_new.
    rewrite Map_update_last by assumption.
    rewrite Map_update_last by assumption.
    rewrite map_app. simpl. f_equal.
    + apply map_ext_in. intros d Hd. rewrite day_acc_snoc.
      destruct (String.eqb_spec (key t) d) as [<-|_]; [contradiction|reflexivity].
    + rewrite day_acc_snoc, String.eqb_refl.
      unfold day_temps, day_precips. rewrite on_day_unseen; [reflexivity|].
      unfold step_keys. intro Hin. apply Hk, first_occurrences_In, Hin.
Qed.

Lemma dayMap_loop_grouped (ts : list Z) :
  forall (P : list (nat * Z)) (i : nat),
    App.dayMap_loop toLocaleDateString tempK precM ts i (grouped key tempK precM P)
    = grouped key tempK precM (P ++ timesteps ts i).
Proof.
  induction ts as [|t ts IH]; intros P i.
  - unfold timesteps. simpl. rewrite app_nil_r. reflexivity.
  - cbn [App.dayMap_loop]. rewrite dayMap_step, IH.
    unfold timesteps. simpl. rewrite <- app_assoc. reflexivity.
Qed.
End DayGrouping.

(** ** Arrays: [sort] sorts *)

Lemma sort_insert_perm {A : Type} (cmp : A -> A -> Z) (x : A) (l : list A) :
  Permutation (JS.sort_insert cmp x l) (x :: l).
Proof.
  induction l as [|y l IH]; simpl; [reflexivity|].
  destruct (cmp x y <=? 0); [reflexivity|].
  rewrite IH. apply perm_swap.
Qed.

Lemma sort_perm {A : Type} (cmp : A -> A -> Z) (l : list A) :
  Permutation (JS.sort cmp l) l.
Proof.
  induction l as [|x l IH]; simpl; [reflexivity|].
  rewrite sort_insert_perm. apply perm_skip, IH.
Qed.

Section SortSorted.
Context {A : Type}.
Variable cmp : A -> A -> Z.
Hypothesis cmp_total : forall x y, cmp x y <= 0 \/ cmp y x <= 0.
Hypothesis cmp_trans : forall x y z, cmp x y <= 0 -> cmp y z <= 0 -> cmp x z <= 0.

Lemma sort_insert_sorted (x : A) (l : list A) :
  StronglySorted (fun a b => cmp a b <= 0) l ->
  StronglySorted (fun a b => cmp a b <= 0) (JS.sort_insert cmp x l).
Proof.
  induction 1 as [|y l Hl IH Hy]; simpl.
  - constructor; constructor.
  - destruct (Z.leb_spec (cmp x y) 0) as [Hxy|Hxy].
    + constructor; [constructor; assumption|].
      constructor; [assumption|].
      rewrite Forall_forall in *. intros z Hz. eapply cmp_trans; eauto.
    + constructor; [assumption|].
      rewrite Forall_forall in *. intros z Hz.
      apply sort_insert_In in Hz. destruct Hz as [->|Hz]; [|auto].
      destruct (cmp_total x y); [lia|assumption].
Qed.

Lemma sort_sorted (l : list A) :
  StronglySorted (fun a b => cmp a b <= 0) (JS.sort cmp l).
Proof.
  induction l as [|x l IH]; simpl; [constructor|].
  apply sort_insert_sorted, IH.
Qed.
End SortSorted.

Lemma sort_map {A B : Type} (g : A -> B) (cmpA : A -> A -> Z) (cmpB : B -> B -> Z) :
  (forall a b, cmpB (g a) (g b) = cmpA a b) ->
  forall l, JS.sort cmpB (map g l) = map g (JS.sort cmpA l).
Proof.
  intros Hg. induction l as [|x l IH]; simpl; [reflexivity|].
  rewrite IH. generalize (JS.sort cmpA l). clear IH.
  induction l0 as [|y l0 IH]; simpl; [reflexivity|].
  rewrite Hg. destruct (cmpA x y <=? 0); simpl; [reflexivity|].
  rewrite IH. reflexivity.
Qed.

(** ** Strings: the order of the date keys *)

Lemma localeCompare_total (a b : string) :
  JS.localeCompare a b <= 0 \/ JS.localeCompare b a <= 0.
Proof.
  unfold JS.localeCompare.
  destruct (String_as_OT.compare_spec a b) as [Heq|Hlt|Hgt]; [left; lia|left; lia|].
  right. unfold String_as_OT.lt in Hgt. rewrite Hgt. lia.
Qed.

Lemma localeCompare_le_cases (a b : string) :
  JS.localeCompare a b <= 0 <-> a = b \/ String_as_OT.lt a b.
Proof.
  unfold JS.localeCompare.
  destruct (String_as_OT.compare_spec a b) as [Heq|Hlt|Hgt].
  - split; [auto | lia].
  - split; [auto | lia].
  - split; [lia|]. intros [->|Hlt]; exfalso.
    + eapply (StrictOrder_Irreflexive (R := String_as_OT.lt)); eassumption.
    + eapply (StrictOrder_Irreflexive (R := String_as_OT.lt)).
      eapply (StrictOrder_Transitive (R := String_as_OT.lt)); eassumption.
Qed.

Lemma localeCompare_trans (a b c : string) :
  JS.localeCompare a b <= 0 -> JS.localeCompare b c <= 0 -> JS.localeCompare a c <= 0.
Proof.
  rewrite !localeCompare_le_cases.
  intros [->|Hab] [->|Hbc]; auto.
  right. eapply (StrictOrder_Transitive (R := String_as_OT.lt)); eassumption.
Qed.

Lemma strictly_ascending (l : list string) :
  NoDup l ->
  StronglySorted (fun a b => JS.localeCompare a b <= 0) l ->
  StronglySorted String_as_OT.lt l.
Proof.
  intros Hnd Hs. induction Hs as [|a l Hl IH Ha]; [constructor|].
  inversion Hnd as [|? ? Hnotin Hnd']; subst.
  constructor; [apply IH, Hnd'|].
  rewrite Forall_forall in *. intros b Hb.
  specialize (Ha b Hb). apply localeCompare_le_cases in Ha.
  destruct Ha as [->|Hlt]; [contradiction|assumption].
Qed.

(** ** C7: the daily aggregation of the point forecast *)

Lemma timesteps_keys (dateKey : Z -> string) (ts : list Z) :
  forall i, step_keys dateKey (timesteps ts i) = map dateKey ts.
Proof.
  unfold step_keys, timesteps.
  induction ts as [|t ts IH]; intro i; simpl; [reflexivity|].
  f_equal. apply IH.
Qed.

Lemma timesteps_In (ts : list Z) (t : Z) :
  In t ts -> forall i, exists j, In (j, t) (timesteps ts i).
Proof.
  unfold timesteps.
  induction ts as [|a ts IH]; simpl; [tauto|].
  intros [->|Hin] i.
  - exists i. left; reflexivity.
  - destruct (IH Hin (S i)) as [j Hj]. exists j. right; exact Hj.
Qed.

(** C7. The daily output of the point-forecast parser is, for the calendar
    days [days] of the timesteps, one entry per day of the first 7: [days]
    are exactly the dates, in the America/Los_Angeles time zone, of the
    timesteps, in strictly ascending order. The temperatures of a day are
    those the response holds, in kelvins, at the indices of the timesteps of
    that date, each as [(k - 273.15) * 9 / 5 + 32] degrees Fahrenheit, in the
    order of the timesteps; its precipitations are those it holds in metres
    at the same indices, each times 39.3701. The entry of a day has as
    [high] the [Math.max] and as [low] the [Math.min] of the day's
    temperatures, and as [precip] the sum of its precipitations, added from
    0 in the order of the timesteps; there are at most 7 entries. Every day
    has a timestep, and unless a temperature is NaN, [high] is one of the
    day's temperatures and none is greater, [low] is one of them and none
    is smaller. *)
Theorem parseWindyResponse_daily_by_date :
  forall (Math_pow : JS.number -> JS.number -> JS.number)
         (toLocaleDateString : Z -> string -> string -> string)
         (now : Z) (raw : App.WindyRaw),
    let ts := entries (App.raw_ts raw) in
    let tempK := entries (App.raw_temp_surface raw) in
    let precM := entries (App.raw_past3hprecip_surface raw) in
    let key := fun t => toLocaleDateString t "en-CA"%string "America/Los_Angeles"%string in
    let steps := timesteps ts 0 in
    let daily := App.daily (App.parseWindyResponse Math_pow toLocaleDateString now raw) in
    exists days : list string,
      (forall d, In d days <-> exists t, In t ts /\ key t = d) /\
      StronglySorted String_as_OT.lt days /\
      daily = map (day_summary key tempK precM steps) (firstn 7 days) /\
      (length daily <= 7)%nat /\
      forall d, In d days ->
        let indices :=
          map fst (filter (fun it => String.eqb (key (snd it)) d)
                          (combine (seq 0 (length ts)) ts)) in
        let kelvins := fun i =>
          match nth_error tempK i with
          | Some (Some k) => k
          | Some None | None => JS.lit 27315 (-2)
          end in
        let metres := fun i =>
          match nth_error precM i with
          | Some (Some m) => m
          | Some None | None => JS.of_Z 0
          end in
        let temps := day_temps key tempK d steps in
        temps
        = map (fun i =>
                 JS.add (JS.div (JS.mul (JS.sub (kelvins i) (JS.lit 27315 (-2)))
                                        (JS.of_Z 9))
                                (JS.of_Z 5))
                        (JS.of_Z 32)) indices /\
        day_precips key precM d steps
        = map (fun i => JS.mul (metres i) (JS.lit 393701 (-4))) indices /\
        temps <> [] /\
        (Forall (fun x => JS.isNaN x = false) temps ->
         In (JS.Math_max temps) temps /\
         (forall x, In x temps -> JS.le x (JS.Math_max temps) = true) /\
         In (JS.Math_min temps) temps /\
         (forall x, In x temps -> JS.le (JS.Math_min temps) x = true)).
Proof.
  intros Math_pow toLocaleDateString now raw ts tempK precM key steps daily.
  set (D := first_occurrences (step_keys key steps)).
  exists (JS.sort JS.localeCompare D).
  assert (Hdays : forall d, In d (JS.sort JS.localeCompare D)
                            <-> exists t, In t ts /\ key t = d).
  { intro d. rewrite sort_In. unfold D. rewrite first_occurrences_In.
    unfold steps. rewrite timesteps_keys, in_map_iff.
    split; intros (t & H1 & H2); exists t; auto. }
  assert (Hdaily : daily = map (day_summary key tempK precM steps)
                               (firstn 7 (JS.sort JS.localeCompare D))).
  { unfold daily, App.parseWindyResponse. cbn [App.daily].
    change (App.orEmpty (App.raw_ts raw)) with ts.
    change (App.orEmpty (App.raw_temp_surface raw)) with tempK.
    change (App.orEmpty (App.raw_past3hprecip_surface raw)) with precM.
    change (@nil (string * App.DayAcc))
      with (grouped (App.dateKey toLocaleDateString) tempK precM []).
    rewrite dayMap_loop_grouped. cbn [app].
    change (App.dateKey toLocaleDateString) with key. fold steps.
    unfold grouped. fold D.
    rewrite (sort_map (day_entry key tempK precM steps) JS.localeCompare)
      by reflexivity.
    rewrite firstn_map, map_map. reflexivity. }
  split; [exact Hdays|]. split.
  - apply strictly_ascending.
    + apply (Permutation_NoDup (l := D)).
      * symmetry. apply sort_perm.
      * apply first_occurrences_NoDup.
    + apply sort_sorted.
      * apply localeCompare_total.
      * apply localeCompare_trans.
  - split; [exact Hdaily|]. split.
    + rewrite Hdaily, length_map, length_firstn. apply Nat.le_min_l.
    + intros d Hd indices kelvins metres temps.
      split; [unfold temps, day_temps, indices; rewrite map_map; reflexivity|].
      split; [unfold day_precips, indices; rewrite map_map; reflexivity|].
      assert (Hne : temps <> []).
      { apply Hdays in Hd. destruct Hd as (t & Ht & Hkey).
        destruct (timesteps_In ts t Ht 0) as [j Hj].
        unfold temps, day_temps. intro Hnil. apply map_eq_nil in Hnil.
        assert (Hin : In (j, t) (on_day key d steps)).
        { unfold on_day. apply filter_In. split; [exact Hj|].
          simpl. rewrite Hkey. apply String.eqb_refl. }
        rewrite Hnil in Hin. destruct Hin. }
      split; [exact Hne|]. intro Hnan.
      destruct (Math_max_greatest temps Hne Hnan) as [H1 H2].
      destruct (Math_min_least temps Hne Hnan) as [H3 H4].
      auto.
Qed.

(** ** C6: the USBR CSV parser *)

Lemma findIndex_from_none {A : Type} (p : A -> bool) (l : list A) :
  (forall x, In x l -> p x = false) -> forall i, JS.findIndex_from p l i = -1.
Proof.
  induction l as [|x l IH]; intros Hp i; simpl; [reflexivity|].
  rewrite (Hp x (or_introl eq_refl)). apply IH. intros y Hy. apply Hp. right; exact Hy.
Qed.

Lemma parseUSBRRow_discharge (Date_parse : string -> option Z) (qIdx twIdx : Z)
      (out : App.Series) (line : string) :
  Forall (fun s => JS.ge (App.value s) (JS.of_Z 0) = true) (App.discharge out) ->
  Forall (fun s => JS.ge (App.value s) (JS.of_Z 0) = true)
         (App.discharge (App.parseUSBRRow Date_parse qIdx twIdx out line)).
Proof.
  intro H. unfold App.parseUSBRRow.
  destruct (length (JS.split "," line) <? 2)%nat; [exact H|].
  destruct (Date_parse _) as [dt|]; [|exact H].
  assert (H1 :
    Forall (fun s => JS.ge (App.value s) (JS.of_Z 0) = true)
      (App.discharge
         (if 0 <=? qIdx then
            let val := match JS.index (JS.split "," line) qIdx with
                       | Some c => JS.parseFloat c
                       | None => JS.NaN
                       end in
            if negb (JS.isNaN val) && JS.ge val (JS.of_Z 0)
            then App.mkSeries (App.discharge out ++ [App.mkSample dt val])
                              (App.waterTemp out) (App.gageHeight out)
            else out
          else out))).
  { destruct (0 <=? qIdx); [|exact H]. cbv zeta.
    destruct (negb _ && JS.ge _ _) eqn:Hok; [|exact H].
    apply andb_true_iff in Hok. destruct Hok as [_ Hge]. simpl.
    apply Forall_app. split; [exact H|]. constructor; [exact Hge|constructor]. }
  destruct (0 <=? twIdx); [|exact H1]. cbv zeta.
  destruct (negb _); [|exact H1]. exact H1.
Qed.

Lemma parseUSBRRows_discharge (Date_parse : string -> option Z) (qIdx twIdx : Z)
      (rows : list string) :
  forall out,
    Forall (fun s => JS.ge (App.value s) (JS.of_Z 0) = true) (App.discharge out) ->
    Forall (fun s => JS.ge (App.value s) (JS.of_Z 0) = true)
           (App.discharge (fold_left (App.parseUSBRRow Date_parse qIdx twIdx) rows out)).
Proof.
  induction rows as [|r rows IH]; intros out H; simpl; [exact H|].
  apply IH, parseUSBRRow_discharge, H.
Qed.


(** The example, in a browser whose zone is 8 hours behind UTC. *)
Example parseUSBRCSV_example_in_browser :
  App.parseUSBRCSV Browser.Date_parse usbr_example_text "easw"
  = App.mkSeries [App.mkSample 1771464600000 (JS.lit 32657 (-2))]
                 [App.mkSample 1771464600000 (JS.lit 1058 (-1))] [].
Proof. vm_compute. reflexivity. Qed.

(** ** C9: the two USBR parsers *)

(** C9. The USBR CSV parser of [src/app.js] and the one of
    [src/unnamed/part_000] return the same discharge, water-temperature and
    gage-height series on every text and station code. *)
Theorem parseUSBRCSV_same_in_both_files :
  forall (Date_parse : string -> option Z) (text stationLower : string),
    App.discharge (App.parseUSBRCSV Date_parse text stationLower)
    = App.discharge (Part000.parseUSBRCSV Date_parse text stationLower) /\
    App.waterTemp (App.parseUSBRCSV Date_parse text stationLower)
    = App.waterTemp (Part000.parseUSBRCSV Date_parse text stationLower) /\
    App.gageHeight (App.parseUSBRCSV Date_parse text stationLower)
    = App.gageHeight (Part000.parseUSBRCSV Date_parse text stationLower).
Proof.
  intros Date_parse text stationLower.
  assert (Hrow : forall qIdx twIdx out line,
             App.parseUSBRRow Date_parse qIdx twIdx out line
             = Part000.parseUSBRRow Date_parse qIdx twIdx out line).
  { intros. unfold App.parseUSBRRow, Part000.parseUSBRRow. reflexivity. }
  assert (Heq : App.parseUSBRCSV Date_parse text stationLower
                = Part000.parseUSBRCSV Date_parse text stationLower).
  { unfold App.parseUSBRCSV, Part000.parseUSBRCSV. cbv zeta.
    destruct (length _ <? 2)%nat; [reflexivity|].
    destruct (JS.findIndex _ _ <? 0); [reflexivity|].
    destruct (JS.index _ _); [|reflexivity].
    generalize (App.mkSeries [] [] []).
    generalize (skipn (Z.to_nat
      (JS.findIndex (fun l => JS.startsWith (JS.toLowerCase l) "datetime")
         (filter JS.truthy (map JS.trim (JS.split (ascii_of_nat 10) text))) + 1))
      (filter JS.truthy (map JS.trim (JS.split (ascii_of_nat 10) text)))).
    induction l as [|r rows IH]; intro out; simpl; [reflexivity|].
    rewrite Hrow. apply IH. }
  rewrite Heq. auto.
Qed.

(** ** Strings: concatenation *)

Lemma string_app_assoc (a b c : string) : ((a ++ b) ++ c = a ++ (b ++ c))%string.
Proof. induction a as [|x a IH]; simpl; [reflexivity | rewrite IH; reflexivity]. Qed.

Lemma string_app_length (a b : string) :
  String.length (a ++ b) = (String.length a + String.length b)%nat.
Proof. induction a as [|x a IH]; simpl; [reflexivity | rewrite IH; reflexivity]. Qed.

Lemma string_app_inv (a b x y : string) :
  String.length a = String.length b ->
  (a ++ x = b ++ y)%string -> a = b /\ x = y.
Proof.
  revert b. induction a as [|c a IH]; intros [|d b] Hlen Heq;
    simpl in *; try discriminate.
  - auto.
  - injection Heq as -> Heq. injection Hlen as Hlen.
    destruct (IH b Hlen Heq) as [-> ->]. auto.
Qed.

(** ** The pattern of the NWRFC parser *)

Lemma take_digits_spec (n : nat) :
  forall s d rest,
    App.take_digits n s = Some (d, rest) ->
    s = (d ++ rest)%string /\ String.length d = n.
Proof.
  induction n as [|n IH]; intros s d rest; simpl.
  - intro H; injection H as <- <-. auto.
  - destruct s as [|c s]; [discriminate|].
    destruct (JS.is_digit c); [|discriminate].
    destruct (App.take_digits n s) as [[d' rest']|] eqn:E; [|discriminate].
    intro H; injection H as <- <-.
    destruct (IH _ _ _ E) as [-> <-]. auto.
Qed.

Lemma take_char_spec (c : ascii) (s rest : string) :
  App.take_char c s = Some rest -> s = String c rest.
Proof.
  destruct s as [|c' s]; simpl; [discriminate|].
  destruct (Ascii.eqb_spec c' c) as [->|]; [|discriminate].
  intro H; injection H as <-. reflexivity.
Qed.

Lemma take_string_spec (p : string) :
  forall s rest, App.take_string p s = Some rest -> s = (p ++ rest)%string.
Proof.
  induction p as [|c p IH]; intros s rest; simpl.
  - intro H; injection H as <-. reflexivity.
  - destruct (App.take_char c s) as [s'|] eqn:E; [|discriminate].
    intro H. apply take_char_spec in E. apply IH in H. subst. reflexivity.
Qed.

Lemma take_digit_run_spec (s : string) :
  forall d rest,
    App.take_digit_run s = (d, rest) ->
    s = (d ++ rest)%string /\
    (d = EmptyString \/ exists c d', d = String c d' /\ JS.is_digit c = true).
Proof.
  induction s as [|c s IH]; intros d rest; simpl.
  - intro H; injection H as <- <-. auto.
  - destruct (JS.is_digit c) eqn:Hc.
    + destruct (App.take_digit_run s) as [d' rest'].
      intro H; injection H as <- <-.
      destruct (IH _ _ eq_refl) as [-> _]. split; [reflexivity|].
      right. eauto.
    + intro H; injection H as <- <-. auto.
Qed.

Lemma match_timestamp_spec (s m1 rest : string) :
  App.match_timestamp s = Some (m1, rest) ->
  s = (m1 ++ rest)%string /\ String.length m1 = 16%nat.
Proof.
  unfold App.match_timestamp.
  destruct (App.take_digits 4 s) as [[y s1]|] eqn:E1; [|discriminate].
  destruct (App.take_char "-" s1) as [s2|] eqn:E2; [|discriminate].
  destruct (App.take_digits 2 s2) as [[mo s3]|] eqn:E3; [|discriminate].
  destruct (App.take_char "-" s3) as [s4|] eqn:E4; [|discriminate].
  destruct (App.take_digits 2 s4) as [[d s5]|] eqn:E5; [|discriminate].
  destruct (App.take_char " " s5) as [s6|] eqn:E6; [|discriminate].
  destruct (App.take_digits 2 s6) as [[h s7]|] eqn:E7; [|discriminate].
  destruct (App.take_char ":" s7) as [s8|] eqn:E8; [|discriminate].
  destruct (App.take_digits 2 s8) as [[mi s9]|] eqn:E9; [|discriminate].
  intro H; injection H as <- <-.
  apply take_digits_spec in E1, E3, E5, E7, E9.
  apply take_char_spec in E2, E4, E6, E8.
  destruct E1 as [-> L1], E3 as [-> L3], E5 as [-> L5], E7 as [-> L7], E9 as [-> L9].
  subst. split.
  - repeat (rewrite !string_app_assoc; simpl). reflexivity.
  - repeat (rewrite !string_app_length; simpl). lia.
Qed.

Lemma match_decimal_spec (s m2 : string) :
  App.match_decimal s = Some m2 ->
  exists c m2' rest,
    m2 = String c m2' /\ JS.is_digit c = true /\ s = (m2 ++ rest)%string.
Proof.
  unfold App.match_decimal.
  destruct (App.take_digit_run s) as [int_part rest] eqn:E.
  apply take_digit_run_spec in E. destruct E as [-> Hd].
  destruct Hd as [->|(c & d' & -> & Hc)]; [discriminate|].
  destruct rest as [|r rest].
  - intro H; injection H as <-. exists c, d', EmptyString. auto.
  - destruct (Ascii.eqb_spec r "."%char) as [->|Hr].
    + destruct (App.take_digit_run rest) as [frac rest'] eqn:E.
      apply take_digit_run_spec in E. destruct E as [-> _].
      intro H; injection H as <-.
      exists c, (d' ++ "." ++ frac)%string, rest'. repeat split; auto.
      simpl. rewrite !string_app_assoc. reflexivity.
    + intro H.
      assert (H' : Some (String c d') = Some m2).
      { destruct r as [[] [] [] [] [] [] [] []]; try exact H.
        exfalso. apply Hr. reflexivity. }
      injection H' as <-. exists c, d', (String r rest). auto.
Qed.

(** What the pattern matches: a 16-character timestamp, the cell boundary,
    and a group that starts with a decimal digit. *)
Lemma match_at_spec (s m1 m2 : string) (n : nat) :
  App.match_at s = Some (m1, m2, n) ->
  String.length m1 = 16%nat /\
  exists c m2' rest,
    m2 = String c m2' /\ JS.is_digit c = true /\
    s = (m1 ++ App.cell_boundary ++ m2 ++ rest)%string.
Proof.
  unfold App.match_at.
  destruct (App.match_timestamp s) as [[g1 s1]|] eqn:E1; [|discriminate].
  destruct (App.take_string App.cell_boundary s1) as [s2|] eqn:E2; [|discriminate].
  destruct (App.match_decimal s2) as [g2|] eqn:E3; [|discriminate].
  intro H; injection H as <- <- <-.
  apply match_timestamp_spec in E1. destruct E1 as [-> L].
  apply take_string_spec in E2. subst s1.
  apply match_decimal_spec in E3. destruct E3 as (c & g2' & rest & -> & Hc & ->).
  split; [exact L|]. exists c, g2', rest. auto.
Qed.

Lemma exec_all_matches (s : string) :
  forall skip m1 m2,
    In (m1, m2) (App.exec_all skip s) ->
    exists s' n, App.match_at s' = Some (m1, m2, n).
Proof.
  induction s as [|c s IH]; intros skip m1 m2; simpl; [tauto|].
  destruct skip as [|k]; [|apply IH].
  destruct (App.match_at (String c s)) as [[[g1 g2] len]|] eqn:E; [|apply IH].
  intros [H|H]; [|apply (IH _ _ _ H)].
  injection H as <- <-. eauto.
Qed.

(** ** Numbers: rounding keeps the sign *)

Lemma shr_1_nonneg (mrs : shr_record) : 0 <= shr_m mrs -> 0 <= shr_m (shr_1 mrs).
Proof.
  destruct mrs as [m r s]. simpl.
  destruct m as [|[p|p|]|[p|p|]]; simpl; lia.
Qed.

Lemma iter_pos_shr_1_nonneg (p : positive) :
  forall mrs, 0 <= shr_m mrs -> 0 <= shr_m (iter_pos shr_1 p mrs).
Proof.
  induction p as [p IH|p IH|]; intros mrs H; simpl.
  - apply IH, IH, shr_1_nonneg, H.
  - apply IH, IH, H.
  - apply shr_1_nonneg, H.
Qed.

Lemma shr_fexp_nonneg (m e : Z) (l : location) :
  0 <= m -> 0 <= shr_m (fst (shr_fexp 53 1024 m e l)).
Proof.
  intro Hm. unfold shr_fexp, shr.
  assert (H0 : 0 <= shr_m (shr_record_of_loc m l)).
  { destruct l as [|[]]; simpl; exact Hm. }
  destruct (fexp 53 1024 (Zdigits2 m + e) - e) as [|p|p]; simpl; try exact H0.
  apply iter_pos_shr_1_nonneg, H0.
Qed.

Lemma round_nearest_even_nonneg (m : Z) (l : location) :
  0 <= m -> 0 <= round_nearest_even m l.
Proof.
  intro Hm. destruct l as [|[]]; simpl; try lia.
  destruct (Z.even m); lia.
Qed.

Lemma binary_round_aux_plus (m e : Z) (l : location) :
  0 <= m -> plus_signed (binary_round_aux 53 1024 false m e l).
Proof.
  intro Hm. unfold binary_round_aux.
  pose proof (shr_fexp_nonneg m e l Hm) as H1.
  destruct (shr_fexp 53 1024 m e l) as [mrs' e']. simpl in H1.
  pose proof (shr_fexp_nonneg
                (round_nearest_even (shr_m mrs') (loc_of_shr_record mrs')) e'
                loc_Exact (round_nearest_even_nonneg _ _ H1)) as H2.
  destruct (shr_fexp 53 1024 _ e' loc_Exact) as [mrs'' e'']. simpl in H2.
  destruct (shr_m mrs'') as [|p|p]; simpl; [exact I| |lia].
  destruct (e'' <=? _); exact I.
Qed.

Lemma binary_round_plus (m : positive) (e : Z) :
  plus_signed (binary_round 53 1024 false m e).
Proof.
  unfold binary_round.
  destruct (shl_align m e _) as [mz ez].
  apply binary_round_aux_plus. lia.
Qed.

Lemma SFdiv_plus (mx my : positive) (ex ey : Z) :
  plus_signed (SFdiv 53 1024 (S754_finite false mx ex) (S754_finite false my ey)).
Proof.
  unfold SFdiv, SFdiv_core_binary.
  set (m' := match _ - _ - _ with Z0 => Zpos mx | Zpos _ => _ | Zneg _ => 0 end).
  assert (Hm' : 0 <= m').
  { unfold m'. destruct (_ - _ - _); try lia. apply Z.shiftl_nonneg. lia. }
  pose proof (Z.div_pos m' (Zpos my) Hm' ltac:(lia)) as Hq.
  unfold Z.div in Hq.
  destruct (Z.div_eucl m' (Zpos my)) as [q r]. simpl in Hq. simpl.
  apply binary_round_aux_plus, Hq.
Qed.

Lemma of_decimal_plus (m e : Z) : plus_signed (JS.of_decimal false m e).
Proof.
  unfold JS.of_decimal. destruct m as [|p|p]; try exact I.
  destruct (0 <=? e); [apply binary_round_plus | apply SFdiv_plus].
Qed.

Lemma plus_signed_not_below_zero (x : JS.number) :
  plus_signed x ->
  JS.isNaN x = false /\ JS.lt x (JS.of_Z 0) = false /\ JS.ge x (JS.of_Z 0) = true.
Proof.
  destruct x as [[]|[]| |[] m e]; simpl; intro H; try contradiction; auto.
Qed.

(** ** Strings: [parseFloat] of an unsigned decimal *)

Lemma span_digits_count (s : string) :
  forall acc n v n' rest,
    JS.span_digits s acc n = (v, n', rest) -> (n <= n')%nat.
Proof.
  induction s as [|c s IH]; intros acc n v n' rest; simpl.
  - intro H; injection H as _ <- _. lia.
  - destruct (JS.is_digit c).
    + intro H. apply IH in H. lia.
    + intro H; injection H as _ <- _. lia.
Qed.

(** The text of a number that begins with a digit has a value that is not
    NaN and carries no sign. *)
Lemma parseFloat_unsigned (c : ascii) (s : string) :
  JS.is_digit c = true -> plus_signed (JS.parseFloat (String c s)).
Proof.
  intro Hc.
  assert (Hlit : JS.parseFloat (String c s) = JS.unsigned_literal false (String c s)).
  { destruct c as [[] [] [] [] [] [] [] []]; try discriminate Hc; reflexivity. }
  rewrite Hlit. unfold JS.unsigned_literal.
  assert (Hinf : String.prefix "Infinity" (String c s) = false).
  { destruct c as [[] [] [] [] [] [] [] []]; try discriminate Hc; reflexivity. }
  rewrite Hinf.
  assert (Hspan : JS.span_digits (String c s) 0 0
                  = JS.span_digits s (10 * 0 + JS.digit_value c) 1).
  { simpl. rewrite Hc. reflexivity. }
  rewrite Hspan.
  destruct (JS.span_digits s _ 1) as [[int_v int_n] rest] eqn:E.
  apply span_digits_count in E.
  assert (Hn : (int_n =? 0)%nat = false) by (apply Nat.eqb_neq; lia).
  rewrite Hn.
  assert (Hplain : plus_signed (JS.of_decimal false int_v (JS.exponent_part rest)))
    by apply of_decimal_plus.
  destruct rest as [|r rest]; [exact Hplain|].
  destruct (Ascii.eqb_spec r "."%char) as [->|Hr].
  - destruct (JS.span_digits rest int_v 0) as [[v frac_n] rest'']. simpl.
    apply of_decimal_plus.
  - destruct r as [[] [] [] [] [] [] [] []]; try exact Hplain.
    exfalso. apply Hr. reflexivity.
Qed.

(** ** C10: the NWRFC temperature parser *)

Lemma parseNWRFC_fold (Date_parse : string -> option Z) (cutoff : option Z)
      (Q : App.Sample -> Prop) (matches : list (string * string)) :
  (forall m dt c,
     In m matches -> Date_parse (fst m) = Some dt -> cutoff = Some c ->
     c <= dt -> JS.isNaN (JS.parseFloat (snd m)) = false ->
     Q (App.mkSample dt (JS.parseFloat (snd m)))) ->
  forall out,
    Forall Q out ->
    Forall Q
      (fold_left
         (fun out m =>
            let dt := Date_parse (fst m) in
            let val := JS.parseFloat (snd m) in
            match dt, cutoff with
            | Some dt, Some cutoff =>
                if (cutoff <=? dt) && negb (JS.isNaN val)
                then out ++ [App.mkSample dt val]
                else out
            | _, _ => out
            end)
         matches out).
Proof.
  induction matches as [|m matches IH]; intros HQ out Hout; simpl; [exact Hout|].
  apply IH; [intros; eapply HQ; eauto; right; assumption|].
  destruct (Date_parse (fst m)) as [dt|] eqn:Hdt; [|exact Hout].
  destruct cutoff as [c|]; [|exact Hout].
  destruct ((c <=? dt) && negb (JS.isNaN (JS.parseFloat (snd m)))) eqn:Hok;
    [|exact Hout].
  apply andb_true_iff in Hok. destruct Hok as [Hc Hn].
  apply Z.leb_le in Hc. apply negb_true_iff in Hn.
  apply Forall_app. split; [exact Hout|].
  constructor; [|constructor].
  apply (HQ m dt c); auto. left; reflexivity.
Qed.

(** C10. Every sample the NWRFC temperature parser emits has a value that is
    not below zero and a time at or after the cutoff [now - days] (in
    milliseconds, [days * 86400000]). A timestamp followed by a value cell
    that begins with a minus sign does not match the pattern, whatever
    follows: such a row yields no sample. *)
Theorem parseNWRFCTempHTML_unsigned_and_recent :
  forall (Date_parse : string -> option Z) (now : Z) (html : string) (days : Z),
    (forall s,
       In s (App.parseNWRFCTempHTML Date_parse now html days) ->
       JS.lt (App.value s) (JS.of_Z 0) = false /\
       JS.ge (App.value s) (JS.of_Z 0) = true /\
       now - days * 86400000 <= App.time s) /\
    (forall timestamp rest,
       String.length timestamp = 16%nat ->
       App.match_at (timestamp ++ App.cell_boundary ++ String "-" rest) = None).
Proof.
  intros Date_parse now html days. split.
  - intros s Hs.
    assert (Hall :
      Forall (fun s => plus_signed (App.value s) /\ now - days * 86400000 <= App.time s)
             (App.parseNWRFCTempHTML Date_parse now html days)).
    { unfold App.parseNWRFCTempHTML. cbv zeta.
      apply parseNWRFC_fold; [|constructor].
      intros [m1 m2] dt c Hin Hdt Hcut Hle Hnan. simpl in *.
      split.
      - apply exec_all_matches in Hin. destruct Hin as (s' & n & Hm).
        apply match_at_spec in Hm.
        destruct Hm as (_ & ch & m2' & rest & -> & Hch & _).
        apply parseFloat_unsigned, Hch.
      - unfold App.Date_of_time in Hcut.
        destruct (Z.abs _ <=? _); [|discriminate].
        injection Hcut as <-. exact Hle. }
    rewrite Forall_forall in Hall. destruct (Hall s Hs) as [Hplus Htime].
    apply plus_signed_not_below_zero in Hplus. tauto.
  - intros timestamp rest Hlen.
    destruct (App.match_at _) as [[[m1 m2] n]|] eqn:E; [exfalso|reflexivity].
    apply match_at_spec in E.
    destruct E as (Hlen1 & c & m2' & rest' & -> & Hc & Heq).
    apply string_app_inv in Heq; [|congruence].
    destruct Heq as [_ Heq].
    apply string_app_inv in Heq; [|reflexivity].
    destruct Heq as [_ Heq]. simpl in Heq. injection Heq as <- _.
    discriminate Hc.
Qed.

(** A document with a row at 41.9 and a row at -3.5: the second leaves no
    trace. *)
Example parseNWRFCTempHTML_drops_negative_row :
  App.parseNWRFCTempHTML Browser.Date_parse 1771900000000
    (nwrfc_row "2026-02-23 13:30" "41.9" ++ nwrfc_row "2026-02-23 14:30" "-3.5") 7
  = [App.mkSample 1771882200000 (JS.lit 419 (-1))].
Proof. vm_compute. reflexivity. Qed.

(** ** C3: fallback to the secondary provider *)

Lemma length_pos_nonempty {A : Type} (l : list A) :
  (0 <? length l)%nat = true <-> l <> [].
Proof.
  destruct l; simpl; split; intro H; try congruence; try reflexivity.
  discriminate.
Qed.

(** What the job holds after a step: nothing, or the non-empty discharge of
    the provider its tag names. *)
Lemma tryUSGS_spec (w : App.World) (days : Z) (station : App.Station) :
  let acc := App.tryUSGS w days station (None, None) in
  (acc = (None, None) /\ primary_gives_nothing w days station) \/
  (exists usgs d,
     App.usgsId station = Some usgs /\
     App.fetchUSGS w usgs days = App.Returned d /\
     App.discharge (fst d) <> [] /\
     acc = (Some d, Some "USGS"%string)).
Proof.
  unfold App.tryUSGS, primary_gives_nothing.
  destruct (App.usgsId station) as [usgs|]; [|left; auto].
  destruct (JS.truthy usgs); [|left; split; [reflexivity | discriminate]].
  destruct (App.fetchUSGS w usgs days) as [d|] eqn:Hf; [|left; auto].
  destruct (0 <? length (App.discharge (fst d)))%nat eqn:Hlen.
  - right. exists usgs, d. apply length_pos_nonempty in Hlen. auto.
  - left. split; [reflexivity|]. intros _.
    destruct (App.discharge (fst d)); [reflexivity | discriminate].
Qed.

Lemma tryUSBR_spec (w : App.World) (days : Z) (station : App.Station) :
  let acc := App.tryUSBR w days station (None, None) in
  acc = (None, None) \/
  (exists usbr d,
     App.usbrId station = Some usbr /\
     App.fetchUSBR w usbr days = App.Returned d /\
     App.discharge d <> [] /\
     acc = (Some (d, None), Some "USBR"%string)).
Proof.
  unfold App.tryUSBR. simpl.
  destruct (App.usbrId station) as [usbr|]; [|left; auto].
  destruct (JS.truthy usbr); [|left; reflexivity].
  destruct (App.fetchUSBR w usbr days) as [d|] eqn:Hf; [|left; auto].
  destruct (0 <? length (App.discharge d))%nat eqn:Hlen; [|left; reflexivity].
  right. exists usbr, d. apply length_pos_nonempty in Hlen. auto.
Qed.

Lemma supplementTemp_spec (w : App.World) (days : Z) (station : App.Station)
      (acc : App.Accepted) :
  let acc' := App.supplementTemp w days station acc in
  snd acc' = snd acc /\
  match fst acc, fst acc' with
  | Some (r, _), Some (r', _) => App.discharge r' = App.discharge r
  | None, None => True
  | _, _ => False
  end.
Proof.
  unfold App.supplementTemp.
  destruct acc as [[[r site]|] src]; simpl; [|auto].
  destruct (App.nwrfcId station) as [nwrfc|]; simpl; [|auto].
  destruct (JS.truthy nwrfc && _); simpl; [|auto].
  destruct (App.fetchNWRFCTemp w nwrfc days) as [tw|]; simpl; [|auto].
  destruct (0 <? length tw)%nat; simpl; auto.
Qed.

(** C3. When the primary provider gives a station no discharge (no USGS
    identifier, a failed fetch, or an empty discharge series) and the station
    has a USBR identifier whose fetch returns a non-empty discharge series,
    the station's new reading has source [USBR] and that non-empty series.
    In every case the reading's discharge is either the non-empty series of
    the provider named by [source], or empty with no source: a provider
    result with an empty discharge series is never the station's result. *)
Theorem stationJob_falls_back_to_USBR :
  forall (w : App.World) (days : Z) (station : App.Station),
    let r := App.stationJob w days station in
    (forall usbr d,
       primary_gives_nothing w days station ->
       App.usbrId station = Some usbr -> JS.truthy usbr = true ->
       App.fetchUSBR w usbr days = App.Returned d ->
       App.discharge d <> [] ->
       App.source r = Some "USBR"%string /\
       App.discharge (App.series r) = App.discharge d /\
       App.discharge (App.series r) <> []) /\
    ((App.source r = None /\ App.series r = App.mkSeries [] [] []) \/
     (App.source r = Some "USGS"%string /\ App.discharge (App.series r) <> [] /\
      exists usgs d, App.usgsId station = Some usgs /\
                     App.fetchUSGS w usgs days = App.Returned d /\
                     App.discharge (App.series r) = App.discharge (fst d)) \/
     (App.source r = Some "USBR"%string /\ App.discharge (App.series r) <> [] /\
      exists usbr d, App.usbrId station = Some usbr /\
                     App.fetchUSBR w usbr days = App.Returned d /\
                     App.discharge (App.series r) = App.discharge d)).
Proof.
  intros w days station r. subst r. unfold App.stationJob. cbv zeta.
  pose proof (tryUSGS_spec w days station) as H1. cbv zeta in H1.
  destruct H1 as [[E1 Hnone]|(usgs & d1 & Hid & Hf & Hne & E1)]; rewrite E1.
  - (* the primary provider has given nothing *)
    pose proof (tryUSBR_spec w days station) as H2. cbv zeta in H2.
    destruct H2 as [E2|(usbr & d2 & Hid2 & Hf2 & Hne2 & E2)]; rewrite E2.
    + split; [|left; auto].
      intros usbr d _ Hid Ht Hf Hne. exfalso.
      unfold App.tryUSBR in E2. simpl in E2. rewrite Hid, Ht, Hf in E2.
      apply length_pos_nonempty in Hne. rewrite Hne in E2. discriminate.
    + pose proof (supplementTemp_spec w days station
                    (Some (d2, None), Some "USBR"%string)) as (Hs & Hd).
      cbv zeta in Hs, Hd. simpl in Hs, Hd.
      destruct (App.supplementTemp w days station _) as [[[r' site']|] src'];
        simpl in *; [|contradiction].
      subst src'.
      assert (Hr : App.discharge r' <> []) by congruence.
      split.
      * intros usbr' d' _ Hid' _ Hf' _.
        rewrite Hid2 in Hid'. injection Hid' as <-.
        rewrite Hf2 in Hf'. injection Hf' as <-. auto.
      * right; right. split; [reflexivity|]. split; [exact Hr|]. eauto.
  - (* the primary provider has been accepted *)
    assert (E2 : App.tryUSBR w days station (Some d1, Some "USGS"%string)
                 = (Some d1, Some "USGS"%string)).
    { unfold App.tryUSBR. simpl. reflexivity. }
    rewrite E2.
    pose proof (supplementTemp_spec w days station
                  (Some d1, Some "USGS"%string)) as (Hs & Hd).
    cbv zeta in Hs, Hd. simpl in Hs, Hd. destruct d1 as [s1 site1]. simpl in *.
    destruct (App.supplementTemp w days station _) as [[[r' site']|] src'];
      simpl in *; [|contradiction].
    subst src'.
    assert (Hr : App.discharge r' <> []) by congruence.
    split.
    + intros usbr d Hnone. exfalso.
      unfold primary_gives_nothing in Hnone. rewrite Hid in Hnone.
      assert (Ht : JS.truthy usgs = true).
      { unfold App.tryUSGS in E1. rewrite Hid in E1.
        destruct (JS.truthy usgs); [reflexivity | discriminate]. }
      specialize (Hnone Ht). rewrite Hf in Hnone. simpl in Hnone. congruence.
    + right; left. split; [reflexivity|]. split; [exact Hr|].
      exists usgs, (s1, site1). auto.
Qed.

(** The Easton station (no USGS gauge) in a cycle where the USBR answers. *)
Example stationJob_easton :
  exists easton,
    nth_error App.STATIONS 0 = Some easton /\
    let r := App.stationJob Browser.world 7 easton in
    App.source r = Some "USBR"%string /\
    App.discharge (App.series r) = [App.mkSample 1771464600000 (JS.lit 32657 (-2))].
Proof. eexists. split; [reflexivity|]. vm_compute. auto. Qed.

(** ** The readings a cycle stores *)

Lemma obj_get_set_eq {V : Type} (obj : list (string * V)) (key : string) (v : V) :
  App.obj_get (App.obj_set obj key v) key = Some v.
Proof.
  induction obj as [|[k x] obj IH]; simpl.
  - rewrite String.eqb_refl. reflexivity.
  - destruct (String.eqb k key) eqn:E; simpl; rewrite E; [reflexivity | exact IH].
Qed.

Lemma obj_get_set_ne {V : Type} (obj : list (string * V)) (key key' : string) (v : V) :
  key <> key' -> App.obj_get (App.obj_set obj key v) key' = App.obj_get obj key'.
Proof.
  intro Hne. induction obj as [|[k x] obj IH]; simpl.
  - destruct (String.eqb_spec key key'); [contradiction | reflexivity].
  - destruct (String.eqb_spec k key) as [->|Hk]; simpl.
    + destruct (String.eqb_spec key key'); [contradiction | reflexivity].
    + destruct (String.eqb k key'); [reflexivity | exact IH].
Qed.

(** ** The point-forecast parser on a forecast *)

(** Four hours after the second timestep the current conditions are those of
    the third, and the three local days have the highs, lows and
    precipitation sums of their timesteps. *)
Example parseWindyResponse_forecast :
  let w := App.parseWindyResponse (fun x _ => x) Browser.toLocaleDateString
             (Browser.forecast_start + 4 * 3600000) Browser.forecast in
  App.temp (App.current w) = JS.of_Z 50 /\
  App.daily w
  = [ App.mkDay "Feb 17" (JS.of_Z 68) (JS.of_Z 68) (JS.of_Z 0);
      App.mkDay "Feb 18" (JS.of_Z 50) (JS.of_Z 32) (JS.lit 1181103 (-7));
      App.mkDay "Feb 19" (JS.of_Z 14) (JS.of_Z 14) (JS.of_Z 0) ].
Proof. vm_compute. auto. Qed.

(** Before the first timestep the current conditions fall back to index 0. *)
Example parseWindyResponse_all_future :
  App.current
    (App.parseWindyResponse (fun x _ => x) Browser.toLocaleDateString
       (Browser.forecast_start - 48 * 3600000) Browser.forecast)
  = App.currentAt (fun x _ => x) Browser.forecast 0.
Proof. vm_compute. reflexivity. Qed.

(* ===================================================================== *)
(** * Further properties of the time-series utilities                     *)
(* ===================================================================== *)

(** ** [getLatestValue]: the first of the latest samples *)

Lemma latest_fold_first (l : list App.Sample) :
  forall acc,
    let r := fold_left
               (fun best v => if App.time best <? App.time v then v else best) l acc in
    (r = acc /\ forall v, In v l -> App.time v <= App.time acc) \/
    (exists i,
       nth_error l i = Some r /\ App.time acc < App.time r /\
       (forall j v, (j < i)%nat -> nth_error l j = Some v -> App.time v < App.time r) /\
       forall v, In v l -> App.time v <= App.time r).
Proof.
  induction l as [|x l IH]; intro acc; simpl.
  - left. split; [reflexivity|]. intros v [].
  - specialize (IH (if App.time acc <? App.time x then x else acc)). simpl in IH.
    destruct (Z.ltb_spec (App.time acc) (App.time x)) as [Hlt|Hge].
    + destruct IH as [[-> Hall]|(i & Hi & Hacc & Hbefore & Hall)].
      * right. exists 0%nat. simpl. split; [reflexivity|]. split; [exact Hlt|].
        split; [intros j v Hj; lia|]. intros v [<-|Hv]; [lia | auto].
      * right. exists (S i). simpl. split; [exact Hi|]. split; [lia|]. split.
        -- intros [|j] v Hj Hv; simpl in Hv.
           ++ injection Hv as <-. exact Hacc.
           ++ apply (Hbefore j v); [lia | exact Hv].
        -- intros v [<-|Hv]; [lia | auto].
    + destruct IH as [[-> Hall]|(i & Hi & Hacc & Hbefore & Hall)].
      * left. split; [reflexivity|]. intros v [<-|Hv]; [lia | auto].
      * right. exists (S i). simpl. split; [exact Hi|]. split; [exact Hacc|]. split.
        -- intros [|j] v Hj Hv; simpl in Hv.
           ++ injection Hv as <-. lia.
           ++ apply (Hbefore j v); [lia | exact Hv].
        -- intros v [<-|Hv]; [lia | auto].
Qed.

(** X1. [getLatestValue] returns [null] exactly on a missing or empty array;
    otherwise it returns a sample of greatest time, and of the samples with
    that time the first in the array: every sample before it is strictly
    earlier. *)
Theorem getLatestValue_first_of_latest :
  forall values : option (list App.Sample),
    (App.getLatestValue values = None <-> values = None \/ values = Some []) /\
    forall vs latest,
      values = Some vs -> App.getLatestValue values = Some latest ->
      exists i,
        nth_error vs i = Some latest /\
        (forall v, In v vs -> App.time v <= App.time latest) /\
        (forall j v, (j < i)%nat -> nth_error vs j = Some v ->
                     App.time v < App.time latest).
Proof.
  intro values. split.
  - destruct values as [[|x l]|]; simpl; split; intro H; auto;
      try discriminate; destruct H as [H|H]; discriminate.
  - intros vs latest -> H. destruct vs as [|x l]; [discriminate|].
    simpl in H. injection H as <-.
    destruct (latest_fold_first l x) as [[Heq Hall]|(i & Hi & Hacc & Hbefore & Hall)].
    + exists 0%nat. simpl. split; [f_equal; symmetry; exact Heq|].
      split; [|intros j v Hj; lia].
      rewrite Heq. intros v [<-|Hv]; [lia | auto].
    + exists (S i). simpl. split; [exact Hi|]. split.
      * intros v [<-|Hv]; [lia | auto].
      * intros [|j] v Hj Hv; simpl in Hv.
        -- injection Hv as <-. exact Hacc.
        -- apply (Hbefore j v); [lia | exact Hv].
Qed.

(** ** [getTrend]: what the result depends on *)

(** The result is [stable] on fewer than 2 samples and when no sample is at
    or before the cutoff; otherwise it is the classification of the latest
    value against the value of a latest sample at or before the cutoff. *)
Lemma getTrend_reference (vs : list App.Sample) (hoursBack : Z) :
  ((length vs < 2)%nat /\ App.getTrend (Some vs) hoursBack = App.stable) \/
  ((2 <= length vs)%nat /\
   exists latest,
     In latest vs /\
     (forall v, In v vs -> App.time v <= App.time latest) /\
     (((forall v, In v vs -> App.time latest - hoursBack * 3600000 < App.time v) /\
       App.getTrend (Some vs) hoursBack = App.stable) \/
      (exists past,
         In past vs /\ App.time past <= App.time latest - hoursBack * 3600000 /\
         (forall v, In v vs -> App.time v <= App.time latest - hoursBack * 3600000 ->
                    App.time v <= App.time past) /\
         App.getTrend (Some vs) hoursBack
         = trend_of (App.value latest) (App.value past)))).
Proof.
  unfold App.getTrend.
  destruct (Nat.ltb_spec (length vs) 2) as [Hlt|Hge]; [left; auto|].
  right. split; [assumption|].
  destruct (getLatestValue_spec vs) as (latest & Hlatest & Hin & Hmax).
  { destruct vs; simpl in Hge; [lia|discriminate]. }
  exists latest. rewrite Hlatest. split; [assumption|]. split; [assumption|].
  cbv zeta.
  set (cutoff := App.time latest - hoursBack * 3600000).
  set (cmp := fun a b : App.Sample => App.time b - App.time a).
  set (old := filter (fun v => App.time v <=? cutoff) vs).
  pose proof (sort_head_least cmp
                ltac:(intros x y; unfold cmp; lia)
                ltac:(intros x y z; unfold cmp; lia) old) as Hhead.
  destruct (JS.sort cmp old) as [|past rest]; simpl.
  - left. split; [|reflexivity].
    intros v Hv. destruct (Z.leb_spec (App.time v) cutoff) as [Hle|Hgt]; [|lia].
    assert (Hold : In v old) by (apply filter_In; split; [assumption | apply Z.leb_le; lia]).
    rewrite Hhead in Hold. destruct Hold.
  - right. destruct Hhead as [Hpast Hleast].
    apply filter_In in Hpast. destruct Hpast as [Hpast Hcut].
    apply Z.leb_le in Hcut.
    exists past. split; [assumption|]. split; [assumption|]. split; [|reflexivity].
    intros v Hv Hvc.
    assert (Hold : In v old) by (apply filter_In; split; [assumption | apply Z.leb_le; lia]).
    specialize (Hleast v Hold). unfold cmp in Hleast. lia.
Qed.

Lemma tenth_value :
  JS.of_decimal false 10 (-2) = S754_finite false 7205759403792794 (-56).
Proof. vm_compute. reflexivity. Qed.

(** A value is never classified as a change of itself, whatever it is: zero,
    finite, infinite or NaN. *)
Lemma trend_of_same (c : JS.number) : trend_of c c = App.stable.
Proof.
  unfold trend_of. rewrite tenth_value.
  destruct c as [s|s| |s m e].
  - destruct s; reflexivity.
  - destruct s; reflexivity.
  - reflexivity.
  - assert (Hsub : JS.sub (S754_finite s m e) (S754_finite s m e) = S754_zero false).
    { unfold JS.sub, SFsub. rewrite Z.sub_diag. reflexivity. }
    rewrite Hsub. destruct s; reflexivity.
Qed.

(** X2. A series whose samples all carry one and the same value is [stable],
    whatever the value (zero, infinite and NaN included), the times and the
    look-back. *)
Theorem getTrend_constant_series_stable :
  forall (vs : list App.Sample) (c : JS.number) (hoursBack : Z),
    (forall v, In v vs -> App.value v = c) ->
    App.getTrend (Some vs) hoursBack = App.stable.
Proof.
  intros vs c hoursBack Hc.
  destruct (getTrend_reference vs hoursBack)
    as [[_ H]|(_ & latest & Hin & _ & [[_ H]|(past & Hp & _ & _ & H)])];
    try exact H.
  rewrite H, (Hc latest Hin), (Hc past Hp). apply trend_of_same.
Qed.

Lemma getTrend_constant_series_stable_witness :
  App.getTrend
    (Some [App.mkSample 0 (JS.of_Z 250);
           App.mkSample (30 * 3600000) (JS.of_Z 250);
           App.mkSample (60 * 3600000) (JS.of_Z 250)]) 24 = App.stable.
Proof.
  apply (getTrend_constant_series_stable
           [App.mkSample 0 (JS.of_Z 250);
            App.mkSample (30 * 3600000) (JS.of_Z 250);
            App.mkSample (60 * 3600000) (JS.of_Z 250)] (JS.of_Z 250) 24).
  intros v [<-|[<-|[<-|[]]]]; reflexivity.
Defined.

Lemma time_determines_sample (vs : list App.Sample) :
  NoDup (map App.time vs) ->
  forall a b, In a vs -> In b vs -> App.time a = App.time b -> a = b.
Proof.
  induction vs as [|x vs IH]; intros Hnd a b Ha Hb Heq; [destruct Ha|].
  simpl in Hnd. inversion Hnd as [|? ? Hnotin Hnd']; subst.
  destruct Ha as [<-|Ha], Hb as [<-|Hb].
  - reflexivity.
  - exfalso. apply Hnotin. rewrite Heq. apply in_map, Hb.
  - exfalso. apply Hnotin. rewrite <- Heq. apply in_map, Ha.
  - apply IH; assumption.
Qed.

(** X3. On samples with pairwise distinct times the trend does not depend on
    the order of the array: two arrays with the same samples get the same
    classification. *)
Theorem getTrend_order_independent :
  forall (vs vs' : list App.Sample) (hoursBack : Z),
    Permutation vs vs' ->
    NoDup (map App.time vs) ->
    App.getTrend (Some vs) hoursBack = App.getTrend (Some vs') hoursBack.
Proof.
  intros vs vs' hoursBack Hperm Hnd.
  pose proof (Permutation_length Hperm) as Hlen.
  assert (Hto : forall v, In v vs' -> In v vs).
  { intros v Hv. apply (Permutation_in v (Permutation_sym Hperm) Hv). }
  assert (Hfrom : forall v, In v vs -> In v vs').
  { intros v Hv. apply (Permutation_in v Hperm Hv). }
  destruct (getTrend_reference vs hoursBack)
    as [[Hs H]|(Hl & latest & Hin & Hmax & Hcase)];
  destruct (getTrend_reference vs' hoursBack)
    as [[Hs' H']|(Hl' & latest' & Hin' & Hmax' & Hcase')]; try lia.
  - congruence.
  - assert (Hlatest : latest = latest').
    { apply (time_determines_sample vs Hnd); auto.
      specialize (Hmax latest' (Hto _ Hin')). specialize (Hmax' latest (Hfrom _ Hin)).
      lia. }
    subst latest'.
    destruct Hcase as [[Hnone H]|(past & Hp & Hpc & Hpmax & H)];
    destruct Hcase' as [[Hnone' H']|(past' & Hp' & Hpc' & Hpmax' & H')].
    + congruence.
    + specialize (Hnone past' (Hto _ Hp')). lia.
    + specialize (Hnone' past (Hfrom _ Hp)). lia.
    + assert (Hpast : past = past').
      { apply (time_determines_sample vs Hnd); auto.
        specialize (Hpmax past' (Hto _ Hp') Hpc').
        specialize (Hpmax' past (Hfrom _ Hp) Hpc). lia. }
      subst past'. congruence.
Qed.

Lemma getTrend_order_independent_witness :
  App.getTrend
    (Some [App.mkSample 0 (JS.of_Z 100);
           App.mkSample (12 * 3600000) (JS.of_Z 140);
           App.mkSample (24 * 3600000) (JS.of_Z 111)]) 24
  = App.getTrend
      (Some [App.mkSample (24 * 3600000) (JS.of_Z 111);
             App.mkSample 0 (JS.of_Z 100);
             App.mkSample (12 * 3600000) (JS.of_Z 140)]) 24.
Proof.
  apply (getTrend_order_independent
           [App.mkSample 0 (JS.of_Z 100);
            App.mkSample (12 * 3600000) (JS.of_Z 140);
            App.mkSample (24 * 3600000) (JS.of_Z 111)]
           [App.mkSample (24 * 3600000) (JS.of_Z 111);
            App.mkSample 0 (JS.of_Z 100);
            App.mkSample (12 * 3600000) (JS.of_Z 140)] 24).
  - apply Permutation_sym. apply Permutation_cons_append with (l := [_; _]).
  - simpl. repeat constructor; simpl; intuition discriminate.
Defined.

(** ** [downsample]: what is kept *)

Lemma downsample_shape {A : Type} (s : list A) (m : nat) :
  (1 <= m)%nat ->
  let step := ((length s + m - 1) / m)%nat in
  App.downsample (Some s) m
  = Some (if (length s <=? m)%nat then s
          else JS.filteri_from (fun (_ : A) n => (n mod step =? 0)%nat) s 0) /\
  ((m < length s)%nat ->
   (2 <= step)%nat /\ (step * m < length s + m) %nat /\ (length s <= step * m)%nat).
Proof.
  intros Hm step. unfold App.downsample.
  assert (Hbounds : (step * m < length s + m)%nat /\ (length s <= step * m)%nat).
  { unfold step.
    pose proof (Nat.div_mod_eq (length s + m - 1) m) as E.
    pose proof (Nat.mod_upper_bound (length s + m - 1) m ltac:(lia)) as B.
    nia. }
  split.
  - destruct (Nat.leb_spec (length s) m) as [Hle|Hgt]; [reflexivity|].
    destruct m as [|m']; [lia|]. cbn [App.ceil_div]. fold step.
    assert (Hk : (2 <= step)%nat) by nia.
    f_equal. unfold JS.filteri.
    destruct step as [|k]; [lia|]. reflexivity.
  - intro Hgt. split; [nia | exact Hbounds].
Qed.

(** X4. Downsampling twice to the same count changes nothing more: for a
    count of at least 1 the result already fits, and [downsample] returns it
    unchanged. *)
Theorem downsample_idempotent :
  forall (A : Type) (s : list A) (m : nat),
    (1 <= m)%nat ->
    exists r,
      App.downsample (Some s) m = Some r /\
      App.downsample (Some r) m = Some r.
Proof.
  intros A s m Hm.
  destruct (downsample_shape s m Hm) as [Hshape Hstep].
  eexists. split; [exact Hshape|].
  destruct (Nat.leb_spec (length s) m) as [Hle|Hgt].
  - unfold App.downsample. apply Nat.leb_le in Hle. rewrite Hle. reflexivity.
  - destruct (Hstep Hgt) as (Hk & Hlt & Hge).
    set (step := ((length s + m - 1) / m)%nat) in *.
    unfold App.downsample.
    rewrite (every_nth_length step ltac:(lia) s 0 0) by
      (try lia; apply Nat.Div0.mod_0_l).
    assert (Hfit : ((length s + step - 1 - 0) / step <= m)%nat).
    { apply Nat.lt_succ_r, Nat.Div0.div_lt_upper_bound. nia. }
    apply Nat.leb_le in Hfit. rewrite Hfit. reflexivity.
Qed.

Lemma downsample_idempotent_witness :
  exists r,
    App.downsample (Some [10; 11; 12; 13; 14; 15; 16; 17]%nat) 3 = Some r /\
    App.downsample (Some r) 3 = Some r.
Proof.
  apply (downsample_idempotent nat [10; 11; 12; 13; 14; 15; 16; 17]%nat 3). lia.
Defined.

(** X5. When an array is longer than the count [m >= 1], the thinned array
    starts with the first element, holds more than half of [m] elements, and
    ends with the element at the last multiple of the step below the length:
    the last element of the array is kept only when its index is a multiple
    of the step. *)
Theorem downsample_keeps_first_and_half :
  forall (A : Type) (s : list A) (m : nat),
    (1 <= m)%nat -> (m < length s)%nat ->
    let step := ((length s + m - 1) / m)%nat in
    exists r,
      App.downsample (Some s) m = Some r /\
      nth_error r 0 = nth_error s 0 /\
      (m < 2 * length r)%nat /\
      length r = S ((length s - 1) / step) /\
      nth_error r (length r - 1) = nth_error s (step * ((length s - 1) / step)).
Proof.
  intros A s m Hm Hgt step.
  destruct (downsample_shape s m Hm) as [Hshape Hstep].
  destruct (Hstep Hgt) as (Hk & Hlt & Hge). fold step in Hk, Hlt, Hge, Hshape.
  assert (Hnle : (length s <=? m)%nat = false) by (apply Nat.leb_gt; lia).
  rewrite Hnle in Hshape.
  eexists. split; [exact Hshape|].
  assert (Hlen : length (JS.filteri_from (fun (_ : A) n => (n mod step =? 0)%nat) s 0)
                 = S ((length s - 1) / step)).
  { rewrite (every_nth_length step ltac:(lia) s 0 0) by
      (try lia; apply Nat.Div0.mod_0_l).
    replace (length s + step - 1 - 0)%nat with ((length s - 1) + 1 * step)%nat by lia.
    rewrite Nat.div_add by lia. lia. }
  assert (Hlook : forall j,
             nth_error (JS.filteri_from (fun (_ : A) n => (n mod step =? 0)%nat) s 0) j
             = nth_error s (j * step)).
  { intro j. rewrite (every_nth_lookup step ltac:(lia) s 0 0 j) by
      (try lia; apply Nat.Div0.mod_0_l). reflexivity. }
  split; [apply (Hlook 0%nat)|]. split.
  - rewrite Hlen.
    pose proof (Nat.div_mod_eq (length s - 1) step) as E.
    pose proof (Nat.mod_upper_bound (length s - 1) step ltac:(lia)) as B.
    nia.
  - split; [exact Hlen|].
    rewrite Hlook, Hlen. f_equal. lia.
Qed.

Lemma downsample_keeps_first_and_half_witness :
  exists r,
    App.downsample (Some [10; 11; 12; 13; 14; 15; 16; 17]%nat) 3 = Some r /\
    nth_error r 0 = nth_error [10; 11; 12; 13; 14; 15; 16; 17]%nat 0 /\
    (3 < 2 * length r)%nat /\
    length r = S ((length [10; 11; 12; 13; 14; 15; 16; 17]%nat - 1)
                  / ((length [10; 11; 12; 13; 14; 15; 16; 17]%nat + 3 - 1) / 3)) /\
    nth_error r (length r - 1)
    = nth_error [10; 11; 12; 13; 14; 15; 16; 17]%nat
        (((length [10; 11; 12; 13; 14; 15; 16; 17]%nat + 3 - 1) / 3)
         * ((length [10; 11; 12; 13; 14; 15; 16; 17]%nat - 1)
            / ((length [10; 11; 12; 13; 14; 15; 16; 17]%nat + 3 - 1) / 3))).
Proof.
  apply (downsample_keeps_first_and_half nat [10; 11; 12; 13; 14; 15; 16; 17]%nat 3);
    simpl; lia.
Defined.

(** Eight samples thinned to three: the last one is dropped. *)
Example downsample_drops_last :
  App.downsample (Some [10; 11; 12; 13; 14; 15; 16; 17]%nat) 3 = Some [10; 13; 16]%nat.
Proof. reflexivity. Qed.

(* ===================================================================== *)
(** * Further properties of the hydrograph series                         *)
(* ===================================================================== *)

Lemma subseq_In {A : Type} (r s : list A) :
  subseq r s -> forall x, In x r -> In x s.
Proof.
  induction 1 as [|y r s _ IH|y r s _ IH]; intros x Hx.
  - destruct Hx.
  - right. apply IH, Hx.
  - destruct Hx as [<-|Hx]; [left; reflexivity | right; apply IH, Hx].
Qed.

Lemma subseq_sorted {A : Type} (R : A -> A -> Prop) (r s : list A) :
  subseq r s -> StronglySorted R s -> StronglySorted R r.
Proof.
  induction 1 as [|y r s Hsub IH|y r s Hsub IH]; intro Hs.
  - constructor.
  - inversion Hs; subst. apply IH. assumption.
  - inversion Hs as [|? ? Hs' Hall]; subst. constructor; [apply IH, Hs'|].
    rewrite Forall_forall in *. intros x Hx. apply Hall, (subseq_In _ _ Hsub), Hx.
Qed.

Lemma filter_subseq {A : Type} (p : A -> bool) (l : list A) : subseq (filter p l) l.
Proof.
  induction l as [|x l IH]; simpl; [constructor|].
  destruct (p x); constructor; exact IH.
Qed.

Lemma downsample_bounds {A : Type} (s : list A) (m : nat) :
  (1 <= m)%nat -> s <> [] ->
  exists r,
    App.downsample (Some s) m = Some r /\
    (1 <= length r <= m)%nat /\ subseq r s.
Proof.
  intros Hm Hne.
  destruct (downsample_shape s m Hm) as [Hshape Hstep].
  eexists. split; [exact Hshape|].
  destruct (Nat.leb_spec (length s) m) as [Hle|Hgt].
  - split; [|apply subseq_refl]. destruct s; [congruence|]. simpl in *. lia.
  - destruct (Hstep Hgt) as (Hk & Hlt & Hge).
    set (step := ((length s + m - 1) / m)%nat) in *.
    split; [|apply filteri_from_subseq].
    rewrite (every_nth_length step ltac:(lia) s 0 0) by
      (try lia; apply Nat.Div0.mod_0_l).
    split.
    + apply Nat.div_str_pos. lia.
    + apply Nat.lt_succ_r, Nat.Div0.div_lt_upper_bound. nia.
Qed.

Lemma alignTemps_length (waterTemp ds : list App.Sample) :
  match App.alignTemps waterTemp ds with
  | Some aligned => length aligned = length ds /\ waterTemp <> []
  | None => waterTemp = []
  end.
Proof.
  unfold App.alignTemps. destruct waterTemp as [|w0 ws]; [reflexivity|].
  cbn [length Nat.ltb Nat.leb].
  pose proof (sort_length (fun a b : App.Sample => App.time a - App.time b) (w0 :: ws))
    as Hlen.
  destruct (JS.sort _ (w0 :: ws)) as [|first others]; [discriminate|].
  split; [apply length_map | discriminate].
Qed.

Lemma last_some {A : Type} (l : list A) :
  match last (map Some l) None with
  | Some v => In v l
  | None => l = []
  end.
Proof.
  induction l as [|x l IH]; [reflexivity|].
  destruct l as [|y l]; [left; reflexivity|].
  change (last (map Some (x :: y :: l)) None) with (last (map Some (y :: l)) None).
  destruct (last (map Some (y :: l)) None); [right; exact IH | discriminate].
Qed.

Lemma sorted_last_greatest (l : list App.Sample) :
  StronglySorted (fun a b => App.time a - App.time b <= 0) l ->
  forall v, last (map Some l) None = Some v ->
  forall o, In o l -> App.time o <= App.time v.
Proof.
  induction 1 as [|x l Hs IH Hall]; intros v Hv o Ho; [destruct Ho|].
  destruct l as [|y l].
  - simpl in Hv. injection Hv as <-. destruct Ho as [<-|[]]. lia.
  - change (last (map Some (x :: y :: l)) None)
      with (last (map Some (y :: l)) None) in Hv.
    destruct Ho as [<-|Ho]; [|apply (IH v Hv o Ho)].
    pose proof (last_some (y :: l)) as Hlast. rewrite Hv in Hlast.
    rewrite Forall_forall in Hall. specialize (Hall v Hlast). lia.
Qed.

(** X6. A station without discharge gets no chart; otherwise the chart has
    between 1 and 80 observed points, and its three data series (observed
    discharge, forecast discharge with its connector, aligned temperature)
    all have one entry per label: the observed points followed by the
    forecast points. The temperature series exists exactly when the station
    has temperature samples. *)
Theorem hydrographData_series_aligned :
  forall discharge waterTemp forecast : list App.Sample,
    match App.hydrographData discharge waterTemp forecast with
    | None => discharge = []
    | Some h =>
        let n := (length (App.ds h) + length (App.futureFcast h))%nat in
        discharge <> [] /\
        (1 <= length (App.ds h) <= 80)%nat /\
        length (App.qObsData h) = n /\
        length (App.qFcastData h) = n /\
        match App.tData h with
        | Some t => length t = n /\ waterTemp <> []
        | None => waterTemp = []
        end
    end.
Proof.
  intros discharge waterTemp forecast. unfold App.hydrographData.
  set (cmp := fun a b : App.Sample => App.time a - App.time b).
  pose proof (sort_length cmp discharge) as Hlen.
  destruct (Nat.eqb_spec (length (JS.sort cmp discharge)) 0) as [Hz|Hnz].
  - rewrite Hlen in Hz. destruct discharge; [reflexivity | discriminate].
  - assert (Hne : JS.sort cmp discharge <> []).
    { intro E. rewrite E in Hnz. simpl in Hnz. lia. }
    destruct (downsample_bounds (JS.sort cmp discharge) 80 ltac:(lia) Hne)
      as (ds & Hds & Hbound & _).
    rewrite Hds. cbn [App.ds App.futureFcast App.qObsData App.qFcastData App.tData].
    split; [intro E; rewrite Hlen, E in Hnz; simpl in Hnz; lia|].
    split; [exact Hbound|].
    split; [rewrite length_app, length_map, repeat_length; reflexivity|].
    split.
    + rewrite !length_app, length_map, repeat_length. simpl. lia.
    + pose proof (alignTemps_length waterTemp ds) as Ha.
      destruct (App.alignTemps waterTemp ds) as [aligned|]; [|exact Ha].
      destruct Ha as [Ha Hw]. split; [|exact Hw].
      rewrite length_app, repeat_length, Ha. reflexivity.
Qed.

(** X7. In a chart the observed points are samples of the station's
    discharge in ascending time order, the forecast points are samples of its
    forecast in ascending time order, and every forecast point is strictly
    later than every observed point. *)
Theorem hydrographData_forecast_after_observed :
  forall discharge waterTemp forecast : list App.Sample,
    match App.hydrographData discharge waterTemp forecast with
    | None => True
    | Some h =>
        StronglySorted (fun a b => App.time a <= App.time b) (App.ds h) /\
        StronglySorted (fun a b => App.time a <= App.time b) (App.futureFcast h) /\
        (forall o, In o (App.ds h) -> In o discharge) /\
        (forall f, In f (App.futureFcast h) -> In f forecast) /\
        (forall o f, In o (App.ds h) -> In f (App.futureFcast h) ->
                     App.time o < App.time f)
    end.
Proof.
  intros discharge waterTemp forecast. unfold App.hydrographData.
  set (cmp := fun a b : App.Sample => App.time a - App.time b).
  assert (Hsorted : forall l, StronglySorted (fun a b => cmp a b <= 0) (JS.sort cmp l)).
  { intro l. apply sort_sorted; unfold cmp; intros; lia. }
  assert (Hle : forall l, StronglySorted (fun a b => cmp a b <= 0) l ->
                          StronglySorted (fun a b => App.time a <= App.time b) l).
  { induction 1 as [|x l Hs IH Hall]; constructor; [exact IH|].
    rewrite Forall_forall in *. intros y Hy. specialize (Hall y Hy).
    unfold cmp in Hall. lia. }
  destruct (length (JS.sort cmp discharge) =? 0)%nat eqn:Hz; [exact I|].
  assert (Hne : JS.sort cmp discharge <> []).
  { intro E. rewrite E in Hz. discriminate. }
  destruct (downsample_bounds (JS.sort cmp discharge) 80 ltac:(lia) Hne)
    as (ds & Hds & _ & Hsub).
  rewrite Hds. cbn [App.ds App.futureFcast].
  pose proof (subseq_sorted _ _ _ Hsub (Hsorted discharge)) as Hds_sorted.
  split; [apply Hle, Hds_sorted|].
  split.
  { apply Hle. eapply subseq_sorted; [apply filter_subseq | apply Hsorted]. }
  split.
  { intros o Ho. apply (sort_In cmp discharge), (subseq_In _ _ Hsub), Ho. }
  split.
  { intros f Hf. apply filter_In in Hf. apply (sort_In cmp forecast), Hf. }
  intros o f Ho Hf. apply filter_In in Hf. destruct Hf as [_ Hf].
  apply Z.ltb_lt in Hf.
  pose proof (last_some ds) as Hlast.
  destruct (last (map Some ds) None) as [v|] eqn:Hv.
  - pose proof (sorted_last_greatest ds Hds_sorted v Hv o Ho). lia.
  - subst ds. destruct Ho.
Qed.

(* ===================================================================== *)
(** * Further properties of the reservoir-agency CSV parser               *)
(* ===================================================================== *)

(** ** Numbers: arithmetic that cannot produce NaN *)

Lemma binary_round_aux_not_nan (s : bool) (m e : Z) (l : location) :
  0 <= m -> JS.isNaN (binary_round_aux 53 1024 s m e l) = false.
Proof.
  intro Hm. unfold binary_round_aux.
  pose proof (shr_fexp_nonneg m e l Hm) as H1.
  destruct (shr_fexp 53 1024 m e l) as [mrs' e']. simpl in H1.
  pose proof (shr_fexp_nonneg
                (round_nearest_even (shr_m mrs') (loc_of_shr_record mrs')) e'
                loc_Exact (round_nearest_even_nonneg _ _ H1)) as H2.
  destruct (shr_fexp 53 1024 _ e' loc_Exact) as [mrs'' e'']. simpl in H2.
  destruct (shr_m mrs'') as [|p|p]; simpl; [reflexivity| |lia].
  destruct (e'' <=? _); reflexivity.
Qed.

Lemma binary_round_not_nan (s : bool) (m : positive) (e : Z) :
  JS.isNaN (binary_round 53 1024 s m e) = false.
Proof.
  unfold binary_round.
  destruct (shl_align m e _) as [mz ez].
  apply binary_round_aux_not_nan. lia.
Qed.

Lemma binary_normalize_not_nan (m e : Z) (szero : bool) :
  JS.isNaN (binary_normalize 53 1024 m e szero) = false.
Proof.
  unfold binary_normalize.
  destruct m; [reflexivity | apply binary_round_not_nan | apply binary_round_not_nan].
Qed.

Lemma mul_finite_not_nan (x : JS.number) (s : bool) (m : positive) (e : Z) :
  JS.isNaN x = false -> JS.isNaN (JS.mul x (S754_finite s m e)) = false.
Proof.
  destruct x as [sx|sx| |sx mx ex]; intro H; try discriminate H; try reflexivity.
  apply binary_round_aux_not_nan. lia.
Qed.

Lemma div_finite_not_nan (x : JS.number) (s : bool) (m : positive) (e : Z) :
  JS.isNaN x = false -> JS.isNaN (JS.div x (S754_finite s m e)) = false.
Proof.
  destruct x as [sx|sx| |sx mx ex]; intro H; try discriminate H; try reflexivity.
  unfold JS.div, SFdiv, SFdiv_core_binary.
  set (m' := match _ - _ - _ with Z0 => Zpos mx | Zpos _ => _ | Zneg _ => 0 end).
  assert (Hm' : 0 <= m').
  { unfold m'. destruct (_ - _ - _); try lia. apply Z.shiftl_nonneg. lia. }
  pose proof (Z.div_pos m' (Zpos m) Hm' ltac:(lia)) as Hq.
  unfold Z.div in Hq.
  destruct (Z.div_eucl m' (Zpos m)) as [q r]. simpl in Hq. simpl.
  apply binary_round_aux_not_nan, Hq.
Qed.

Lemma add_finite_not_nan (x : JS.number) (s : bool) (m : positive) (e : Z) :
  JS.isNaN x = false -> JS.isNaN (JS.add x (S754_finite s m e)) = false.
Proof.
  destruct x as [sx|sx| |sx mx ex]; intro H; try discriminate H; try reflexivity.
  unfold JS.add, SFadd. apply binary_normalize_not_nan.
Qed.

Lemma sub_finite_not_nan (x : JS.number) (s : bool) (m : positive) (e : Z) :
  JS.isNaN x = false -> JS.isNaN (JS.sub x (S754_finite s m e)) = false.
Proof.
  destruct x as [sx|sx| |sx mx ex]; intro H; try discriminate H; try reflexivity.
  unfold JS.sub, SFsub. apply binary_normalize_not_nan.
Qed.

(** [c * 9 / 5 + 32] is a number whenever [c] is. *)
Lemma celsius_to_fahrenheit_not_nan (c : JS.number) :
  JS.isNaN c = false ->
  JS.isNaN (JS.add (JS.div (JS.mul c (JS.of_Z 9)) (JS.of_Z 5)) (JS.of_Z 32)) = false.
Proof.
  intro H.
  let nine := eval vm_compute in (JS.of_Z 9) in change (JS.of_Z 9) with nine.
  let five := eval vm_compute in (JS.of_Z 5) in change (JS.of_Z 5) with five.
  let freezing := eval vm_compute in (JS.of_Z 32) in change (JS.of_Z 32) with freezing.
  apply add_finite_not_nan, div_finite_not_nan, mul_finite_not_nan, H.
Qed.

(** ** Strings and arrays *)

Lemma substring_all (p : string) : String.substring 0 (String.length p) p = p.
Proof. induction p as [|c p IH]; simpl; [reflexivity | rewrite IH; reflexivity]. Qed.

Lemma substring_app_suffix (s p : string) :
  String.substring (String.length s) (String.length p) (s ++ p) = p.
Proof. induction s as [|c s IH]; simpl; [apply substring_all | exact IH]. Qed.

Lemma endsWith_app (s p : string) : JS.endsWith (s ++ p) p = true.
Proof.
  unfold JS.endsWith. rewrite string_app_length.
  replace (String.length p <=? String.length s + String.length p)%nat with true
    by (symmetry; apply Nat.leb_le; lia).
  replace (String.length s + String.length p - String.length p)%nat
    with (String.length s) by lia.
  rewrite substring_app_suffix. apply String.eqb_refl.
Qed.

Lemma own_column_is_suffix_column (station suffix h : string) :
  String.eqb h (station ++ suffix) || JS.endsWith h suffix = JS.endsWith h suffix.
Proof.
  destruct (String.eqb_spec h (station ++ suffix)) as [->|_]; [|reflexivity].
  rewrite endsWith_app. reflexivity.
Qed.

Lemma findIndex_from_ext {A : Type} (p q : A -> bool) (l : list A) :
  (forall x, p x = q x) ->
  forall i, JS.findIndex_from p l i = JS.findIndex_from q l i.
Proof.
  intro H. induction l as [|x l IH]; intro i; simpl; [reflexivity|].
  rewrite H, IH. reflexivity.
Qed.

Lemma findIndex_from_range {A : Type} (p : A -> bool) (l : list A) :
  forall i, 0 <= i ->
    JS.findIndex_from p l i = -1 \/
    (i <= JS.findIndex_from p l i < i + Z.of_nat (length l)).
Proof.
  induction l as [|x l IH]; intros i Hi; [left; reflexivity|].
  cbn [JS.findIndex_from length]. destruct (p x); [right; lia|].
  destruct (IH (i + 1) ltac:(lia)) as [E|E]; [left; exact E | right; lia].
Qed.

Lemma findIndex_from_shift {A : Type} (p : A -> bool) (l : list A) :
  forall i k, 0 <= i ->
    JS.findIndex_from p l (i + k)
    = if JS.findIndex_from p l i <? 0 then -1 else JS.findIndex_from p l i + k.
Proof.
  induction l as [|x l IH]; intros i k Hi; simpl; [reflexivity|].
  destruct (p x).
  - destruct (Z.ltb_spec i 0); [lia | reflexivity].
  - replace (i + k + 1) with (i + 1 + k) by lia. apply IH. lia.
Qed.

Lemma findIndex_from_app_none {A : Type} (p : A -> bool) (pre l : list A) :
  (forall x, In x pre -> p x = false) ->
  forall i,
    JS.findIndex_from p (pre ++ l) i
    = JS.findIndex_from p l (i + Z.of_nat (length pre)).
Proof.
  induction pre as [|x pre IH]; intros H i.
  - simpl. f_equal. lia.
  - cbn [app JS.findIndex_from length]. rewrite (H x (or_introl eq_refl)).
    rewrite IH by (intros y Hy; apply H; right; exact Hy).
    f_equal. lia.
Qed.

Lemma split_nonempty (sep : ascii) (s : string) : JS.split sep s <> [].
Proof.
  destruct s as [|c s]; simpl; [discriminate|].
  destruct (Ascii.eqb c sep); [discriminate|].
  destruct (JS.split sep s); discriminate.
Qed.

Lemma split_app (sep : ascii) (a b : string) :
  JS.split sep (a ++ String sep b) = JS.split sep a ++ JS.split sep b.
Proof.
  induction a as [|c a IH].
  - simpl. rewrite Ascii.eqb_refl. reflexivity.
  - cbn [String.append JS.split]. rewrite IH.
    destruct (Ascii.eqb c sep); [reflexivity|].
    pose proof (split_nonempty sep a) as Hne.
    destruct (JS.split sep a) as [|h t]; [congruence | reflexivity].
Qed.

(** The non-blank lines of a response, trimmed: what the parser works on. *)
Lemma usbr_lines_app (pre rest : string) :
  filter JS.truthy
    (map JS.trim (JS.split (ascii_of_nat 10) (pre ++ String (ascii_of_nat 10) rest)))
  = filter JS.truthy (map JS.trim (JS.split (ascii_of_nat 10) pre))
    ++ filter JS.truthy (map JS.trim (JS.split (ascii_of_nat 10) rest)).
Proof. rewrite split_app, map_app, filter_app. reflexivity. Qed.

(** X8. The parser never uses the station code: the discharge column is the
    first header that ends in [_q] and the temperature column the first that
    ends in [_tw], whatever station the response was requested for (the
    station's own column name ends in the same suffix). *)
Theorem parseUSBRCSV_ignores_station :
  forall (Date_parse : string -> option Z) (text station station' : string),
    App.parseUSBRCSV Date_parse text station
    = App.parseUSBRCSV Date_parse text station'.
Proof.
  intros Date_parse text station station'. unfold App.parseUSBRCSV. cbv zeta.
  destruct (length _ <? 2)%nat; [reflexivity|].
  destruct (JS.findIndex _ _ <? 0); [reflexivity|].
  destruct (JS.index _ _) as [header|]; [|reflexivity].
  unfold JS.findIndex.
  rewrite (findIndex_from_ext
             (fun h => String.eqb h (station ++ "_q") || JS.endsWith h "_q")
             (fun h => JS.endsWith h "_q") _
             (own_column_is_suffix_column station "_q")).
  rewrite (findIndex_from_ext
             (fun h => String.eqb h (station' ++ "_q") || JS.endsWith h "_q")
             (fun h => JS.endsWith h "_q") _
             (own_column_is_suffix_column station' "_q")).
  rewrite (findIndex_from_ext
             (fun h => String.eqb h (station ++ "_tw") || JS.endsWith h "_tw")
             (fun h => JS.endsWith h "_tw") _
             (own_column_is_suffix_column station "_tw")).
  rewrite (findIndex_from_ext
             (fun h => String.eqb h (station' ++ "_tw") || JS.endsWith h "_tw")
             (fun h => JS.endsWith h "_tw") _
             (own_column_is_suffix_column station' "_tw")).
  reflexivity.
Qed.

(** X9. Lines in front of the header are skipped: when no line of [pre]
    starts with [datetime] (trimmed, in any case), a response that consists
    of [pre], a line break and [rest] parses to what [rest] alone parses
    to. *)
Theorem parseUSBRCSV_skips_preamble :
  forall (Date_parse : string -> option Z) (pre rest station : string),
    (forall l, In l (JS.split (ascii_of_nat 10) pre) ->
               JS.startsWith (JS.toLowerCase (JS.trim l)) "datetime" = false) ->
    App.parseUSBRCSV Date_parse (pre ++ String (ascii_of_nat 10) rest) station
    = App.parseUSBRCSV Date_parse rest station.
Proof.
  intros Date_parse pre rest station Hpre. unfold App.parseUSBRCSV. cbv zeta.
  rewrite usbr_lines_app.
  set (P := filter JS.truthy (map JS.trim (JS.split (ascii_of_nat 10) pre))).
  set (R := filter JS.truthy (map JS.trim (JS.split (ascii_of_nat 10) rest))).
  set (isHeader := fun l : string => JS.startsWith (JS.toLowerCase l) "datetime").
  assert (HP : forall l, In l P -> isHeader l = false).
  { intros l Hl. apply filter_In in Hl. destruct Hl as [Hl _].
    apply in_map_iff in Hl. destruct Hl as (l0 & <- & Hl0). apply Hpre, Hl0. }
  unfold JS.findIndex.
  rewrite (findIndex_from_app_none isHeader P R HP 0).
  rewrite (findIndex_from_shift isHeader R 0 (Z.of_nat (length P)) ltac:(lia)).
  destruct (findIndex_from_range isHeader R 0 ltac:(lia)) as [Hnone|Hsome].
  - rewrite Hnone. simpl.
    destruct (length (P ++ R) <? 2)%nat; destruct (length R <? 2)%nat; reflexivity.
  - set (idx := JS.findIndex_from isHeader R 0) in *.
    destruct (Z.ltb_spec idx 0) as [Hneg|_]; [lia|].
    destruct (Z.ltb_spec (idx + Z.of_nat (length P)) 0) as [Hneg|_]; [lia|].
    assert (Hidx : JS.index (P ++ R) (idx + Z.of_nat (length P)) = JS.index R idx).
    { unfold JS.index.
      destruct (Z.ltb_spec (idx + Z.of_nat (length P)) 0); [lia|].
      destruct (Z.ltb_spec idx 0); [lia|].
      replace (Z.to_nat (idx + Z.of_nat (length P)))
        with (length P + Z.to_nat idx)%nat by lia.
      rewrite nth_error_app2 by lia. f_equal. lia. }
    assert (Hrows : skipn (Z.to_nat (idx + Z.of_nat (length P) + 1)) (P ++ R)
                    = skipn (Z.to_nat (idx + 1)) R).
    { replace (Z.to_nat (idx + Z.of_nat (length P) + 1))
        with (length P + Z.to_nat (idx + 1))%nat by lia.
      rewrite skipn_app.
      replace (length P + Z.to_nat (idx + 1) - length P)%nat
        with (Z.to_nat (idx + 1)) by lia.
      rewrite skipn_all2 by lia. reflexivity. }
    rewrite Hidx, Hrows.
    assert (Hfew : (length R < 2)%nat -> skipn (Z.to_nat (idx + 1)) R = []).
    { intro Hlt. apply skipn_all2. lia. }
    rewrite length_app.
    destruct (Nat.ltb_spec (length P + length R) 2) as [Hshort|Hlong];
      destruct (Nat.ltb_spec (length R) 2) as [HshortR|HlongR];
      try reflexivity; try lia.
    + destruct (JS.index R idx); [|reflexivity].
      rewrite (Hfew HshortR). reflexivity.
Qed.

(** The preamble [<pre>] in front of the documented response. *)
Lemma parseUSBRCSV_skips_preamble_witness :
  (forall l, In l (JS.split (ascii_of_nat 10) "<pre>") ->
             JS.startsWith (JS.toLowerCase (JS.trim l)) "datetime" = false) /\
  App.parseUSBRCSV Browser.Date_parse
    ("<pre>" ++ String (ascii_of_nat 10) usbr_example_text) "easw"
  = App.parseUSBRCSV Browser.Date_parse usbr_example_text "easw".
Proof.
  assert (H : forall l, In l (JS.split (ascii_of_nat 10) "<pre>") ->
             JS.startsWith (JS.toLowerCase (JS.trim l)) "datetime" = false).
  { intros l [<-|[]]. reflexivity. }
  split; [exact H|].
  apply (parseUSBRCSV_skips_preamble Browser.Date_parse "<pre>" usbr_example_text
           "easw" H).
Defined.

Lemma parseUSBRRow_invariant (Date_parse : string -> option Z) (qIdx twIdx : Z)
      (n : nat) (out : App.Series) (line : string) :
  usbr_rows_invariant n out ->
  usbr_rows_invariant (S n) (App.parseUSBRRow Date_parse qIdx twIdx out line).
Proof.
  intros (Hg & Hq & Ht & Hnq & Hnt).
  assert (Hweak : usbr_rows_invariant (S n) out).
  { repeat split; auto. }
  unfold App.parseUSBRRow.
  destruct (length (JS.split "," line) <? 2)%nat; [exact Hweak|].
  destruct (Date_parse _) as [dt|]; [|exact Hweak].
  set (val := match JS.index (JS.split "," line) qIdx with
              | Some c => JS.parseFloat c
              | None => JS.NaN
              end).
  set (valC := match JS.index (JS.split "," line) twIdx with
               | Some c => JS.parseFloat c
               | None => JS.NaN
               end).
  set (out1 := if 0 <=? qIdx then _ else out).
  assert (H1 : App.gageHeight out1 = [] /\
               Forall (fun s => JS.isNaN (App.value s) = false) (App.discharge out1) /\
               App.waterTemp out1 = App.waterTemp out /\
               (length (App.discharge out1) <= S n)%nat).
  { unfold out1. destruct (0 <=? qIdx); [|repeat split; auto].
    destruct (JS.isNaN val) eqn:Hnan; simpl; [repeat split; auto|].
    destruct (JS.ge val _); simpl; [|repeat split; auto].
    split; [exact Hg|]. split; [|split; [reflexivity|]].
    - apply Forall_app. split; [exact Hq|]. constructor; [exact Hnan | constructor].
    - rewrite length_app. simpl. lia. }
  clearbody out1. destruct H1 as (Hg1 & Hq1 & Ht1 & Hn1).
  destruct (0 <=? twIdx).
  - destruct (JS.isNaN valC) eqn:Hnan; simpl.
    + unfold usbr_rows_invariant. rewrite Ht1. repeat split; auto.
    + unfold usbr_rows_invariant. simpl. rewrite Ht1.
      split; [exact Hg1|]. split; [exact Hq1|]. split; [|split; [exact Hn1|]].
      * apply Forall_app. split; [exact Ht|].
        constructor; [|constructor]. simpl.
        apply celsius_to_fahrenheit_not_nan, Hnan.
      * rewrite length_app. simpl. lia.
  - unfold usbr_rows_invariant. rewrite Ht1. repeat split; auto.
Qed.

Lemma parseUSBRRows_invariant (Date_parse : string -> option Z) (qIdx twIdx : Z)
      (rows : list string) :
  forall n out,
    usbr_rows_invariant n out ->
    usbr_rows_invariant (n + length rows)
      (fold_left (App.parseUSBRRow Date_parse qIdx twIdx) rows out).
Proof.
  induction rows as [|r rows IH]; intros n out H; simpl.
  - rewrite Nat.add_0_r. exact H.
  - replace (n + S (length rows))%nat with (S n + length rows)%nat by lia.
    apply IH, parseUSBRRow_invariant, H.
Qed.

(** X10. Whatever the response, the parser leaves the gage-height series
    empty, stores no NaN in the discharge or water-temperature series (the
    Fahrenheit conversion of a number is a number), and stores at most one
    discharge and one temperature sample per line below the first non-blank
    line. *)
Theorem parseUSBRCSV_series_shape :
  forall (Date_parse : string -> option Z) (text station : string),
    let parsed := App.parseUSBRCSV Date_parse text station in
    let lines := filter JS.truthy (map JS.trim (JS.split (ascii_of_nat 10) text)) in
    App.gageHeight parsed = [] /\
    (forall s, In s (App.discharge parsed ++ App.waterTemp parsed) ->
               JS.isNaN (App.value s) = false) /\
    (length (App.discharge parsed) <= length lines - 1)%nat /\
    (length (App.waterTemp parsed) <= length lines - 1)%nat.
Proof.
  intros Date_parse text station parsed lines.
  assert (Hinv : usbr_rows_invariant (length lines - 1) parsed).
  { assert (Hempty : forall n, usbr_rows_invariant n (App.mkSeries [] [] [])).
    { intro n. unfold usbr_rows_invariant. simpl.
      repeat split; auto; lia. }
    unfold parsed, App.parseUSBRCSV. cbv zeta. fold lines.
    destruct (length lines <? 2)%nat; [apply Hempty|].
    unfold JS.findIndex.
    set (isHeader := fun l : string => JS.startsWith (JS.toLowerCase l) "datetime").
    destruct (findIndex_from_range isHeader lines 0 ltac:(lia)) as [Hnone|Hsome].
    - rewrite Hnone. apply Hempty.
    - set (idx := JS.findIndex_from isHeader lines 0) in *.
      destruct (idx <? 0); [apply Hempty|].
      destruct (JS.index lines idx); [|apply Hempty].
      set (rows := skipn (Z.to_nat (idx + 1)) lines).
      assert (Hrows : (length rows <= length lines - 1)%nat).
      { unfold rows. rewrite length_skipn. lia. }
      pose proof (parseUSBRRows_invariant Date_parse
                    (JS.findIndex_from
                       (fun h => String.eqb h (station ++ "_q") || JS.endsWith h "_q")
                       (map (fun h => JS.toLowerCase (JS.trim h)) (JS.split "," s)) 0)
                    (JS.findIndex_from
                       (fun h => String.eqb h (station ++ "_tw") || JS.endsWith h "_tw")
                       (map (fun h => JS.toLowerCase (JS.trim h)) (JS.split "," s)) 0)
                    rows 0 _ (Hempty 0%nat)) as (Hg & Hq & Ht & Hnq & Hnt).
      unfold usbr_rows_invariant. simpl in Hnq, Hnt.
      repeat split; auto; lia. }
  destruct Hinv as (Hg & Hq & Ht & Hnq & Hnt).
  split; [exact Hg|]. split; [|split; assumption].
  intros s Hs. apply in_app_or in Hs. rewrite Forall_forall in Hq, Ht.
  destruct Hs as [Hs|Hs]; [apply Hq, Hs | apply Ht, Hs].
Qed.

(* ===================================================================== *)
(** * Further properties of the forecast-center temperature parser        *)
(* ===================================================================== *)

Lemma subseq_nil_l {A : Type} (l : list A) : subseq [] l.
Proof. induction l; constructor; assumption. Qed.

Lemma subseq_app {A : Type} (a b c d : list A) :
  subseq a b -> subseq c d -> subseq (a ++ c) (b ++ d).
Proof.
  intros Hab Hcd. induction Hab; simpl; [exact Hcd | |]; constructor; assumption.
Qed.

Lemma parseNWRFCTempHTML_by_match (Date_parse : string -> option Z) (now : Z)
      (html : string) (days : Z) :
  App.parseNWRFCTempHTML Date_parse now html days
  = flat_map (nwrfc_sample Date_parse (App.Date_of_time (now - days * 86400000)))
             (App.exec_all 0 html).
Proof.
  unfold App.parseNWRFCTempHTML. cbv zeta.
  set (cutoff := App.Date_of_time _).
  set (step := fun (out : list App.Sample) (m : string * string) => _).
  assert (H : forall ms out,
            fold_left step ms out = out ++ flat_map (nwrfc_sample Date_parse cutoff) ms).
  { induction ms as [|m ms IH]; intro out; simpl.
    - rewrite app_nil_r. reflexivity.
    - rewrite IH. unfold step, nwrfc_sample.
      destruct (Date_parse (fst m)) as [dt|]; [|reflexivity].
      destruct cutoff as [c|]; [|reflexivity].
      destruct ((c <=? dt) && negb (JS.isNaN (JS.parseFloat (snd m)))).
      + rewrite <- app_assoc. reflexivity.
      + reflexivity. }
  apply H.
Qed.

(** X11. The window of the temperature parser: a window that reaches back
    beyond the range of a [Date] gives an invalid cutoff and no sample at
    all; otherwise widening the window ([days <= days']) only adds samples,
    and those of the narrower window stay in the same order. *)
Theorem parseNWRFCTempHTML_window :
  forall (Date_parse : string -> option Z) (now : Z) (html : string) (days : Z),
    (8640000000000000 < Z.abs (now - days * 86400000) ->
     App.parseNWRFCTempHTML Date_parse now html days = []) /\
    (forall days',
       days <= days' ->
       Z.abs (now - days' * 86400000) <= 8640000000000000 ->
       subseq (App.parseNWRFCTempHTML Date_parse now html days)
              (App.parseNWRFCTempHTML Date_parse now html days')).
Proof.
  intros Date_parse now html days. rewrite parseNWRFCTempHTML_by_match. split.
  - intro Hout. unfold App.Date_of_time.
    destruct (Z.leb_spec (Z.abs (now - days * 86400000)) 8640000000000000); [lia|].
    induction (App.exec_all 0 html) as [|m ms IH]; [reflexivity|].
    simpl. rewrite IH. unfold nwrfc_sample.
    destruct (Date_parse (fst m)); reflexivity.
  - intros days' Hle Hin. rewrite parseNWRFCTempHTML_by_match.
    unfold App.Date_of_time at 2.
    destruct (Z.leb_spec (Z.abs (now - days' * 86400000)) 8640000000000000); [|lia].
    induction (App.exec_all 0 html) as [|m ms IH]; [constructor|].
    simpl. apply subseq_app; [|exact IH].
    unfold nwrfc_sample, App.Date_of_time.
    destruct (Date_parse (fst m)) as [dt|]; [|constructor].
    destruct (Z.abs (now - days * 86400000) <=? 8640000000000000);
      [|apply subseq_nil_l].
    destruct (JS.isNaN (JS.parseFloat (snd m))); simpl.
    + rewrite !andb_false_r. constructor.
    + rewrite !andb_true_r.
      destruct (Z.leb_spec (now - days * 86400000) dt);
        destruct (Z.leb_spec (now - days' * 86400000) dt);
        try lia; try apply subseq_refl; apply subseq_nil_l.
Qed.

(* ===================================================================== *)
(** * Further properties of the point-forecast parser                     *)
(* ===================================================================== *)

Lemma at_or_missing (arr : list (option JS.number)) (i : nat) (dflt : JS.number) :
  missing arr i -> App.at_or arr i dflt = dflt.
Proof.
  unfold missing, App.at_or.
  destruct (nth_error arr i) as [[x|]|]; [contradiction | reflexivity | reflexivity].
Qed.

Lemma at_or_not_nan (arr : list (option JS.number)) (i : nat) (dflt : JS.number) :
  (forall x, In (Some x) arr -> JS.isNaN x = false) ->
  JS.isNaN dflt = false ->
  JS.isNaN (App.at_or arr i dflt) = false.
Proof.
  intros Harr Hd. unfold App.at_or.
  destruct (nth_error arr i) as [[x|]|] eqn:E; try exact Hd.
  apply Harr, (nth_error_In _ _ E).
Qed.

Lemma kToF_not_nan (k : JS.number) :
  JS.isNaN k = false -> JS.isNaN (App.kToF k) = false.
Proof.
  intro H. unfold App.kToF.
  apply celsius_to_fahrenheit_not_nan.
  let zero_celsius := eval vm_compute in (JS.lit 27315 (-2)) in
  change (JS.lit 27315 (-2)) with zero_celsius.
  apply sub_finite_not_nan, H.
Qed.

Lemma windChill_calm (Math_pow : JS.number -> JS.number -> JS.number) (t : JS.number) :
  App.windChill Math_pow t JS.zero = t.
Proof.
  unfold App.windChill.
  replace (JS.ge JS.zero (JS.of_Z 3)) with false by (vm_compute; reflexivity).
  rewrite andb_false_r. reflexivity.
Qed.

(** X12. What the parser reports where the response has no data. Without
    timesteps there are no daily entries and the current conditions are read
    at index 0. At the current timestep, a missing temperature reads as
    exactly 32 degrees Fahrenheit, missing wind components as no wind (and
    then the felt temperature is the temperature itself, whatever
    [Math.pow] does), and a missing gust, humidity or precipitation as 0. *)
Theorem parseWindyResponse_missing_data :
  forall (Math_pow : JS.number -> JS.number -> JS.number)
         (toLocaleDateString : Z -> string -> string -> string)
         (now : Z) (raw : App.WindyRaw),
    let parsed := App.parseWindyResponse Math_pow toLocaleDateString now raw in
    let i := App.curIdx_loop now (App.orEmpty (App.raw_ts raw)) 0 0 in
    let cur := App.current parsed in
    (App.orEmpty (App.raw_ts raw) = [] ->
     App.daily parsed = [] /\ cur = App.currentAt Math_pow raw 0) /\
    (missing (App.orEmpty (App.raw_temp_surface raw)) i ->
     App.temp cur = JS.of_Z 32) /\
    (missing (App.orEmpty (App.raw_wind_u_surface raw)) i ->
     missing (App.orEmpty (App.raw_wind_v_surface raw)) i ->
     App.windSpeed cur = JS.zero /\ App.feelsLike cur = App.temp cur) /\
    (missing (App.orEmpty (App.raw_gust_surface raw)) i -> App.gust cur = JS.zero) /\
    (missing (App.orEmpty (App.raw_rh_surface raw)) i -> App.humidity cur = JS.zero) /\
    (missing (App.orEmpty (App.raw_past3hprecip_surface raw)) i ->
     App.precip3h cur = JS.zero).
Proof.
  intros Math_pow toLocaleDateString now raw parsed i cur.
  assert (Hcur : cur = App.currentAt Math_pow raw i) by reflexivity.
  split; [|split; [|split; [|split; [|split]]]].
  - intro Hts. split.
    + unfold parsed, App.parseWindyResponse. cbv zeta. rewrite Hts. reflexivity.
    + rewrite Hcur. unfold i. rewrite Hts. reflexivity.
  - intro Hm. rewrite Hcur. unfold App.currentAt. cbn [App.temp].
    rewrite (at_or_missing _ _ _ Hm). vm_compute. reflexivity.
  - intros Hu Hv. rewrite Hcur. unfold App.currentAt.
    cbn [App.windSpeed App.feelsLike App.temp].
    assert (Hspeed :
      App.msToMph
        (App.speed
           (match nth_error (App.orEmpty (App.raw_wind_u_surface raw)) i with
            | Some x => x | None => None end)
           (match nth_error (App.orEmpty (App.raw_wind_v_surface raw)) i with
            | Some x => x | None => None end)) = JS.zero).
    { unfold missing in Hu, Hv.
      destruct (nth_error (App.orEmpty (App.raw_wind_u_surface raw)) i) as [[u|]|];
        try contradiction;
        destruct (nth_error (App.orEmpty (App.raw_wind_v_surface raw)) i) as [[v|]|];
        try contradiction; vm_compute; reflexivity. }
    rewrite Hspeed. split; [reflexivity | apply windChill_calm].
  - intro Hm. rewrite Hcur. unfold App.currentAt. cbn [App.gust].
    rewrite (at_or_missing _ _ _ Hm). vm_compute. reflexivity.
  - intro Hm. rewrite Hcur. unfold App.currentAt. cbn [App.humidity].
    rewrite (at_or_missing _ _ _ Hm). vm_compute. reflexivity.
  - intro Hm. rewrite Hcur. unfold App.currentAt. cbn [App.precip3h].
    rewrite (at_or_missing _ _ _ Hm). vm_compute. reflexivity.
Qed.

Lemma firstn_incl {A : Type} (n : nat) (l : list A) :
  forall x, In x (firstn n l) -> In x l.
Proof.
  intros x Hx. rewrite <- (firstn_skipn n l). apply in_or_app. left; exact Hx.
Qed.

(** Every entry of the day map holds at least one temperature, and each of
    its temperatures is the conversion of an entry of the response or of the
    default. *)
Lemma dayMap_entries (toLocaleDateString : Z -> string -> string -> string)
      (tempK precM : list (option JS.number)) (ts : list Z) (e : string * App.DayAcc) :
  In e (App.dayMap_loop toLocaleDateString tempK precM ts 0 []) ->
  App.temps (snd e) <> [] /\
  forall x, In x (App.temps (snd e)) ->
            exists i, x = App.kToF (App.at_or tempK i (JS.lit 27315 (-2))).
Proof.
  set (key := App.dateKey toLocaleDateString).
  change (@nil (string * App.DayAcc)) with (grouped key tempK precM []).
  unfold key. rewrite dayMap_loop_grouped. cbn [app]. fold key.
  set (steps := timesteps ts 0).
  unfold grouped. intro He. apply in_map_iff in He.
  destruct He as (k & <- & Hk). apply (proj1 (first_occurrences_In _ _)) in Hk.
  unfold step_keys in Hk. apply in_map_iff in Hk. destruct Hk as ([j t] & Hkey & Hjt).
  simpl in Hkey. cbn [day_entry snd day_acc App.temps]. split.
  - unfold day_temps. intro Hnil. apply map_eq_nil in Hnil.
    assert (Hin : In (j, t) (on_day key k steps)).
    { unfold on_day. apply filter_In. split; [exact Hjt|].
      simpl. rewrite Hkey. apply String.eqb_refl. }
    rewrite Hnil in Hin. destruct Hin.
  - intros x Hx. unfold day_temps in Hx. apply in_map_iff in Hx.
    destruct Hx as ([i t'] & <- & _). exists i. reflexivity.
Qed.

(** X13. When no temperature of the response is NaN, every daily entry has
    a high and a low that are numbers, and the low is at most the high:
    the conversion to Fahrenheit never turns a number into NaN, and every
    day of the output has at least one timestep. *)
Theorem parseWindyResponse_daily_low_below_high :
  forall (Math_pow : JS.number -> JS.number -> JS.number)
         (toLocaleDateString : Z -> string -> string -> string)
         (now : Z) (raw : App.WindyRaw),
    (forall x, In (Some x) (App.orEmpty (App.raw_temp_surface raw)) ->
               JS.isNaN x = false) ->
    forall d,
      In d (App.daily (App.parseWindyResponse Math_pow toLocaleDateString now raw)) ->
      JS.isNaN (App.high d) = false /\
      JS.isNaN (App.low d) = false /\
      JS.le (App.low d) (App.high d) = true.
Proof.
  intros Math_pow toLocaleDateString now raw Hraw d Hd.
  unfold App.parseWindyResponse in Hd. cbv zeta in Hd. cbn [App.daily] in Hd.
  apply in_map_iff in Hd. destruct Hd as (e & <- & He).
  apply firstn_incl, sort_In in He.
  apply dayMap_entries in He. destruct He as [Hne Hconv].
  assert (Hnan : Forall (fun x => JS.isNaN x = false) (App.temps (snd e))).
  { apply Forall_forall. intros x Hx. destruct (Hconv x Hx) as [i ->].
    apply kToF_not_nan, at_or_not_nan; [exact Hraw | reflexivity]. }
  destruct (Math_max_greatest _ Hne Hnan) as [Hmax_in Hmax].
  destruct (Math_min_least _ Hne Hnan) as [Hmin_in Hmin].
  rewrite Forall_forall in Hnan.
  unfold App.summarize. cbn [App.high App.low].
  split; [apply Hnan, Hmax_in|]. split; [apply Hnan, Hmin_in|].
  apply Hmax, Hmin_in.
Qed.

(** A response of two timesteps on 20 and 21 February 2026, 5 and 10
    degrees Celsius. *)
Lemma parseWindyResponse_daily_low_below_high_witness :
  let raw := App.mkWindyRaw (Some [1771610400000; 1771696800000])
               (Some [Some (JS.lit 27815 (-2)); Some (JS.lit 28315 (-2))])
               None None None None None in
  (forall x, In (Some x) (App.orEmpty (App.raw_temp_surface raw)) ->
             JS.isNaN x = false) /\
  forall d,
    In d (App.daily (App.parseWindyResponse (fun x _ => x) Browser.toLocaleDateString
                       1771610400000 raw)) ->
    JS.isNaN (App.high d) = false /\
    JS.isNaN (App.low d) = false /\
    JS.le (App.low d) (App.high d) = true.
Proof.
  intro raw.
  assert (H : forall x, In (Some x) (App.orEmpty (App.raw_temp_surface raw)) ->
                        JS.isNaN x = false).
  { intros x [E|[E|[]]]; injection E as <-; reflexivity. }
  split; [exact H|].
  apply (parseWindyResponse_daily_low_below_high
           (fun x _ => x) Browser.toLocaleDateString 1771610400000 raw H).
Defined.

(** X14. The condition of a weather card ([windyCondition] applied to the
    parsed current conditions, as [renderWeatherCard] does) when the response
    lacks data at the current timestep: without a precipitation entry the
    condition is never Snow, Wintry mix or Rain, whatever the temperature, and
    humidity alone decides it; without a humidity entry as well it is Clear.
    Precipitation and humidity that are NaN also give Clear. *)
Theorem windyCondition_of_missing_data :
  forall (Math_pow : JS.number -> JS.number -> JS.number)
         (toLocaleDateString : Z -> string -> string -> string)
         (now : Z) (raw : App.WindyRaw),
    let cur := App.current (App.parseWindyResponse Math_pow toLocaleDateString now raw) in
    let i := App.curIdx_loop now (App.orEmpty (App.raw_ts raw)) 0 0 in
    let shown := App.windyCondition (App.temp cur) (App.precip3h cur) (App.humidity cur) in
    (missing (App.orEmpty (App.raw_past3hprecip_surface raw)) i ->
     shown = App.windyCondition (JS.of_Z 32) JS.zero (App.humidity cur) /\
     In (App.desc shown) ["Overcast"; "Partly cloudy"; "Clear"]%string) /\
    (missing (App.orEmpty (App.raw_past3hprecip_surface raw)) i ->
     missing (App.orEmpty (App.raw_rh_surface raw)) i ->
     shown = App.mkCondition [0x2600] "Clear") /\
    (forall tempF, App.windyCondition tempF JS.NaN JS.NaN
                   = App.mkCondition [0x2600] "Clear").
Proof.
  intros Math_pow toLocaleDateString now raw cur i shown.
  assert (Hprecip : missing (App.orEmpty (App.raw_past3hprecip_surface raw)) i ->
                    App.precip3h cur = JS.zero).
  { intro Hm. unfold cur, App.parseWindyResponse. cbv zeta.
    cbn [App.current]. unfold App.currentAt. cbn [App.precip3h].
    fold i. rewrite (at_or_missing _ _ _ Hm). vm_compute. reflexivity. }
  assert (Hrh : missing (App.orEmpty (App.raw_rh_surface raw)) i ->
                App.humidity cur = JS.zero).
  { intro Hm. unfold cur, App.parseWindyResponse. cbv zeta.
    cbn [App.current]. unfold App.currentAt. cbn [App.humidity].
    fold i. rewrite (at_or_missing _ _ _ Hm). vm_compute. reflexivity. }
  assert (Hdry : forall t rh,
            App.windyCondition t JS.zero rh
            = if JS.gt rh (JS.of_Z 88) then App.mkCondition [0x2601] "Overcast"
              else if JS.gt rh (JS.of_Z 68) then App.mkCondition [0x26c5] "Partly cloudy"
              else App.mkCondition [0x2600] "Clear").
  { intros t rh. unfold App.windyCondition.
    replace (JS.gt JS.zero (JS.lit 1 (-2))) with false by (vm_compute; reflexivity).
    reflexivity. }
  split; [|split].
  - intro Hm. unfold shown. rewrite (Hprecip Hm), !Hdry. split; [reflexivity|].
    destruct (JS.gt _ (JS.of_Z 88)); [simpl; auto|].
    destruct (JS.gt _ (JS.of_Z 68)); simpl; auto.
  - intros Hm Hm'. unfold shown. rewrite (Hprecip Hm), (Hrh Hm'), Hdry.
    vm_compute. reflexivity.
  - intro tempF. unfold App.windyCondition.
    replace (JS.gt JS.NaN (JS.lit 1 (-2))) with false by (vm_compute; reflexivity).
    vm_compute. reflexivity.
Qed.

(* ===================================================================== *)
(** * Further properties of the station jobs and of the refresh cycle     *)
(* ===================================================================== *)

(** X15. The survey wins: when the station's survey fetch returns a
    non-empty discharge series, the reading carries the tag [USGS], the
    survey's discharge and gage height and its site name, and the answer of
    the reservoir agency plays no part: the reading is the same in every
    world that differs only in that answer. *)
Theorem stationJob_primary_wins :
  forall (w : App.World) (days : Z) (station : App.Station) (usgs : string)
         (d : App.Series * option string),
    App.usgsId station = Some usgs -> JS.truthy usgs = true ->
    App.fetchUSGS w usgs days = App.Returned d ->
    App.discharge (fst d) <> [] ->
    let r := App.stationJob w days station in
    App.source r = Some "USGS"%string /\
    App.discharge (App.series r) = App.discharge (fst d) /\
    App.gageHeight (App.series r) = App.gageHeight (fst d) /\
    App.siteName r = snd d /\
    forall usbr, App.stationJob (with_usbr w usbr) days station = r.
Proof.
  intros w days station usgs d Hid Htruthy Hfetch Hne r.
  assert (Hlen : (0 <? length (App.discharge (fst d)))%nat = true).
  { apply length_pos_nonempty, Hne. }
  assert (Hjob : forall usbr,
            App.stationJob (with_usbr w usbr) days station
            = let acc := App.supplementTemp w days station (Some d, Some "USGS"%string) in
              match fst acc with
              | Some (r, site) =>
                  App.mkStationReading r site (App.stationForecast w station) (snd acc)
              | None =>
                  App.mkStationReading (App.mkSeries [] [] []) None
                    (App.stationForecast w station) (snd acc)
              end).
  { intro usbr. unfold App.stationJob. cbv zeta.
    unfold App.tryUSGS. rewrite Hid, Htruthy.
    change (App.fetchUSGS (with_usbr w usbr) usgs days) with (App.fetchUSGS w usgs days).
    rewrite Hfetch, Hlen. unfold App.tryUSBR. cbn [fst]. reflexivity. }
  assert (Hsame : r = App.stationJob (with_usbr w (App.usbr_text w)) days station).
  { unfold r. destruct w; reflexivity. }
  assert (Hall : forall usbr, App.stationJob (with_usbr w usbr) days station = r).
  { intro usbr. rewrite Hsame, !Hjob. reflexivity. }
  split; [|split; [|split; [|split; [|exact Hall]]]];
    rewrite Hsame, Hjob; cbv zeta;
    destruct d as [p site]; unfold App.supplementTemp; cbn [fst snd];
    destruct (App.nwrfcId station) as [nwrfc|]; try reflexivity;
    destruct (JS.truthy nwrfc && _); try reflexivity;
    destruct (App.fetchNWRFCTemp w nwrfc days) as [tw|]; try reflexivity;
    destruct (0 <? length tw)%nat; reflexivity.
Qed.

(** The gauge at Umtanum when the survey answers. *)
Lemma stationJob_primary_wins_witness :
  let d := (App.mkSeries [App.mkSample 1771464600000 (JS.of_Z 1200)] [] [],
            Some "YAKIMA RIVER AT UMTANUM, WA"%string) in
  let r := App.stationJob gauged_world 7 umtanum in
  App.usgsId umtanum = Some "12484500"%string /\
  App.source r = Some "USGS"%string /\
  App.discharge (App.series r) = App.discharge (fst d) /\
  App.gageHeight (App.series r) = App.gageHeight (fst d) /\
  App.siteName r = snd d /\
  forall usbr, App.stationJob (with_usbr gauged_world usbr) 7 umtanum = r.
Proof.
  intros d r. split; [reflexivity|].
  apply (stationJob_primary_wins gauged_world 7 umtanum "12484500"%string d).
  - reflexivity.
  - reflexivity.
  - reflexivity.
  - discriminate.
Defined.

Lemma supplementTemp_accepted (w : App.World) (days : Z) (station : App.Station)
      (p : App.Series) (site src : option string) :
  exists p',
    App.supplementTemp w days station (Some (p, site), src) = (Some (p', site), src) /\
    App.discharge p' = App.discharge p /\
    App.gageHeight p' = App.gageHeight p /\
    (App.waterTemp p <> [] -> p' = p) /\
    (App.waterTemp p = [] -> App.waterTemp p' = nwrfc_temperature w days station).
Proof.
  unfold App.supplementTemp, nwrfc_temperature. cbn [fst snd].
  assert (Hkeep : forall tw : list App.Sample,
            (App.waterTemp p = [] -> tw = []) ->
            exists p',
              (Some (p, site), src) = (Some (p', site), src) /\
              App.discharge p' = App.discharge p /\
              App.gageHeight p' = App.gageHeight p /\
              (App.waterTemp p <> [] -> p' = p) /\
              (App.waterTemp p = [] -> App.waterTemp p' = tw)).
  { intros tw Htw. exists p. repeat split; auto.
    intro Hnil. rewrite Hnil. symmetry. apply Htw, Hnil. }
  destruct (App.nwrfcId station) as [nwrfc|]; [|apply Hkeep; auto].
  destruct (JS.truthy nwrfc); cbn [andb]; [|apply Hkeep; auto].
  destruct (Nat.eqb_spec (length (App.waterTemp p)) 0) as [Hz|Hnz].
  - destruct (App.fetchNWRFCTemp w nwrfc days) as [tw|]; [|apply Hkeep; auto].
    destruct tw as [|t0 tw]; [apply Hkeep; auto|].
    cbn [length Nat.ltb Nat.leb]. eexists. split; [reflexivity|].
    cbn [App.discharge App.gageHeight App.waterTemp]. repeat split; auto.
    intro Hne. destruct (App.waterTemp p); [congruence | discriminate].
  - apply Hkeep. intro Hnil. rewrite Hnil in Hnz. simpl in Hnz. congruence.
Qed.


(** A reading has discharge exactly when it has a source. *)
Lemma stationJob_source_discharge (w : App.World) (days : Z) (station : App.Station) :
  let r := App.stationJob w days station in
  (App.source r = None /\ App.discharge (App.series r) = []) \/
  (App.source r <> None /\ App.discharge (App.series r) <> []).
Proof.
  intro r. unfold r, App.stationJob. cbv zeta.
  pose proof (tryUSGS_spec w days station) as H1. cbv zeta in H1.
  destruct H1 as [[E1 _]|(usgs & d1 & _ & _ & Hne & E1)]; rewrite E1.
  - pose proof (tryUSBR_spec w days station) as H2. cbv zeta in H2.
    destruct H2 as [E2|(usbr & d2 & _ & _ & Hne & E2)]; rewrite E2.
    + left. split; reflexivity.
    + right. destruct (supplementTemp_accepted w days station d2 None (Some "USBR"%string))
        as (p' & -> & Hq & _). simpl. rewrite Hq. split; [discriminate | exact Hne].
  - right. destruct d1 as [p site].
    replace (App.tryUSBR w days station (Some (p, site), Some "USGS"%string))
      with (Some (p, site), Some "USGS"%string : option string) by reflexivity.
    destruct (supplementTemp_accepted w days station p site (Some "USGS"%string))
      as (p' & -> & Hq & _). simpl. rewrite Hq. split; [discriminate | exact Hne].
Qed.

(* ===================================================================== *)
(** * Properties of the survey's response parser                          *)
(* ===================================================================== *)





(** Where the three series of a result come from. *)
Lemma parseUSGSJSON_origin (Date_parse : string -> option Z)
      (json : list USGS.TimeSeries) :
  let out := USGS.parseUSGSJSON Date_parse (Some json) in
  (USGS.discharge out = [] \/
   exists ts, In ts json /\ USGS.discharge out = USGS.vals Date_parse ts) /\
  (USGS.waterTemp out = [] \/
   exists ts, In ts json /\
              USGS.waterTemp out = map USGS.toFahrenheit (USGS.vals Date_parse ts)) /\
  (USGS.gageHeight out = [] \/
   exists ts, In ts json /\ USGS.gageHeight out = USGS.vals Date_parse ts).
Proof.
  cbv zeta. unfold USGS.parseUSGSJSON. cbn [App.orEmpty].
  induction json as [|ts json IH] using rev_ind; [simpl; auto|].
  rewrite fold_left_app. cbn [fold_left].
  set (before := fold_left (USGS.parseTimeSeries Date_parse) json
                   (USGS.mkParsed [] [] [] None)) in *.
  assert (Hwiden : forall (series : list USGS.Sample) (f : USGS.TimeSeries -> list USGS.Sample),
            (series = [] \/ exists ts', In ts' json /\ series = f ts') ->
            series = [] \/ exists ts', In ts' (json ++ [ts]) /\ series = f ts').
  { intros series f [H|(ts' & Hin & H)]; [left; exact H|].
    right. exists ts'. split; [apply in_or_app; left; exact Hin | exact H]. }
  assert (Hnew : forall f : USGS.TimeSeries -> list USGS.Sample,
            f ts = [] \/ exists ts', In ts' (json ++ [ts]) /\ f ts = f ts').
  { intro f. right. exists ts. split; [apply in_or_app; right; left|]; reflexivity. }
  destruct IH as (Hq & Ht & Hg).
  apply (Hwiden _ (USGS.vals Date_parse)) in Hq.
  apply (Hwiden _ (fun ts => map USGS.toFahrenheit (USGS.vals Date_parse ts))) in Ht.
  apply (Hwiden _ (USGS.vals Date_parse)) in Hg.
  unfold USGS.parseTimeSeries. cbv zeta.
  destruct (match USGS.siteName before with Some _ => _ | None => _ end);
    destruct (USGS.variableCode ts) as [code|];
    try (destruct (String.eqb code "00060");
         [|destruct (String.eqb code "00010"); [|destruct (String.eqb code "00065")]]);
    cbn [USGS.discharge USGS.waterTemp USGS.gageHeight];
    (split; [|split]); try assumption;
    first [ apply (Hnew (USGS.vals Date_parse))
          | apply (Hnew (fun ts => map USGS.toFahrenheit (USGS.vals Date_parse ts))) ].
Qed.

Lemma vals_values (Date_parse : string -> option Z) (ts : USGS.TimeSeries) :
  USGS.vals Date_parse ts
  = flat_map
      (fun v =>
         match USGS.raw_value v with
         | Some text =>
             if JS.truthy text && negb (String.eqb text "-999999")
                && negb (JS.isNaN (JS.parseFloat text))
             then [USGS.sample_of Date_parse v]
             else []
         | None => []
         end)
      (App.orEmpty (USGS.values ts)).
Proof.
  unfold USGS.vals.
  induction (App.orEmpty (USGS.values ts)) as [|v l IH]; [reflexivity|].
  cbn [filter flat_map]. unfold USGS.reported at 1.
  destruct (USGS.raw_value v) as [text|] eqn:Ev; [|exact IH].
  destruct (JS.truthy text && negb (String.eqb text "-999999")); cbn [andb]; [|exact IH].
  cbn [map filter]. unfold USGS.sample_of at 1. cbn [USGS.value]. rewrite Ev.
  destruct (JS.isNaN (JS.parseFloat text)); cbn [negb app]; rewrite IH; reflexivity.
Qed.

(** X21. The samples of the survey's response. No value of the three
    series is NaN (the temperature conversion included). Every discharge and
    gage-height sample is the [parseFloat] of the text of a reading whose
    text is neither empty nor the missing-data mark [-999999]. And timestamps
    never filter: the values of a series, and so their number, are the same
    however the browser reads the dates; a reading with an unreadable date is
    kept, with an invalid time. *)
Theorem parseUSGSJSON_values :
  forall (Date_parse : string -> option Z) (json : list USGS.TimeSeries),
    let out := USGS.parseUSGSJSON Date_parse (Some json) in
    (forall s, In s (USGS.discharge out ++ USGS.waterTemp out ++ USGS.gageHeight out) ->
               JS.isNaN (USGS.value s) = false) /\
    (forall s, In s (USGS.discharge out ++ USGS.gageHeight out) ->
       exists ts v text,
         In ts json /\ In v (App.orEmpty (USGS.values ts)) /\
         USGS.raw_value v = Some text /\ text <> EmptyString /\
         text <> "-999999"%string /\ USGS.value s = JS.parseFloat text) /\
    (forall (Date_parse' : string -> option Z) (ts : USGS.TimeSeries),
       map USGS.value (USGS.vals Date_parse ts)
       = map USGS.value (USGS.vals Date_parse' ts)).
Proof.
  intros Date_parse json out.
  assert (Hvals : forall ts s, In s (USGS.vals Date_parse ts) ->
            JS.isNaN (USGS.value s) = false /\
            exists v text,
              In v (App.orEmpty (USGS.values ts)) /\
              USGS.raw_value v = Some text /\ text <> EmptyString /\
              text <> "-999999"%string /\ USGS.value s = JS.parseFloat text).
  { intros ts s Hs. rewrite vals_values in Hs. apply in_flat_map in Hs.
    destruct Hs as (v & Hv & Hs).
    destruct (USGS.raw_value v) as [text|] eqn:Ev; [|destruct Hs].
    destruct (JS.truthy text) eqn:Htruthy; cbn [andb] in Hs; [|destruct Hs].
    destruct (String.eqb_spec text "-999999") as [Hmark|Hmark]; cbn [negb andb] in Hs;
      [destruct Hs|].
    destruct (JS.isNaN (JS.parseFloat text)) eqn:Hnan; cbn [negb] in Hs; [destruct Hs|].
    destruct Hs as [<-|[]]. unfold USGS.sample_of. cbn [USGS.value]. rewrite Ev.
    split; [exact Hnan|]. exists v, text. repeat split; auto.
    intros ->. discriminate Htruthy. }
  destruct (parseUSGSJSON_origin Date_parse json) as (Hq & Ht & Hg). fold out in Hq, Ht, Hg.
  split; [|split].
  - intros s Hs. apply in_app_or in Hs. destruct Hs as [Hs|Hs];
      [|apply in_app_or in Hs; destruct Hs as [Hs|Hs]].
    + destruct Hq as [E|(ts & _ & E)]; rewrite E in Hs; [destruct Hs|].
      apply (Hvals ts s Hs).
    + destruct Ht as [E|(ts & _ & E)]; rewrite E in Hs; [destruct Hs|].
      apply in_map_iff in Hs. destruct Hs as (s0 & <- & Hs0).
      unfold USGS.toFahrenheit. cbn [USGS.value].
      apply celsius_to_fahrenheit_not_nan, (Hvals ts s0 Hs0).
    + destruct Hg as [E|(ts & _ & E)]; rewrite E in Hs; [destruct Hs|].
      apply (Hvals ts s Hs).
  - intros s Hs. apply in_app_or in Hs. destruct Hs as [Hs|Hs].
    + destruct Hq as [E|(ts & Hts & E)]; rewrite E in Hs; [destruct Hs|].
      destruct (Hvals ts s Hs) as (_ & v & text & H). exists ts, v, text. tauto.
    + destruct Hg as [E|(ts & Hts & E)]; rewrite E in Hs; [destruct Hs|].
      destruct (Hvals ts s Hs) as (_ & v & text & H). exists ts, v, text. tauto.
  - intros Date_parse' ts. rewrite !vals_values.
    induction (App.orEmpty (USGS.values ts)) as [|v l IH]; [reflexivity|].
    cbn [flat_map]. rewrite !map_app, IH. f_equal.
    destruct (USGS.raw_value v) as [text|] eqn:Ev; [|reflexivity].
    destruct (JS.truthy text && negb (String.eqb text "-999999")
              && negb (JS.isNaN (JS.parseFloat text))); [|reflexivity].
    unfold USGS.sample_of. cbn [map USGS.value]. reflexivity.
Qed.

(* ===================================================================== *)
(** * The observed part of a chart                                        *)
(* ===================================================================== *)

(** X22. The forecast never changes the observed part of a chart: with and
    without a forecast the chart exists for the same stations and plots the
    same observed points; the observed-discharge and temperature series of
    the chart with the forecast are those of the chart without it, followed
    by one empty entry per forecast point; and without a forecast the chart
    has no forecast point. *)
Theorem hydrographData_observed_part_ignores_forecast :
  forall discharge waterTemp forecast : list App.Sample,
    match App.hydrographData discharge waterTemp forecast,
          App.hydrographData discharge waterTemp [] with
    | Some h, Some h0 =>
        let padding := repeat (@None JS.number) (length (App.futureFcast h)) in
        App.ds h = App.ds h0 /\
        App.futureFcast h0 = [] /\
        App.qObsData h = App.qObsData h0 ++ padding /\
        match App.tData h, App.tData h0 with
        | Some t, Some t0 => t = t0 ++ padding
        | None, None => True
        | _, _ => False
        end
    | None, None => True
    | _, _ => False
    end.
Proof.
  intros discharge waterTemp forecast. unfold App.hydrographData. cbv zeta.
  destruct (length (JS.sort _ discharge) =? 0)%nat; [exact I|].
  destruct (App.downsample _ 80) as [ds|]; [|exact I].
  cbn [App.ds App.futureFcast App.qObsData App.tData JS.sort filter length repeat].
  split; [reflexivity|]. split; [reflexivity|]. split.
  - rewrite app_nil_r. reflexivity.
  - destruct (App.alignTemps waterTemp ds) as [aligned|]; [|exact I].
    rewrite app_nil_r. reflexivity.
Qed.

(* ===================================================================== *)
(** * Properties of the station cards and of the range buttons            *)
(* ===================================================================== *)

Lemma stationJob_source_cases (w : App.World) (days : Z) (station : App.Station) :
  let r := App.stationJob w days station in
  App.source r = None \/ App.source r = Some "USGS"%string \/
  App.source r = Some "USBR"%string.
Proof.
  intro r. unfold r, App.stationJob. cbv zeta.
  pose proof (tryUSGS_spec w days station) as H1. cbv zeta in H1.
  destruct H1 as [[E1 _]|(usgs & d1 & _ & _ & _ & E1)]; rewrite E1.
  - pose proof (tryUSBR_spec w days station) as H2. cbv zeta in H2.
    destruct H2 as [E2|(usbr & d2 & _ & _ & _ & E2)]; rewrite E2.
    + left. reflexivity.
    + right; right.
      destruct (supplementTemp_accepted w days station d2 None (Some "USBR"%string))
        as (p' & -> & _). reflexivity.
  - right; left. destruct d1 as [p site].
    replace (App.tryUSBR w days station (Some (p, site), Some "USGS"%string))
      with (Some (p, site), Some "USGS"%string : option string) by reflexivity.
    destruct (supplementTemp_accepted w days station p site (Some "USGS"%string))
      as (p' & -> & _). reflexivity.
Qed.

Lemma getLatestValue_In (vs : list App.Sample) (latest : App.Sample) :
  App.getLatestValue (Some vs) = Some latest -> In latest vs.
Proof.
  intro H.
  assert (Hne : vs <> []).
  { intros ->. discriminate H. }
  destruct (getLatestValue_spec vs Hne) as (latest' & E & Hin & _).
  rewrite H in E. injection E as <-. exact Hin.
Qed.

(** X23. The card of a reading that a station job stored. It is the
    no-data card exactly when the reading has no source. Otherwise its badge
    text is the source, [USGS] with class [usgs] or [USBR] with class [usbr]
    (never the class [no-data]), and the discharge it shows is a sample of the
    reading. The footer names the survey whenever the station has a survey
    identifier, whatever the source of the reading. *)
Theorem renderStationCard_of_reading :
  forall (w : App.World) (days : Z) (station : App.Station),
    let r := App.stationJob w days station in
    match App.renderStationCard station r with
    | App.NoDataCard => App.source r = None
    | App.DataCard cls txt q trend t h footer =>
        App.source r = Some txt /\
        ((txt = "USGS"%string /\ cls = "usgs"%string) \/
         (txt = "USBR"%string /\ cls = "usbr"%string)) /\
        In q (App.discharge (App.series r)) /\
        trend = App.getTrend (Some (App.discharge (App.series r))) 24 /\
        (forall usgs, App.usgsId station = Some usgs -> JS.truthy usgs = true ->
           footer = ("USGS" ++ String (ascii_of_nat 160) usgs)%string)
    end.
Proof.
  intros w days station r. unfold App.renderStationCard. cbv zeta.
  destruct (stationJob_source_discharge w days station) as [[Hs Hd]|[Hs Hd]];
    fold r in Hs, Hd.
  - rewrite Hd. cbn [App.getLatestValue length Nat.eqb]. exact Hs.
  - destruct (App.getLatestValue (Some (App.discharge (App.series r)))) as [q|] eqn:Eq.
    + split; [|split; [|split; [|split]]].
      * destruct (App.source r); [reflexivity | congruence].
      * destruct (stationJob_source_cases w days station) as [H|[H|H]]; fold r in H;
          rewrite H in *; [congruence | left | right]; split; reflexivity.
      * apply getLatestValue_In, Eq.
      * reflexivity.
      * intros usgs Hid Htruthy. rewrite Hid, Htruthy. reflexivity.
    + exfalso. unfold App.getLatestValue in Eq.
      destruct (App.discharge (App.series r)) as [|v vs]; [congruence|].
      cbn [length Nat.eqb] in Eq. discriminate Eq.
Qed.

(** At Umtanum, when the survey fails and the reservoir agency answers, the
    badge says [USBR] and the footer names the survey. *)
Example renderStationCard_badge_and_footer_disagree :
  match App.renderStationCard umtanum (App.stationJob reservoir_world 7 umtanum) with
  | App.DataCard cls txt _ _ _ _ footer =>
      txt = "USBR"%string /\ cls = "usbr"%string /\
      footer = ("USGS" ++ String (ascii_of_nat 160) "12484500")%string
  | App.NoDataCard => False
  end.
Proof. vm_compute. auto. Qed.

(* ===================================================================== *)
(** * The labels of the daily forecast                                    *)
(* ===================================================================== *)

Lemma split_no_hyphen (s : string) :
  no_hyphen s = true -> JS.split "-" s = [s].
Proof.
  induction s as [|c s IH]; [reflexivity|].
  simpl. intro H. apply andb_true_iff in H. destruct H as [Hc Hs].
  apply negb_true_iff in Hc. rewrite Hc, (IH Hs). reflexivity.
Qed.

Lemma split_head (head rest : string) :
  no_hyphen head = true ->
  JS.split "-" (head ++ String "-" rest) = head :: JS.split "-" rest.
Proof.
  intro Hhead. rewrite split_app, (split_no_hyphen head Hhead). reflexivity.
Qed.

Lemma dayLabel_ignores_year (year rest : string) :
  no_hyphen year = true ->
  App.dayLabel (year ++ String "-" rest) = App.dayLabel (String "-" rest).
Proof.
  intro Hyear. unfold App.dayLabel. cbv zeta.
  rewrite (split_head year rest Hyear).
  change (String "-" rest) with (EmptyString ++ String "-" rest)%string.
  rewrite (split_head EmptyString rest eq_refl).
  reflexivity.
Qed.

Lemma dayLabel_table :
  forallb
    (fun m =>
       forallb
         (fun d =>
            String.eqb
              (App.dayLabel (date_key EmptyString m d))
              (nth (m - 1) App.months EmptyString ++ " "
               ++ App.digits_of 2 d EmptyString))
         (seq 1 31))
    (seq 1 12) = true.
Proof. vm_compute. reflexivity. Qed.

(** X25. The label of a day. For a date key [YYYY-MM-DD] of a month 1..12
    and a day 1..31, whatever the year, the label is the three-letter name of
    that month, a space and the day without a leading zero. A key without a
    hyphen (a date printed in another format) gives the label
    [undefined undefined]. *)
Theorem dayLabel_of_date_key :
  forall (year : string) (month day : nat),
    no_hyphen year = true ->
    (1 <= month <= 12)%nat -> (1 <= day <= 31)%nat ->
    App.dayLabel (date_key year month day)
    = (nth (month - 1) App.months EmptyString ++ " "
       ++ App.digits_of 2 day EmptyString)%string /\
    App.dayLabel year = "undefined undefined"%string.
Proof.
  intros year month day Hyear Hmonth Hday. split.
  - unfold date_key. cbn [String.append].
    rewrite (dayLabel_ignores_year year _ Hyear).
    pose proof dayLabel_table as Htable.
    rewrite forallb_forall in Htable.
    specialize (Htable month ltac:(apply in_seq; lia)).
    rewrite forallb_forall in Htable.
    specialize (Htable day ltac:(apply in_seq; lia)).
    apply String.eqb_eq in Htable. exact Htable.
  - unfold App.dayLabel. cbv zeta. rewrite (split_no_hyphen year Hyear). reflexivity.
Qed.

(** 18 February 2026. *)
Lemma dayLabel_of_date_key_witness :
  no_hyphen "2026" = true /\ (1 <= 2 <= 12)%nat /\ (1 <= 18 <= 31)%nat /\
  App.dayLabel "2026-02-18" = "Feb 18"%string.
Proof.
  assert (Hmonth : (1 <= 2 <= 12)%nat) by lia.
  assert (Hday : (1 <= 18 <= 31)%nat) by lia.
  split; [reflexivity|]. split; [exact Hmonth|]. split; [exact Hday|].
  exact (proj1 (dayLabel_of_date_key "2026" 2 18 eq_refl Hmonth Hday)).
Defined.

(* ===================================================================== *)
(** * The map popup of a station                                          *)
(* ===================================================================== *)

Lemma stationJob_without_source (w : App.World) (days : Z) (station : App.Station) :
  let r := App.stationJob w days station in
  App.source r = None -> App.series r = App.mkSeries [] [] [].
Proof.
  intro r. unfold r, App.stationJob. cbv zeta.
  pose proof (tryUSGS_spec w days station) as H1. cbv zeta in H1.
  destruct H1 as [[E1 _]|(usgs & d1 & _ & _ & _ & E1)]; rewrite E1.
  - pose proof (tryUSBR_spec w days station) as H2. cbv zeta in H2.
    destruct H2 as [E2|(usbr & d2 & _ & _ & _ & E2)]; rewrite E2.
    + reflexivity.
    + destruct (supplementTemp_accepted w days station d2 None (Some "USBR"%string))
        as (p' & -> & _). discriminate.
  - destruct d1 as [p site].
    replace (App.tryUSBR w days station (Some (p, site), Some "USGS"%string))
      with (Some (p, site), Some "USGS"%string : option string) by reflexivity.
    destruct (supplementTemp_accepted w days station p site (Some "USGS"%string))
      as (p' & -> & _). discriminate.
Qed.

(** X26. The map popup of a reading that a station job stored says
    [Loading...] exactly when the reading has no source, that is, also after
    every provider has failed; otherwise it shows a discharge, which is a
    sample of the reading. So the popup says [Loading...] exactly when the
    station's card is the no-data card. *)
Theorem makePopupHTML_of_reading :
  forall (w : App.World) (days : Z) (station : App.Station),
    let r := App.stationJob w days station in
    match App.makePopupHTML r with
    | App.PopupLoading =>
        App.source r = None /\ App.renderStationCard station r = App.NoDataCard
    | App.PopupMetrics q t =>
        App.source r <> None /\
        App.renderStationCard station r <> App.NoDataCard /\
        exists sample, q = Some sample /\ In sample (App.discharge (App.series r))
    end.
Proof.
  intros w days station r. unfold App.makePopupHTML, App.renderStationCard. cbv zeta.
  destruct (stationJob_source_discharge w days station) as [[Hs Hd]|[Hs Hd]];
    fold r in Hs, Hd.
  - pose proof (stationJob_without_source w days station Hs) as Hempty. fold r in Hempty.
    rewrite Hempty. cbn. split; [exact Hs | reflexivity].
  - destruct (getLatestValue_spec (App.discharge (App.series r)) Hd)
      as (latest & Hlatest & Hin & _).
    rewrite Hlatest. split; [exact Hs|]. split; [discriminate|].
    exists latest. split; [reflexivity | exact Hin].
Qed.

(* ===================================================================== *)
(** * Properties of the alert filter                                      *)
(* ===================================================================== *)

Lemma prefix_occurs (p s : string) :
  String.prefix p s = true <-> exists after, s = (p ++ after)%string.
Proof.
  revert s. induction p as [|c p IH]; intro s.
  - split; [intros _; exists s; reflexivity | intros _; destruct s; reflexivity].
  - destruct s as [|d s]; simpl.
    + split; [discriminate | intros [after H]; discriminate H].
    + destruct (Ascii.ascii_dec c d) as [<-|Hne].
      * rewrite IH. split; intros [after H]; exists after.
        -- rewrite H. reflexivity.
        -- injection H as H. exact H.
      * split; [discriminate|]. intros [after H]. injection H as H _. congruence.
Qed.

Lemma includes_occurs (s p : string) :
  NWS.includes s p = true <-> occurs_in p s.
Proof.
  unfold occurs_in. induction s as [|c s IH].
  - cbn [NWS.includes]. rewrite orb_false_r, prefix_occurs. split.
    + intros [after H]. exists EmptyString, after. exact H.
    + intros ([|b before] & after & H); [exists after; exact H | discriminate H].
  - cbn [NWS.includes]. rewrite orb_true_iff, prefix_occurs, IH. split.
    + intros [[after H]|(before & after & H)].
      * exists EmptyString, after. exact H.
      * exists (String c before), after. rewrite H. reflexivity.
    + intros ([|b before] & after & H).
      * left. exists after. exact H.
      * right. injection H as _ H. exists before, after. exact H.
Qed.

Lemma relevant_properties (f : NWS.Feature) :
  NWS.relevant f = true ->
  exists p e,
    NWS.properties f = Some p /\ NWS.event p = Some e /\
    (occurs_in "flood" (JS.toLowerCase e) \/ occurs_in "hydrologic" (JS.toLowerCase e)) /\
    (occurs_in "yakima" (NWS.lowered (NWS.areaDesc p)) \/
     occurs_in "kittitas" (NWS.lowered (NWS.areaDesc p)) \/
     occurs_in "chelan" (NWS.lowered (NWS.areaDesc p))).
Proof.
  unfold NWS.relevant. cbv zeta. intro H.
  apply andb_true_iff in H. destruct H as [Hevent Harea].
  destruct (NWS.properties f) as [p|]; [|discriminate Hevent].
  destruct (NWS.event p) as [e|] eqn:Ee; [|discriminate Hevent].
  exists p, e. split; [reflexivity|]. split; [exact Ee|]. split.
  - apply orb_true_iff in Hevent. rewrite !includes_occurs in Hevent. exact Hevent.
  - rewrite !orb_true_iff, !includes_occurs in Harea. tauto.
Qed.

Lemma map_or_throw_relevant (kept : list NWS.Feature) :
  (forall f, In f kept -> NWS.relevant f = true) ->
  exists alerts,
    NWS.map_or_throw NWS.toAlert kept = Some alerts /\
    map Some alerts = map NWS.toAlert kept.
Proof.
  induction kept as [|f kept IH]; intro Hkept.
  - exists []. split; reflexivity.
  - destruct (IH (fun g Hg => Hkept g (or_intror Hg))) as (alerts & Hrest & Hmap).
    destruct (relevant_properties f (Hkept f (or_introl eq_refl)))
      as (p & e & Hp & _).
    cbn [NWS.map_or_throw map]. rewrite Hrest. unfold NWS.toAlert. rewrite Hp.
    eexists. split; [reflexivity|]. cbn [map]. rewrite Hmap. reflexivity.
Qed.

(** X27. The alerts of a response. Reading the members of
    [f.properties] in the mapping never throws, because the filter keeps
    only features that have them: there is one alert per relevant feature,
    in the order of the response. Every alert has a string as its event,
    which names a flood or a hydrologic event in any letter case, and a
    string as its headline. The pill is hidden exactly when no feature is
    relevant, and otherwise shows the event of the first relevant one. *)
Theorem alertsOf_relevant_features :
  forall features : option (list NWS.Feature),
    let alerts := NWS.alertsOf features in
    let kept := filter NWS.relevant (App.orEmpty features) in
    map Some alerts = map NWS.toAlert kept /\
    (forall a, In a alerts ->
       exists e h,
         NWS.alert_event a = Some e /\ NWS.alert_headline a = Some h /\
         (occurs_in "flood" (JS.toLowerCase e) \/
          occurs_in "hydrologic" (JS.toLowerCase e))) /\
    (NWS.renderAlerts alerts = None <->
     forall f, In f (App.orEmpty features) -> NWS.relevant f = false) /\
    (forall first rest,
       kept = first :: rest ->
       exists p e title,
         NWS.properties first = Some p /\ NWS.event p = Some e /\
         NWS.renderAlerts alerts = Some (Some e, title) /\
         length title = length kept).
Proof.
  intros features alerts kept.
  assert (Hkept : forall f, In f kept -> NWS.relevant f = true).
  { intros f Hf. apply filter_In in Hf. exact (proj2 Hf). }
  assert (Hmap : map Some alerts = map NWS.toAlert kept).
  { unfold alerts, NWS.alertsOf. fold kept.
    destruct (map_or_throw_relevant kept Hkept) as (found & -> & Hfound).
    exact Hfound. }
  assert (Hlen : length alerts = length kept).
  { rewrite <- (length_map Some alerts), Hmap, length_map. reflexivity. }
  split; [exact Hmap|]. split; [|split].
  - intros a Ha.
    assert (Hin : In (Some a) (map NWS.toAlert kept)).
    { rewrite <- Hmap. apply in_map, Ha. }
    apply in_map_iff in Hin. destruct Hin as (f & Hf & Hfk).
    destruct (relevant_properties f (Hkept f Hfk)) as (p & e & Hp & He & Hflood & _).
    unfold NWS.toAlert in Hf. rewrite Hp, He in Hf. injection Hf as <-.
    cbn [NWS.alert_event NWS.alert_headline].
    destruct (NWS.headline p) as [h|]; eauto.
  - split.
    + intros Hhidden f Hf.
      destruct alerts as [|a rest]; [|discriminate Hhidden].
      destruct (NWS.relevant f) eqn:Hr; [|reflexivity].
      assert (Hfk : In f kept) by (apply filter_In; auto).
      destruct kept; [destruct Hfk | discriminate Hlen].
    + intro Hnone. destruct alerts as [|a rest]; [reflexivity|].
      destruct kept as [|f kept'] eqn:Ek; [discriminate Hlen|].
      assert (Hf : In f (filter NWS.relevant (App.orEmpty features))).
      { fold kept. rewrite Ek. left; reflexivity. }
      apply filter_In in Hf. destruct Hf as [Hf Hr].
      rewrite (Hnone f Hf) in Hr. discriminate Hr.
  - intros first rest Ek.
    destruct (relevant_properties first) as (p & e & Hp & He & _).
    { apply Hkept. rewrite Ek. left; reflexivity. }
    rewrite Ek in Hmap. cbn [map] in Hmap.
    destruct alerts as [|a others]; [discriminate Hmap|].
    cbn [map] in Hmap. injection Hmap as Ha _.
    unfold NWS.toAlert in Ha. rewrite Hp, He in Ha. injection Ha as ->.
    exists p, e. eexists. split; [exact Hp|]. split; [exact He|].
    split; [reflexivity|].
    rewrite length_map, Hlen. reflexivity.
Qed.

(* ===================================================================== *)
(** * The refresh cycle                                                   *)
(* ===================================================================== *)

(** ** Objects as maps: writing under distinct keys *)

Lemma obj_set_same {V : Type} (obj : list (string * V)) (key : string) (v : V) :
  App.obj_get obj key = Some v -> App.obj_set obj key v = obj.
Proof.
  induction obj as [|[k x] obj IH]; simpl; [discriminate|].
  destruct (String.eqb k key).
  - intro H; injection H as ->. reflexivity.
  - intro H. rewrite (IH H). reflexivity.
Qed.

Lemma obj_set_keys {V : Type} (obj : list (string * V)) (key : string) (v : V) :
  forall k, In k (map fst (App.obj_set obj key v)) <-> k = key \/ In k (map fst obj).
Proof.
  induction obj as [|[k0 x] obj IH]; intro k; simpl.
  - intuition congruence.
  - destruct (String.eqb_spec k0 key) as [->|Hne]; simpl.
    + intuition congruence.
    + rewrite IH. intuition congruence.
Qed.

Lemma obj_set_NoDup {V : Type} (obj : list (string * V)) (key : string) (v : V) :
  NoDup (map fst obj) -> NoDup (map fst (App.obj_set obj key v)).
Proof.
  induction obj as [|[k0 x] obj IH]; simpl; intro Hnd.
  - constructor; [intros [] | constructor].
  - inversion Hnd as [|? ? Hnotin Hnd']; subst.
    destruct (String.eqb_spec k0 key) as [->|Hne]; simpl.
    + constructor; assumption.
    + constructor; [|apply IH, Hnd'].
      rewrite obj_set_keys. intros [E|Hin]; [congruence | contradiction].
Qed.

Lemma obj_get_In {V : Type} (obj : list (string * V)) (key : string) (v : V) :
  NoDup (map fst obj) -> In (key, v) obj -> App.obj_get obj key = Some v.
Proof.
  induction obj as [|[k0 x] obj IH]; simpl; intros Hnd Hin; [destruct Hin|].
  inversion Hnd as [|? ? Hnotin Hnd']; subst.
  destruct Hin as [E|Hin].
  - injection E as -> ->. rewrite String.eqb_refl. reflexivity.
  - destruct (String.eqb_spec k0 key) as [->|Hne]; [|apply IH; assumption].
    exfalso. apply Hnotin. change key with (fst (key, v)). apply in_map, Hin.
Qed.

Lemma obj_get_Some_In {V : Type} (obj : list (string * V)) (key : string) (v : V) :
  App.obj_get obj key = Some v -> In (key, v) obj.
Proof.
  induction obj as [|[k0 x] obj IH]; simpl; [discriminate|].
  destruct (String.eqb_spec k0 key) as [->|Hne].
  - intro H; injection H as ->. left; reflexivity.
  - intro H. right. apply IH, H.
Qed.

Section StoredReadings.
Context {K V : Type}.
Variable key_of : K -> string.
Variable job : K -> option V.

Local Abbreviation store_all := (store_all key_of job).

Lemma store_all_get (keys : list K) :
  NoDup (map key_of keys) ->
  forall data,
    (forall k, In k keys ->
       App.obj_get (store_all keys data) (key_of k)
       = match job k with
         | Some v => Some v
         | None => App.obj_get data (key_of k)
         end) /\
    (forall key, ~ In key (map key_of keys) ->
       App.obj_get (store_all keys data) key = App.obj_get data key).
Proof.
  induction keys as [|k0 keys IH]; intros Hnd data; simpl.
  - split; [intros ? []|reflexivity].
  - inversion Hnd as [|? ? Hnotin Hnd']; subst.
    set (data1 := match job k0 with
                  | Some v => App.obj_set data (key_of k0) v
                  | None => data
                  end).
    destruct (IH Hnd' data1) as [IH1 IH2]. split.
    + intros k [<-|Hin].
      * rewrite IH2 by exact Hnotin. unfold data1.
        destruct (job k0); [apply obj_get_set_eq | reflexivity].
      * rewrite (IH1 k Hin). destruct (job k); [reflexivity|].
        unfold data1. destruct (job k0); [|reflexivity].
        apply obj_get_set_ne. intro E. apply Hnotin. rewrite E.
        apply in_map, Hin.
    + intros key Hkey. rewrite IH2 by tauto. unfold data1.
      destruct (job k0); [|reflexivity].
      apply obj_get_set_ne. tauto.
Qed.

Lemma store_all_fixed (keys : list K) :
  forall data,
    (forall k v, In k keys -> job k = Some v ->
                 App.obj_get data (key_of k) = Some v) ->
    store_all keys data = data.
Proof.
  induction keys as [|k0 keys IH]; intros data H; simpl; [reflexivity|].
  destruct (job k0) as [v|] eqn:E.
  - rewrite (obj_set_same data (key_of k0) v) by (apply H; [left; reflexivity | exact E]).
    apply IH. intros k v' Hin. apply H. right; exact Hin.
  - apply IH. intros k v' Hin. apply H. right; exact Hin.
Qed.

Lemma store_all_idempotent (keys : list K) (data : list (string * V)) :
  NoDup (map key_of keys) ->
  store_all keys (store_all keys data) = store_all keys data.
Proof.
  intro Hnd. apply store_all_fixed. intros k v Hin Hjob.
  destruct (store_all_get keys Hnd data) as [Hget _].
  rewrite (Hget k Hin), Hjob. reflexivity.
Qed.

Lemma store_all_keys (keys : list K) :
  forall data,
    (NoDup (map fst data) -> NoDup (map fst (store_all keys data))) /\
    (forall key, In key (map fst (store_all keys data)) ->
                 In key (map fst data) \/ In key (map key_of keys)).
Proof.
  induction keys as [|k0 keys IH]; intro data; simpl.
  - split; [auto | intros key H; left; exact H].
  - set (data1 := match job k0 with
                  | Some v => App.obj_set data (key_of k0) v
                  | None => data
                  end).
    destruct (IH data1) as [IH1 IH2]. split.
    + intro Hnd. apply IH1. unfold data1.
      destruct (job k0); [apply obj_set_NoDup, Hnd | exact Hnd].
    + intros key Hkey. destruct (IH2 key Hkey) as [H|H]; [|right; right; exact H].
      unfold data1 in H. destruct (job k0); [|left; exact H].
      apply obj_set_keys in H. destruct H as [->|H]; [right; left; reflexivity|].
      left; exact H.
Qed.
End StoredReadings.

(** ** The order in which jobs settle *)

Lemma settleOrder_In {A : Type} (sch : App.Schedule) (key : A -> string) (jobs : list A) :
  forall x, In x (App.settleOrder sch key jobs) <-> In x jobs.
Proof. intro x. unfold App.settleOrder. apply sort_In. Qed.

Lemma settleOrder_NoDup {A : Type} (sch : App.Schedule) (key : A -> string)
      (jobs : list A) :
  NoDup (map key jobs) -> NoDup (map key (App.settleOrder sch key jobs)).
Proof.
  intro Hnd. apply (Permutation_NoDup (l := map key jobs)); [|exact Hnd].
  apply Permutation_map. symmetry. unfold App.settleOrder. apply sort_perm.
Qed.

Lemma station_ids_distinct : NoDup (map App.id App.STATIONS).
Proof. repeat constructor; simpl; intuition discriminate. Qed.

Lemma location_names_distinct : NoDup (map App.loc_name App.WEATHER_LOCATIONS).
Proof. repeat constructor; simpl; intuition discriminate. Qed.

(** ** What a cycle stores *)

Lemma getLatestValue_none (vs : list App.Sample) :
  match App.getLatestValue (Some vs) with
  | Some _ => true
  | None => false
  end = negb (length vs =? 0)%nat.
Proof. destruct vs as [|v vs]; reflexivity. Qed.

Lemma settledReading_left (w : App.World) (sch : App.Schedule) (days : Z)
      (station : App.Station) :
  App.settledReading w sch days station
  = reading_left w sch station (App.stationJob w days station).
Proof.
  unfold App.settledReading, reading_left, App.chartDrawn, chart_drawn. cbv zeta.
  rewrite getLatestValue_none. reflexivity.
Qed.

Lemma reading_left_discharge (w : App.World) (sch : App.Schedule)
      (station : App.Station) (r : App.StationReading) :
  length (App.discharge (App.series (reading_left w sch station r)))
  = length (App.discharge (App.series r)) /\
  App.source (reading_left w sch station r) = App.source r.
Proof.
  unfold reading_left. destruct (chart_drawn w sch station r); [|split; reflexivity].
  cbn [App.series App.discharge App.source]. split; [|reflexivity].
  apply sort_length.
Qed.

Lemma runStationJobs_fields (w : App.World) (sch : App.Schedule) (days : Z)
      (st : App.State) :
  App.runStationJobs w sch days st
  = App.mkState (App.currentDays st) (App.isRefreshing st) (App.lastRefresh st)
                (stored_stations w sch days (App.stationData st)) (App.weatherData st).
Proof.
  unfold App.runStationJobs, stored_stations, store_all.
  generalize (App.settleOrder sch App.id App.STATIONS) as stations.
  intro stations. revert st.
  induction stations as [|s stations IH]; intro st; simpl.
  - destruct st; reflexivity.
  - rewrite IH. reflexivity.
Qed.

Lemma runWeatherJobs_fields (w : App.World) (sch : App.Schedule) (st : App.State) :
  App.runWeatherJobs w sch st
  = App.mkState (App.currentDays st) (App.isRefreshing st) (App.lastRefresh st)
                (App.stationData st) (stored_weather w sch (App.weatherData st)).
Proof.
  unfold App.runWeatherJobs, stored_weather, store_all, weather_answer.
  generalize (App.settleOrder sch App.loc_name App.WEATHER_LOCATIONS) as locs.
  intro locs. revert st.
  induction locs as [|l locs IH]; intro st; simpl.
  - destruct st; reflexivity.
  - rewrite IH. destruct (App.fetchWindy w _ _); reflexivity.
Qed.

Lemma stored_stations_get (w : App.World) (sch : App.Schedule) (days : Z)
      (data : list (string * App.StationReading)) :
  (forall station, In station App.STATIONS ->
     App.obj_get (stored_stations w sch days data) (App.id station)
     = Some (reading_left w sch station (App.stationJob w days station))) /\
  (forall key, ~ In key (map App.id App.STATIONS) ->
     App.obj_get (stored_stations w sch days data) key = App.obj_get data key).
Proof.
  unfold stored_stations.
  destruct (store_all_get App.id (fun s => Some (App.settledReading w sch days s))
              (App.settleOrder sch App.id App.STATIONS)
              (settleOrder_NoDup sch App.id App.STATIONS station_ids_distinct) data)
    as [Hin Hout].
  split.
  - intros station Hs. rewrite (Hin station (proj2 (settleOrder_In _ _ _ _) Hs)).
    rewrite settledReading_left. reflexivity.
  - intros key Hkey. apply Hout. intro H. apply Hkey.
    apply in_map_iff in H. destruct H as (s & <- & Hs).
    apply in_map, (settleOrder_In sch App.id App.STATIONS), Hs.
Qed.

Lemma stored_weather_get (w : App.World) (sch : App.Schedule)
      (data : list (string * App.Weather)) :
  (forall loc, In loc App.WEATHER_LOCATIONS ->
     App.obj_get (stored_weather w sch data) (App.loc_name loc)
     = match App.fetchWindy w (App.loc_lat loc) (App.loc_lng loc) with
       | App.Returned d => Some d
       | App.Threw => App.obj_get data (App.loc_name loc)
       end) /\
  (forall key, ~ In key (map App.loc_name App.WEATHER_LOCATIONS) ->
     App.obj_get (stored_weather w sch data) key = App.obj_get data key).
Proof.
  unfold stored_weather.
  destruct (store_all_get App.loc_name (weather_answer w)
              (App.settleOrder sch App.loc_name App.WEATHER_LOCATIONS)
              (settleOrder_NoDup sch App.loc_name App.WEATHER_LOCATIONS
                 location_names_distinct) data)
    as [Hin Hout].
  split.
  - intros loc Hl. rewrite (Hin loc (proj2 (settleOrder_In _ _ _ _) Hl)).
    unfold weather_answer. destruct (App.fetchWindy w _ _); reflexivity.
  - intros key Hkey. apply Hout. intro H. apply Hkey.
    apply in_map_iff in H. destruct H as (l & <- & Hl).
    apply in_map, (settleOrder_In sch App.loc_name App.WEATHER_LOCATIONS), Hl.
Qed.

(** The state in which the [try] block ends. *)
Lemma tryBlock_state (w : App.World) (sch : App.Schedule) (days : Z) (st : App.State) :
  App.state (App.tryBlock w sch days st)
  = App.mkState (App.currentDays st) (App.isRefreshing st)
      (if App.updateMapMarkers_ok w then Some (App.now w) else App.lastRefresh st)
      (stored_stations w sch days (App.stationData st))
      (stored_weather w sch (App.weatherData st)).
Proof.
  unfold App.tryBlock. cbv zeta.
  rewrite runWeatherJobs_fields, runStationJobs_fields.
  cbn [App.currentDays App.isRefreshing App.lastRefresh App.stationData App.weatherData].
  destruct (App.updateMapMarkers_ok w); [|reflexivity].
  destruct (App.setStatus w _) as [c given]. reflexivity.
Qed.

(** The state a cycle leaves, once the [try] block is entered. *)
Lemma guardedCycle_state (w : App.World) (sch : App.Schedule) (days : Z)
      (st : App.State) :
  App.state (App.guardedCycle w sch days st)
  = App.mkState (App.currentDays st) false
      (if App.updateMapMarkers_ok w then Some (App.now w) else App.lastRefresh st)
      (stored_stations w sch days (App.stationData st))
      (stored_weather w sch (App.weatherData st)).
Proof.
  unfold App.guardedCycle. cbv zeta. rewrite tryBlock_state.
  destruct (App.completion (App.tryBlock w sch days st));
    [|destruct (App.setStatus w "error") as [c given]]; reflexivity.
Qed.

Lemma setStatus_on_page (w : App.World) (level : string) :
  page_has_controls w -> App.setStatus w level = (App.Normal, [level]).
Proof.
  intros (_ & Hdot & Hlbl). unfold App.setStatus. rewrite Hdot, Hlbl. reflexivity.
Qed.

Lemma tryBlock_on_page (w : App.World) (sch : App.Schedule) (days : Z)
      (st : App.State) :
  page_has_controls w ->
  App.completion (App.tryBlock w sch days st)
  = (if App.updateMapMarkers_ok w then App.Normal else App.Throw) /\
  App.levels (App.tryBlock w sch days st)
  = (if App.updateMapMarkers_ok w
     then [App.refreshLevel (App.state (App.tryBlock w sch days st))]
     else []).
Proof.
  intro Hpage. unfold App.tryBlock. cbv zeta.
  destruct (App.updateMapMarkers_ok w); [|split; reflexivity].
  rewrite (setStatus_on_page w _ Hpage). split; reflexivity.
Qed.

(** How a cycle ends on a page that has the status elements: the error of a
    failed map update is caught and reported. *)
Lemma guardedCycle_on_page (w : App.World) (sch : App.Schedule) (days : Z)
      (st : App.State) :
  page_has_controls w ->
  App.completion (App.guardedCycle w sch days st) = App.Normal /\
  App.levels (App.guardedCycle w sch days st)
  = [if App.updateMapMarkers_ok w
     then App.refreshLevel (App.state (App.tryBlock w sch days st))
     else "error"%string].
Proof.
  intro Hpage. unfold App.guardedCycle. cbv zeta.
  destruct (tryBlock_on_page w sch days st Hpage) as [Hc Hl].
  rewrite Hc, Hl.
  destruct (App.updateMapMarkers_ok w); cbn [App.completion App.levels].
  - split; reflexivity.
  - rewrite (setStatus_on_page w _ Hpage). split; reflexivity.
Qed.

Lemma refreshStart_on_page (w : App.World) (st : App.State) :
  App.isRefreshing st = false -> page_has_controls w ->
  App.refreshStart w st
  = inr (App.mkState (App.currentDays st) true (App.lastRefresh st)
                     (App.stationData st) (App.weatherData st),
         ["loading"%string]).
Proof.
  intros Hclear Hpage. unfold App.refreshStart.
  rewrite Hclear, (setStatus_on_page w _ Hpage).
  destruct Hpage as (Hbtn & _). rewrite Hbtn. reflexivity.
Qed.

Lemma refresh_runs_cycle (w : App.World) (sch : App.Schedule) (st : App.State) :
  App.isRefreshing st = false -> page_has_controls w ->
  let entered := App.mkState (App.currentDays st) true (App.lastRefresh st)
                             (App.stationData st) (App.weatherData st) in
  let cycle := App.guardedCycle w sch (App.currentDays st) entered in
  App.refresh w sch st
  = App.mkRun (App.completion cycle) (App.state cycle)
              ("loading"%string :: App.levels cycle).
Proof.
  intros Hclear Hpage entered cycle. unfold App.refresh.
  rewrite (refreshStart_on_page w st Hclear Hpage). reflexivity.
Qed.

Lemma refresh_refused (w : App.World) (sch : App.Schedule) (st : App.State) :
  App.isRefreshing st = true -> App.refresh w sch st = App.mkRun App.Normal st [].
Proof.
  intro Hset. unfold App.refresh, App.refreshStart. rewrite Hset. reflexivity.
Qed.

(** The state a refresh leaves on a page with its controls. *)
Lemma refresh_state (w : App.World) (sch : App.Schedule) (st : App.State) :
  App.isRefreshing st = false -> page_has_controls w ->
  App.state (App.refresh w sch st)
  = App.mkState (App.currentDays st) false
      (if App.updateMapMarkers_ok w then Some (App.now w) else App.lastRefresh st)
      (stored_stations w sch (App.currentDays st) (App.stationData st))
      (stored_weather w sch (App.weatherData st)).
Proof.
  intros Hclear Hpage. rewrite (refresh_runs_cycle w sch st Hclear Hpage).
  cbn [App.state]. rewrite guardedCycle_state. reflexivity.
Qed.

(** A call on the page's own document, flag clear: how it ends, and the
    levels it gives the status indicator. *)
Lemma refresh_on_page (w : App.World) (sch : App.Schedule) (st : App.State) :
  App.isRefreshing st = false -> page_has_controls w ->
  App.refresh w sch st
  = App.mkRun App.Normal (App.state (App.refresh w sch st))
      ["loading"%string;
       if App.updateMapMarkers_ok w
       then App.refreshLevel (App.state (App.refresh w sch st))
       else "error"%string].
Proof.
  intros Hclear Hpage. rewrite (refresh_state w sch st Hclear Hpage).
  rewrite (refresh_runs_cycle w sch st Hclear Hpage). cbv zeta.
  destruct (guardedCycle_on_page w sch (App.currentDays st)
              (App.mkState (App.currentDays st) true (App.lastRefresh st)
                           (App.stationData st) (App.weatherData st)) Hpage)
    as [Hc Hl].
  rewrite Hc, Hl, guardedCycle_state, tryBlock_state.
  cbn [App.currentDays App.isRefreshing App.lastRefresh App.stationData App.weatherData].
  reflexivity.
Qed.

(** ** C8: the is-refreshing flag *)



(** The first refresh of the page. *)
Example refresh_completes :
  let run := App.refresh Browser.world all_at_once Browser.idle in
  App.completion run = App.Normal /\ App.isRefreshing (App.state run) = false /\
  App.lastRefresh (App.state run) = Some 1771500000000 /\
  App.levels run = ["loading"; "warn"]%string /\
  map fst (App.stationData (App.state run))
  = ["easton"; "cle_res"; "cle_elum"; "teanaway"; "horlick"; "umtanum"]%string.
Proof. vm_compute. auto 6. Qed.

(** A cycle in which the map update throws: the promise is fulfilled (the
    error is caught and reported), the readings are stored, [lastRefresh] is
    not, and the flag is clear. *)
Example refresh_clears_flag_after_error :
  let w := App.mkWorld
             (App.now Browser.world) (App.Date_parse Browser.world)
             (App.toLocaleDateString Browser.world) (App.Math_pow Browser.world)
             (App.fetchUSGS Browser.world) (App.usbr_text Browser.world)
             (App.nwrfc_text Browser.world) (App.fetchNWSForecast Browser.world)
             (App.windy_json Browser.world) (App.getElementById Browser.world)
             false in
  let run := App.refresh w all_at_once Browser.idle in
  App.completion run = App.Normal /\ App.isRefreshing (App.state run) = false /\
  App.lastRefresh (App.state run) = None /\
  App.levels run = ["loading"; "error"]%string /\
  length (App.stationData (App.state run)) = 6%nat.
Proof. vm_compute. auto 6. Qed.

(** The first station settles last: its entry comes last. *)
Example refresh_settle_order :
  map fst (App.stationData (App.state (App.refresh Browser.world easton_last Browser.idle)))
  = ["cle_res"; "cle_elum"; "teanaway"; "horlick"; "umtanum"; "easton"]%string.
Proof. vm_compute. reflexivity. Qed.

(** Rows that the provider sends out of time order stay so in the stored
    reading until the chart of the card is drawn, which sorts them. *)
Example refresh_sorts_charted_reading :
  let stored := fun sch =>
    match App.obj_get (App.stationData
                         (App.state (App.refresh unordered_world sch Browser.idle)))
                      "easton" with
    | Some r => map App.time (App.discharge (App.series r))
    | None => []
    end in
  stored easton_last = [1771464600000; 1771463700000] /\
  stored all_at_once = [1771463700000; 1771464600000].
Proof. vm_compute. auto. Qed.

(** ** The readings a cycle leaves *)

(** X17. What a refresh cycle leaves in the state, on a page that has the
    refresh button and the status elements, from a state whose flag is
    clear. Under every configured station's identifier: the reading of that
    station's job, made with the period the state had at the start; when the
    chart of its card has been drawn by then, its discharge and its forecast
    are sorted by time (samples of one time in the order they had), as the
    chart sorts them in place. Under every weather location's name: the
    parsed answer when the fetch succeeded, and the entry it had before when
    the fetch failed. Entries of other keys and the period are untouched; the
    time of the last refresh is the clock's when the map markers could be
    updated and stays what it was otherwise. *)
Theorem refresh_stores_readings :
  forall (w : App.World) (sch : App.Schedule) (st : App.State),
    App.isRefreshing st = false -> page_has_controls w ->
    let st' := App.state (App.refresh w sch st) in
    (forall station, In station App.STATIONS ->
       App.obj_get (App.stationData st') (App.id station)
       = Some (reading_left w sch station
                 (App.stationJob w (App.currentDays st) station))) /\
    (forall key, ~ In key (map App.id App.STATIONS) ->
       App.obj_get (App.stationData st') key = App.obj_get (App.stationData st) key) /\
    (forall loc, In loc App.WEATHER_LOCATIONS ->
       App.obj_get (App.weatherData st') (App.loc_name loc)
       = match App.fetchWindy w (App.loc_lat loc) (App.loc_lng loc) with
         | App.Returned d => Some d
         | App.Threw => App.obj_get (App.weatherData st) (App.loc_name loc)
         end) /\
    (forall key, ~ In key (map App.loc_name App.WEATHER_LOCATIONS) ->
       App.obj_get (App.weatherData st') key = App.obj_get (App.weatherData st) key) /\
    App.currentDays st' = App.currentDays st /\
    App.lastRefresh st'
    = (if App.updateMapMarkers_ok w then Some (App.now w) else App.lastRefresh st).
Proof.
  intros w sch st Hclear Hpage st'. unfold st'.
  rewrite (refresh_state w sch st Hclear Hpage).
  cbn [App.currentDays App.isRefreshing App.lastRefresh App.stationData App.weatherData].
  destruct (stored_stations_get w sch (App.currentDays st) (App.stationData st))
    as [Hs1 Hs2].
  destruct (stored_weather_get w sch (App.weatherData st)) as [Hw1 Hw2].
  split; [exact Hs1|]. split; [exact Hs2|]. split; [exact Hw1|].
  split; [exact Hw2|]. split; reflexivity.
Qed.

(** The first refresh of the page. *)
Lemma refresh_stores_readings_witness :
  App.isRefreshing Browser.idle = false /\ page_has_controls Browser.world /\
  App.lastRefresh (App.state (App.refresh Browser.world all_at_once Browser.idle))
  = Some (App.now Browser.world).
Proof.
  assert (Hclear : App.isRefreshing Browser.idle = false) by reflexivity.
  assert (Hpage : page_has_controls Browser.world).
  { repeat split. }
  split; [exact Hclear|]. split; [exact Hpage|].
  exact (proj2 (proj2 (proj2 (proj2 (proj2
           (refresh_stores_readings Browser.world all_at_once Browser.idle
              Hclear Hpage)))))).
Defined.

(** X18. Refreshing again changes nothing while the world and the timing
    stay the same: on a page that has the refresh button and the status
    elements, a second call of [refresh] against the same answers, with the
    jobs settling and the charts drawn as in the first, ends as the first
    did, gives the status indicator the same levels and leaves the state the
    first left. *)
Theorem refresh_idempotent :
  forall (w : App.World) (sch : App.Schedule) (st : App.State),
    page_has_controls w ->
    App.refresh w sch (App.state (App.refresh w sch st)) = App.refresh w sch st.
Proof.
  intros w sch st Hpage.
  destruct (App.isRefreshing st) eqn:Hflag.
  - rewrite (refresh_refused w sch st Hflag). cbn [App.state].
    apply refresh_refused, Hflag.
  - pose proof (refresh_state w sch st Hflag Hpage) as Hstate.
    set (st1 := App.state (App.refresh w sch st)) in *.
    assert (Hflag1 : App.isRefreshing st1 = false) by (rewrite Hstate; reflexivity).
    assert (Hsame : App.state (App.refresh w sch st1) = st1).
    { rewrite (refresh_state w sch st1 Hflag1 Hpage), Hstate.
      cbn [App.currentDays App.isRefreshing App.lastRefresh App.stationData
           App.weatherData].
      unfold stored_stations, stored_weather.
      rewrite (store_all_idempotent _ _ _ _
                 (settleOrder_NoDup sch App.id App.STATIONS station_ids_distinct)).
      rewrite (store_all_idempotent _ _ _ _
                 (settleOrder_NoDup sch App.loc_name App.WEATHER_LOCATIONS
                    location_names_distinct)).
      destruct (App.updateMapMarkers_ok w); reflexivity. }
    rewrite (refresh_on_page w sch st1 Hflag1 Hpage), (refresh_on_page w sch st Hflag Hpage).
    fold st1. rewrite Hsame. reflexivity.
Qed.

(** Two refreshes of the page in a row. *)
Lemma refresh_idempotent_witness :
  page_has_controls Browser.world /\
  App.refresh Browser.world all_at_once
    (App.state (App.refresh Browser.world all_at_once Browser.idle))
  = App.refresh Browser.world all_at_once Browser.idle.
Proof.
  assert (Hpage : page_has_controls Browser.world).
  { repeat split. }
  split; [exact Hpage|].
  apply (refresh_idempotent Browser.world all_at_once Browser.idle Hpage).
Defined.

(** ** The level a cycle reports *)

Lemma filter_none {A : Type} (f : A -> bool) (l : list A) :
  length (filter f l) = 0%nat <-> forall x, In x l -> f x = false.
Proof.
  induction l as [|a l IH]; simpl; [intuition|].
  destruct (f a) eqn:E; simpl.
  - split; [discriminate|]. intro H. specialize (H a (or_introl eq_refl)). congruence.
  - rewrite IH. split.
    + intros H x [<-|Hx]; [exact E | apply H, Hx].
    + intros H x Hx. apply H. right; exact Hx.
Qed.

Lemma filter_all {A : Type} (f : A -> bool) (l : list A) :
  (length (filter f l) <= length l)%nat /\
  (length (filter f l) = length l <-> forall x, In x l -> f x = true).
Proof.
  induction l as [|a l [IHle IH]]; simpl; [intuition|].
  destruct (f a) eqn:E; simpl.
  - split; [lia|]. split.
    + intros H x [<-|Hx]; [exact E|]. apply IH; [lia | exact Hx].
    + intro H. f_equal. apply IH. intros x Hx. apply H. right; exact Hx.
  - split; [lia|]. split; [lia|].
    intro H. specialize (H a (or_introl eq_refl)). congruence.
Qed.

(** From a state whose entries belong to configured stations, the entries a
    cycle leaves are one per configured station. *)
Lemma stored_stations_entries (w : App.World) (sch : App.Schedule) (days : Z)
      (data : list (string * App.StationReading)) :
  station_keys_only data ->
  let data' := stored_stations w sch days data in
  length data' = length App.STATIONS /\
  (forall e, In e data' ->
     exists s, In s App.STATIONS /\
               e = (App.id s, reading_left w sch s (App.stationJob w days s))) /\
  (forall s, In s App.STATIONS ->
     In (App.id s, reading_left w sch s (App.stationJob w days s)) data').
Proof.
  intros [Hnd0 Hsub0] data'.
  destruct (store_all_keys App.id (fun s => Some (App.settledReading w sch days s))
              (App.settleOrder sch App.id App.STATIONS) data) as [Hnd1 Hsub1].
  assert (Hnd : NoDup (map fst data')) by (apply Hnd1, Hnd0).
  assert (Hsub : forall key, In key (map fst data') -> In key (map App.id App.STATIONS)).
  { intros key Hkey. destruct (Hsub1 key Hkey) as [H|H]; [apply Hsub0, H|].
    apply in_map_iff in H. destruct H as (s & <- & Hs).
    apply in_map, (settleOrder_In sch App.id App.STATIONS), Hs. }
  destruct (stored_stations_get w sch days data) as [Hget _]. fold data' in Hget.
  assert (Hin : forall s, In s App.STATIONS ->
            In (App.id s, reading_left w sch s (App.stationJob w days s)) data').
  { intros s Hs. apply obj_get_Some_In, Hget, Hs. }
  split; [|split; [|exact Hin]].
  - rewrite <- (length_map fst data'), <- (length_map App.id App.STATIONS).
    apply Permutation_length, NoDup_Permutation;
      [exact Hnd | exact station_ids_distinct|].
    intro key. split; [apply Hsub|].
    intro Hkey. apply in_map_iff in Hkey. destruct Hkey as (s & <- & Hs).
    change (App.id s)
      with (fst (App.id s, reading_left w sch s (App.stationJob w days s))).
    apply in_map, Hin, Hs.
  - intros [key r] He.
    assert (Hkey : In key (map App.id App.STATIONS)).
    { apply Hsub. change key with (fst (key, r)). apply in_map, He. }
    apply in_map_iff in Hkey. destruct Hkey as (s & <- & Hs).
    exists s. split; [exact Hs|].
    pose proof (obj_get_In data' (App.id s) r Hnd He) as Hr.
    rewrite (Hget s Hs) in Hr. injection Hr as <-. reflexivity.
Qed.

(** X19. The levels a refresh cycle gives the status indicator, from a state
    whose flag is clear and whose station entries are those of configured
    stations (as at page load and after every cycle), on a page with the
    refresh button and the status elements: [loading] and then one more.
    When the map update throws, the [catch] gives [error] whatever was
    loaded. When it does not, the level is [ok] exactly when every configured
    station has a source, [error] exactly when none has, and [warn]
    otherwise. The minute tick never reports [error]: after a cycle that
    reported [error] because no station loaded, it turns the indicator to
    [warn]. *)
Theorem refresh_status_level :
  forall (w : App.World) (sch : App.Schedule) (st : App.State),
    App.isRefreshing st = false -> page_has_controls w ->
    station_keys_only (App.stationData st) ->
    let run := App.refresh w sch st in
    let has_source := fun s =>
      App.source (App.stationJob w (App.currentDays st) s) <> None in
    exists last : string,
      App.levels run = ["loading"%string; last] /\
      (App.updateMapMarkers_ok w = false -> last = "error"%string) /\
      (App.updateMapMarkers_ok w = true ->
       (last = "ok"%string <-> forall s, In s App.STATIONS -> has_source s) /\
       (last = "error"%string <-> forall s, In s App.STATIONS -> ~ has_source s) /\
       (last = "ok"%string \/ last = "warn"%string \/ last = "error"%string) /\
       (last = "error"%string -> App.tickLevel (App.state run) = Some "warn"%string)) /\
      App.tickLevel (App.state run) <> Some "error"%string.
Proof.
  intros w sch st Hclear Hpage Hkeys run has_source.
  set (st' := App.state run).
  set (days := App.currentDays st).
  set (has_q := fun e : string * App.StationReading =>
                  (0 <? length (App.discharge (App.series (snd e))))%nat).
  pose proof (refresh_state w sch st Hclear Hpage) as Hstate. fold run st' in Hstate.
  assert (Hdata : App.stationData st' = stored_stations w sch days (App.stationData st)).
  { rewrite Hstate. reflexivity. }
  destruct (stored_stations_entries w sch days (App.stationData st) Hkeys)
    as (Hlen & Hentries & Hstations).
  rewrite <- Hdata in Hlen, Hentries, Hstations.
  assert (Hq : forall s,
            has_q (App.id s, reading_left w sch s (App.stationJob w days s)) = true
            <-> has_source s).
  { intro s. unfold has_q, has_source. cbn [snd]. fold days.
    rewrite (proj1 (reading_left_discharge w sch s _)).
    rewrite length_pos_nonempty.
    destruct (stationJob_source_discharge w days s) as [[Hs Hd]|[Hs Hd]];
      rewrite ?Hs, ?Hd; intuition congruence. }
  assert (Hnone : App.loaded st' = 0%nat <-> forall s, In s App.STATIONS -> ~ has_source s).
  { unfold App.loaded. fold has_q. rewrite filter_none. split.
    - intros H s Hs Hsrc. apply Hq in Hsrc.
      rewrite (H _ (Hstations s Hs)) in Hsrc. discriminate.
    - intros H e He. destruct (Hentries e He) as (s & Hs & ->).
      destruct (has_q (App.id s, reading_left w sch s (App.stationJob w days s))) eqn:E;
        [|reflexivity].
      exfalso. apply (H s Hs), Hq, E. }
  assert (Hall : App.loaded st' = length App.STATIONS
                 <-> forall s, In s App.STATIONS -> has_source s).
  { unfold App.loaded. fold has_q. rewrite <- Hlen.
    rewrite (proj2 (filter_all has_q (App.stationData st'))). split.
    - intros H s Hs. apply Hq, H, Hstations, Hs.
    - intros H e He. destruct (Hentries e He) as (s & Hs & ->). apply Hq, H, Hs. }
  assert (Hle : (App.loaded st' <= length App.STATIONS)%nat).
  { unfold App.loaded. rewrite <- Hlen. apply filter_all. }
  assert (Htotal : length App.STATIONS = 6%nat) by reflexivity.
  assert (Hrefreshing : App.isRefreshing st' = false).
  { rewrite Hstate. reflexivity. }
  assert (Hlast : App.updateMapMarkers_ok w = true ->
                  App.lastRefresh st' = Some (App.now w)).
  { intro Hok. rewrite Hstate. cbn [App.lastRefresh]. rewrite Hok. reflexivity. }
  assert (Htick : App.tickLevel st' <> Some "error"%string).
  { unfold App.tickLevel. cbv zeta. rewrite Hrefreshing. cbn [negb].
    destruct (App.lastRefresh st'); [|discriminate].
    destruct (App.loaded st' <? length App.STATIONS)%nat; discriminate. }
  pose proof (refresh_on_page w sch st Hclear Hpage) as Hrun. fold run st' in Hrun.
  eexists. split; [rewrite Hrun; reflexivity|].
  split; [intro Hok; rewrite Hok; reflexivity|].
  split; [|exact Htick].
  intro Hok. rewrite Hok.
  unfold App.refreshLevel, App.tickLevel. cbv zeta.
  rewrite Hrefreshing, (Hlast Hok). cbn [negb].
  destruct (Nat.eqb_spec (App.loaded st') 0) as [Hzero|Hpos].
  - split; [|split; [|split]].
    + split; [discriminate|]. intro H. apply Hall in H. lia.
    + split; [intros _; apply Hnone, Hzero | reflexivity].
    + auto.
    + intros _.
      destruct (Nat.ltb_spec (App.loaded st') (length App.STATIONS)); [reflexivity | lia].
  - destruct (Nat.ltb_spec (App.loaded st') (length App.STATIONS)) as [Hlt|Hge].
    + split; [|split; [|split]].
      * split; [discriminate|]. intro H. apply Hall in H. lia.
      * split; [discriminate|]. intro H. apply Hnone in H. lia.
      * auto.
      * discriminate.
    + split; [|split; [|split]].
      * split; [intros _; apply Hall; lia | reflexivity].
      * split; [discriminate|]. intro H. apply Hnone in H. lia.
      * auto.
      * discriminate.
Qed.

(** The first refresh of the page, where one station of six has a source. *)
Lemma refresh_status_level_witness :
  App.isRefreshing Browser.idle = false /\ page_has_controls Browser.world /\
  station_keys_only (App.stationData Browser.idle) /\
  exists last : string,
    App.levels (App.refresh Browser.world all_at_once Browser.idle)
    = ["loading"%string; last] /\
    App.tickLevel (App.state (App.refresh Browser.world all_at_once Browser.idle))
    <> Some "error"%string.
Proof.
  assert (Hclear : App.isRefreshing Browser.idle = false) by reflexivity.
  assert (Hpage : page_has_controls Browser.world).
  { repeat split. }
  assert (Hkeys : station_keys_only (App.stationData Browser.idle)).
  { split; [constructor | intros key []]. }
  split; [exact Hclear|]. split; [exact Hpage|]. split; [exact Hkeys|].
  destruct (refresh_status_level Browser.world all_at_once Browser.idle
              Hclear Hpage Hkeys) as (last & Hlevels & _ & _ & Htick).
  exists last. split; [exact Hlevels | exact Htick].
Defined.

(** ** A period chosen during a refresh *)

(** X24. A period chosen while a refresh is in flight is not fetched. The
    click sets the period at once, starts nothing and gives the status
    indicator nothing; the cycle in flight, which fixed its period [days]
    when it started, then ends with the new period in the state, the flag
    clear and, under every station's identifier, the reading made for the
    old period (its discharge and forecast sorted by time when the chart of
    its card has been drawn by then). *)
Theorem rangeClick_during_refresh :
  forall (w : App.World) (sch : App.Schedule) (st : App.State) (chosen days : Z),
    App.isRefreshing st = true ->
    let clicked := App.mkState chosen true (App.lastRefresh st)
                               (App.stationData st) (App.weatherData st) in
    let ended := App.state (App.guardedCycle w sch days clicked) in
    App.rangeClick w sch chosen st = App.mkRun App.Normal clicked [] /\
    App.currentDays ended = chosen /\
    App.isRefreshing ended = false /\
    forall station, In station App.STATIONS ->
      App.obj_get (App.stationData ended) (App.id station)
      = Some (reading_left w sch station (App.stationJob w days station)).
Proof.
  intros w sch st chosen days Hflag clicked ended.
  split; [|split; [|split]].
  - unfold App.rangeClick. cbv zeta. cbn [App.isRefreshing]. rewrite Hflag. reflexivity.
  - unfold ended. rewrite guardedCycle_state. reflexivity.
  - unfold ended. rewrite guardedCycle_state. reflexivity.
  - intros station Hs. unfold ended. rewrite guardedCycle_state.
    cbn [App.stationData].
    apply (proj1 (stored_stations_get w sch days (App.stationData st)) station Hs).
Qed.

(** Thirty days chosen during the first refresh of the page, which fetches
    seven. *)
Lemma rangeClick_during_refresh_witness :
  let st := App.mkState 7 true None [] [] in
  let ended :=
    App.state (App.guardedCycle Browser.world all_at_once 7
                 (App.mkState 30 true None [] [])) in
  App.isRefreshing st = true /\
  App.rangeClick Browser.world all_at_once 30 st
  = App.mkRun App.Normal (App.mkState 30 true None [] []) [] /\
  App.currentDays ended = 30 /\
  App.isRefreshing ended = false /\
  forall station, In station App.STATIONS ->
    App.obj_get (App.stationData ended) (App.id station)
    = Some (reading_left Browser.world all_at_once station
              (App.stationJob Browser.world 7 station)).
Proof.
  intros st ended. split; [reflexivity|].
  apply (rangeClick_during_refresh Browser.world all_at_once st 30 7). reflexivity.
Defined.

(** ** C6: what each row of a reservoir agency response contributes *)

Lemma parseUSBRRow_contributes (Date_parse : string -> option Z) (qIdx twIdx : Z)
      (out : App.Series) (line : string) :
  App.parseUSBRRow Date_parse qIdx twIdx out line
  = App.mkSeries (App.discharge out ++ row_discharge Date_parse qIdx line)
                 (App.waterTemp out ++ row_temperature Date_parse twIdx line)
                 (App.gageHeight out).
Proof.
  unfold App.parseUSBRRow, row_discharge, row_temperature, row_time, row_number.
  cbv zeta. destruct out as [q tw h]. cbn [App.discharge App.waterTemp App.gageHeight].
  destruct (length (JS.split "," line) <? 2)%nat; [rewrite !app_nil_r; reflexivity|].
  destruct (Date_parse _) as [dt|]; [|rewrite !app_nil_r; reflexivity].
  destruct (0 <=? qIdx); cbn [andb];
    [destruct (negb _ && JS.ge _ _)|];
    cbn [App.discharge App.waterTemp App.gageHeight];
    (destruct (0 <=? twIdx); cbn [andb];
     [destruct (negb (JS.isNaN _))|];
     cbn [App.discharge App.waterTemp App.gageHeight];
     rewrite ?app_nil_r; reflexivity).
Qed.

Lemma parseUSBRRows_contribute (Date_parse : string -> option Z) (qIdx twIdx : Z)
      (rows : list string) :
  forall out,
    fold_left (App.parseUSBRRow Date_parse qIdx twIdx) rows out
    = App.mkSeries
        (App.discharge out ++ flat_map (row_discharge Date_parse qIdx) rows)
        (App.waterTemp out ++ flat_map (row_temperature Date_parse twIdx) rows)
        (App.gageHeight out).
Proof.
  induction rows as [|r rows IH]; intro out; cbn [fold_left flat_map].
  - rewrite !app_nil_r. destruct out; reflexivity.
  - rewrite IH, parseUSBRRow_contributes.
    cbn [App.discharge App.waterTemp App.gageHeight].
    rewrite <- !app_assoc. reflexivity.
Qed.

(** C6, as the specification words it, on a response that is not well
    formed: the header's first cell is [DateTime_q] and the row holds
    [garbage] where a number is due. The parse is not empty: the first
    column is taken for the discharge, and [parseFloat] reads 2026 in the
    row's date. *)
Lemma parseUSBRCSV_malformed_gives_sample :
  App.parseUSBRCSV Browser.Date_parse usbr_malformed_text "easw"
  = App.mkSeries [App.mkSample 1771464600000 (JS.of_Z 2026)] [] [] /\
  App.parseUSBRCSV Browser.Date_parse usbr_malformed_text "easw"
  <> App.mkSeries [] [] [].
Proof.
  assert (H : App.parseUSBRCSV Browser.Date_parse usbr_malformed_text "easw"
              = App.mkSeries [App.mkSample 1771464600000 (JS.of_Z 2026)] [] []).
  { vm_compute. reflexivity. }
  split; [exact H|]. rewrite H. discriminate.
Qed.

(** C6 (amended in its last part: not every malformed input, but an input
    without a header line or with fewer than two non-blank lines yields the
    empty series). Whatever timestamp [t] the browser reads in
    [2026-02-18 17:30], the response [DateTime,easw_q,easw_tw] /
    [2026-02-18 17:30,326.57,41.0] for station [easw] parses to exactly one
    discharge sample, 326.57 at [t], and one water-temperature sample, 105.8
    at [t]. For every input with a header line, the discharge series is
    what the rows below the first header line contribute, row by row in
    their order, and so is the water-temperature series; there is no
    gage-height series. A row whose discharge number is below zero
    contributes no discharge sample, and no discharge sample of a result has
    a value below zero. An input without a header line (no line starts with
    [DateTime], in any case), or with fewer than two non-blank lines, yields
    three empty series. The parser is a total function of its two strings:
    it returns on every input. *)
Theorem parseUSBRCSV_example_and_guards :
  forall Date_parse : string -> option Z,
    (forall t,
       Date_parse "2026-02-18 17:30"%string = Some t ->
       App.parseUSBRCSV Date_parse usbr_example_text "easw"
       = App.mkSeries [App.mkSample t (JS.lit 32657 (-2))]
                      [App.mkSample t (JS.lit 1058 (-1))] []) /\
    (forall text station pre header rows,
       usbr_lines text = pre ++ header :: rows ->
       (forall l, In l pre -> header_line l = false) ->
       header_line header = true ->
       App.parseUSBRCSV Date_parse text station
       = App.mkSeries
           (flat_map (row_discharge Date_parse (usbr_column station "_q" header)) rows)
           (flat_map (row_temperature Date_parse (usbr_column station "_tw" header))
                     rows)
           []) /\
    (forall column line,
       JS.lt (row_number column line) (JS.of_Z 0) = true ->
       row_discharge Date_parse column line = []) /\
    (forall text stationLower s,
       In s (App.discharge (App.parseUSBRCSV Date_parse text stationLower)) ->
       JS.lt (App.value s) (JS.of_Z 0) = false /\
       JS.ge (App.value s) (JS.of_Z 0) = true) /\
    (forall text stationLower,
       (forall l, In l (JS.split (ascii_of_nat 10) text) ->
                  JS.startsWith (JS.toLowerCase (JS.trim l)) "datetime" = false) ->
       App.parseUSBRCSV Date_parse text stationLower = App.mkSeries [] [] []) /\
    (forall text stationLower,
       (length (filter JS.truthy (map JS.trim (JS.split (ascii_of_nat 10) text)))
        < 2)%nat ->
       App.parseUSBRCSV Date_parse text stationLower = App.mkSeries [] [] []).
Proof.
  intro Date_parse. split; [|split; [|split; [|split; [|split]]]].
  - intros t Ht. vm_compute.
    vm_compute in Ht. rewrite Ht. reflexivity.
  - intros text station pre header rows Hlines Hpre Hheader.
    unfold App.parseUSBRCSV. cbv zeta.
    change (filter JS.truthy (map JS.trim (JS.split (ascii_of_nat 10) text)))
      with (usbr_lines text).
    rewrite Hlines.
    change (fun l : string => JS.startsWith (JS.toLowerCase l) "datetime")
      with header_line.
    assert (Hidx : JS.findIndex header_line (pre ++ header :: rows)
                   = Z.of_nat (length pre)).
    { unfold JS.findIndex. rewrite (findIndex_from_app_none header_line pre _ Hpre 0).
      cbn [JS.findIndex_from]. rewrite Hheader. lia. }
    rewrite Hidx.
    destruct (Nat.ltb_spec (length (pre ++ header :: rows)) 2) as [Hshort|_].
    + rewrite length_app in Hshort. cbn [length] in Hshort.
      destruct rows as [|r rows]; [reflexivity | cbn [length] in Hshort; lia].
    + destruct (Z.ltb_spec (Z.of_nat (length pre)) 0) as [Hneg|_]; [lia|].
      unfold JS.index.
      destruct (Z.ltb_spec (Z.of_nat (length pre)) 0) as [Hneg|_]; [lia|].
      rewrite Nat2Z.id, nth_error_app2, Nat.sub_diag by lia. cbn [nth_error].
      replace (Z.to_nat (Z.of_nat (length pre) + 1)) with (length pre + 1)%nat by lia.
      rewrite skipn_app, skipn_all2 by lia.
      replace (length pre + 1 - length pre)%nat with 1%nat by lia.
      cbn [app skipn].
      rewrite parseUSBRRows_contribute. reflexivity.
  - intros column line Hlt. unfold row_discharge.
    destruct (row_time Date_parse line); [|reflexivity]. cbv zeta.
    replace (JS.ge (row_number column line) (JS.of_Z 0)) with false;
      [rewrite andb_false_r; reflexivity|].
    unfold JS.ge, JS.lt, SFleb, SFltb in *.
    destruct (row_number column line) as [[]|[]| |[] m e]; simpl in *; congruence.
  - intros text stationLower s Hs.
    assert (Hall : Forall (fun s => JS.ge (App.value s) (JS.of_Z 0) = true)
                     (App.discharge (App.parseUSBRCSV Date_parse text stationLower))).
    { unfold App.parseUSBRCSV. cbv zeta.
      destruct (length _ <? 2)%nat; [constructor|].
      destruct (JS.findIndex _ _ <? 0); [constructor|].
      destruct (JS.index _ _); [|constructor].
      apply parseUSBRRows_discharge. constructor. }
    rewrite Forall_forall in Hall. specialize (Hall s Hs).
    split; [|exact Hall].
    unfold JS.ge, JS.lt, SFleb, SFltb in *.
    destruct (App.value s) as [[]|[]| |[] m e]; simpl in *; congruence.
  - intros text stationLower Hnone.
    unfold App.parseUSBRCSV. cbv zeta.
    destruct (length _ <? 2)%nat; [reflexivity|].
    unfold JS.findIndex. rewrite findIndex_from_none; [reflexivity|].
    intros l Hl. apply filter_In in Hl. destruct Hl as [Hl _].
    apply in_map_iff in Hl. destruct Hl as (l0 & <- & Hl0). apply Hnone, Hl0.
  - intros text stationLower Hfew.
    unfold App.parseUSBRCSV. cbv zeta.
    apply Nat.ltb_lt in Hfew. rewrite Hfew. reflexivity.
Qed.

(** A row below zero, and a row with text after its number, which
    [parseFloat] reads up to the text. *)
Example parseUSBRCSV_negative_and_partial_rows :
  App.parseUSBRCSV Browser.Date_parse
    ("DateTime,easw_q" ++ String (ascii_of_nat 10) "2026-02-18 17:15,-5"
     ++ String (ascii_of_nat 10) "2026-02-18 17:30,12abc")%string "easw"
  = App.mkSeries [App.mkSample 1771464600000 (JS.of_Z 12)] [] [].
Proof. vm_compute. reflexivity. Qed.
